(** * The build-order environment of [env.py]: a shallow embedding

    The development follows [src/env.py].  The generators of the class [Env]
    are written as functions over explicit state:

    - the pseudo-random generator [self.random] is a tape of raw draws that
      every random call consumes from, in program order;
    - Python exceptions are the [Raise] results of an error monad;
    - Python dictionaries keep their insertion order, so they are
      association lists with unique keys ([Dict]);
    - [collections.Counter] values holding non-negative counts are finite
      multisets ([gmultiset]): [c1 - c2] is multiset difference, [bool c] is
      non-emptiness, [c\[k\] += 1] adds one occurrence.

    The module [data_types.py] is not part of the sources at hand.  What
    [env.py] uses of it is declared below: the object variants as closed
    inductive types, the tables ([Buildings], [Worker], costs, [WORLD_SIZE])
    as fields of the environment record, and the two interfaces whose bodies
    are missing ([Assignment.action] and [CompoundAction]) as type classes. *)

From Stdlib Require Import ZArith QArith Lia.
From stdpp Require Import gmultiset.
From stdpp Require Import base tactics decidable countable option list.

Set Default Proof Using "Type".


(** ** Exceptions and the error monad *)

Inductive exn : Type :=
  | KeyError
  | IndexError
  | ValueError
  | AttributeError
  | RuntimeError
  | AssertionError
  | RecursionError
  | OutOfFuel.

Inductive result (A : Type) : Type :=
  | Ok (a : A)
  | Raise (e : exn).
Arguments Ok {A} a.
Arguments Raise {A} e.

Definition rbind {A B : Type} (m : result A) (k : A -> result B) : result B :=
  match m with
  | Ok a => k a
  | Raise e => Raise e
  end.

Notation "'let*' x ':=' m 'in' k" := (rbind m (fun x => k))
  (at level 10, x pattern, k at level 200).

(** [d\[k\]] on an optional lookup: a missing key raises [KeyError]. *)
Definition or_raise {A : Type} (e : exn) (o : option A) : result A :=
  match o with
  | Some a => Ok a
  | None => Raise e
  end.

Fixpoint mapM {A B : Type} (f : A -> result B) (l : list A) : result (list B) :=
  match l with
  | [] => Ok []
  | a :: l' => let* b := f a in let* bs := mapM f l' in Ok (b :: bs)
  end.

(** ** Insertion-ordered dictionaries *)

Module Dict.
Section Dict.
Context {K V : Type} `{EqDecision K}.

Definition t : Type := list (K * V).

(** [d.get(k)] *)
Fixpoint get (d : t) (k : K) : option V :=
  match d with
  | [] => None
  | (k', v) :: d' => if decide (k' = k) then Some v else get d' k
  end.

(** [d\[k\] = v]: an existing key keeps its place, a new key goes last. *)
Fixpoint set (d : t) (k : K) (v : V) : t :=
  match d with
  | [] => [(k, v)]
  | (k', v') :: d' =>
      if decide (k' = k) then (k, v) :: d' else (k', v') :: set d' k v
  end.

(** [del d\[k\]] for a key that is present. *)
Fixpoint del (d : t) (k : K) : t :=
  match d with
  | [] => []
  | (k', v') :: d' => if decide (k' = k) then d' else (k', v') :: del d' k
  end.

Definition keys (d : t) : list K := d.*1.
Definition values (d : t) : list V := d.*2.

(** [dict(pairs)]: later pairs override earlier ones. *)
Definition of_list (l : list (K * V)) : t :=
  foldl (fun d kv => set d kv.1 kv.2) [] l.

End Dict.
Global Arguments t : clear implicits.
End Dict.

(** ** World objects ([data_types.py]) *)

(** Modelled from the spec: the enumeration [Resource] of [data_types.py]. *)
Inductive Resource : Type := MINERALS | GAS.

(** Modelled from the spec: the building classes of [data_types.py], a closed
    variant.  [env.py] names two of them, [Assimilator] and [Nexus]; the
    remaining classes of the table are numbered.  Instances carry no data:
    two buildings are equal when their classes are, and a building is equal
    to nothing that is not a building. *)
Inductive Building : Type :=
  | Assimilator
  | Nexus
  | Other (k : nat).

(** Modelled from the spec: the enumeration [Worker] of [data_types.py]; its
    members are numbered from [1] ([Worker(worker + 1)] in [Env.main]). *)
Inductive Worker : Type := W (id : nat).

(** Modelled from the spec: [Coord], a pair of integers. *)
Definition Coord : Type := Z * Z.

(** Keys of the [positions] dictionary: [Union\[Resource, Worker\]]. *)
Inductive Obj : Type :=
  | OResource (r : Resource)
  | OWorker (w : Worker).

(** Modelled from the spec: [Assignment] of [data_types.py].  An assignment
    is a resource to gather (the enumeration [Resource] is itself an
    assignment, see [initial_assignment]) or a [BuildOrder] with its
    [location]. *)
Inductive Assignment : Type :=
  | Gather (r : Resource)
  | BuildOrder (building : Building) (location : Coord).

(** Modelled from the spec: what [assignment.action] may return, a
    [Movement] (a dataclass of two integers, the delta), a [Building], or an
    object of another type, which [state_generator] rejects. *)
Inductive WorkerAction : Type :=
  | Movement (delta : Coord)
  | Build (b : Building)
  | Unrecognised.

(** Modelled from the spec: the dataclass [Line]. *)
Record Line : Type := mkLine { required : bool; building : Building }.

Global Instance Resource_eq_dec : EqDecision Resource.
Proof. solve_decision. Defined.
Global Instance Building_eq_dec : EqDecision Building.
Proof. solve_decision. Defined.
Global Instance Worker_eq_dec : EqDecision Worker.
Proof. solve_decision. Defined.
Global Instance Obj_eq_dec : EqDecision Obj.
Proof. solve_decision. Defined.
Global Instance Assignment_eq_dec : EqDecision Assignment.
Proof. solve_decision. Defined.
Global Instance WorkerAction_eq_dec : EqDecision WorkerAction.
Proof. solve_decision. Defined.
Global Instance Line_eq_dec : EqDecision Line.
Proof. solve_decision. Defined.

Definition Resource_code (r : Resource) : nat :=
  match r with MINERALS => 0 | GAS => 1 end.
Definition Resource_decode (n : nat) : Resource :=
  match n with 0 => MINERALS | _ => GAS end.
Global Instance Resource_countable : Countable Resource.
Proof.
  apply (inj_countable' Resource_code Resource_decode). by intros [].
Defined.

Definition Building_code (b : Building) : nat :=
  match b with Assimilator => 0 | Nexus => 1 | Other k => S (S k) end.
Definition Building_decode (n : nat) : Building :=
  match n with 0 => Assimilator | 1 => Nexus | S (S k) => Other k end.
Global Instance Building_countable : Countable Building.
Proof.
  apply (inj_countable' Building_code Building_decode). by intros [].
Defined.

(** [for resource in Resource] *)
Definition Resources : list Resource := [MINERALS; GAS].

(** ** Counters *)

Abbreviation Counter := gmultiset.

(** [bool(c)] *)
Definition counter_bool `{Countable A} (c : Counter A) : bool :=
  bool_decide (c ≠ ∅).

(** [Counter(iterable)] *)
Definition counter_of `{Countable A} (l : list A) : Counter A :=
  list_to_set_disj l.

(** ** The pseudo-random generator

    [self.random] is a tape of raw draws; a call takes the head of the tape.
    A tape that has run out keeps answering [0]. *)

Definition Rng : Type := list N.

Definition next (g : Rng) : N * Rng :=
  match g with
  | [] => (0%N, [])
  | x :: g' => (x, g')
  end.

(** [random.choice(n)] for [0 < n]: an index below [n]. *)
Definition choice_below (n : nat) (g : Rng) : nat * Rng :=
  let (x, g') := next g in (N.to_nat (x mod N.of_nat n), g').

(** [random.random()]: a double in [\[0, 1)], of the form [m / 2^53]. *)
Definition random (g : Rng) : Q * Rng :=
  let (x, g') := next g in (Z.of_N (x mod 2 ^ 53) # 2 ^ 53, g').

(** [random.random(n)] *)
Fixpoint random_n (n : nat) (g : Rng) : list Q * Rng :=
  match n with
  | 0 => ([], g)
  | S n' =>
      let (u, g1) := random g in
      let (us, g2) := random_n n' g1 in
      (u :: us, g2)
  end.

(** [random.shuffle(l)]: every element of the pool is drawn once, at an index
    taken from the tape. *)
Fixpoint shuffle_from {A : Type} (n : nat) (pool : list A) (g : Rng)
  : list A * Rng :=
  match n with
  | 0 => ([], g)
  | S n' =>
      let (k, g1) := choice_below (length pool) g in
      match pool !! k with
      | None => ([], g1)
      | Some a =>
          let (rest, g2) := shuffle_from n' (delete k pool) g1 in
          (a :: rest, g2)
      end
  end.

Definition shuffle {A : Type} (l : list A) (g : Rng) : list A * Rng :=
  shuffle_from (length l) l g.

(** [u < p] on doubles, read as rationals. *)
Definition Qltb (u p : Q) : bool := negb (Qle_bool p u).

(** [np.round]: to the nearest integer, halves to the even neighbour. *)
Definition round_half_even (q : Q) : Z :=
  let n := Qnum q in
  let d := Z.pos (Qden q) in
  let fl := (n / d)%Z in
  match (2 * (n mod d) ?= d)%Z with
  | Lt => fl
  | Gt => (fl + 1)%Z
  | Eq => if Z.even fl then fl else (fl + 1)%Z
  end.

(** ** Configuration *)

(** Modelled from the spec: [CurriculumSetting] of [data_types.py], read-only
    here.  The sampler [n_lines_space] is left out: the value it returns is
    an argument of [build_lines]. *)
Record CurriculumSetting : Type := {
  max_lines : Z;
  max_build_tree_depth : Z;
  level : Z;
}.

(** The fields of [Env] that the simulation reads, with the tables of
    [data_types.py] it depends on. *)
Record Env : Type := {
  assimilator_prob : Q;
  destroy_building_prob : Q;
  eval_steps : Z;
  num_initial_buildings : nat;
  time_per_line : Z;
  evaluating : bool;
  curriculum_setting : CurriculumSetting;
  (* data_types.py *)
  WORLD_SIZE : nat;
  Buildings : list Building;
  Workers : list Worker;
  cost : Building -> Counter Resource;
  (* frames that the interpreter leaves to the generators of build_lines *)
  recursion_limit : nat;
}.

(** ** Dependencies and instruction lines *)

Abbreviation Dependencies := (Dict.t Building (option Building)).

(** [itertools.zip_longest(buildings, dependencies)], for a second list that
    is not longer than the first; the missing entries are [None]. *)
Fixpoint zip_longest {A B : Type} (l : list A) (k : list (option B))
  : list (A * option B) :=
  match l with
  | [] => []
  | a :: l' =>
      match k with
      | [] => (a, None) :: zip_longest l' []
      | b :: k' => (a, b) :: zip_longest l' k'
      end
  end.

(** Rounding to a double.  [k / 2^53], for an integer [0 <= k], is a
    double as it stands when [k] has at most 53 bits; a longer [k] loses
    its low bits, to the nearest significand of 53 bits, halves going to
    the even one.  The result is again a numerator over [2^53]. *)
Definition double_round (k : Z) : Z :=
  if (k <? 2 ^ 53)%Z then k else
  let e := (Z.log2 k - 52)%Z in
  let q := (k / 2 ^ e)%Z in
  let r := (k mod 2 ^ e)%Z in
  match (2 * r ?= 2 ^ e)%Z with
  | Lt => (q * 2 ^ e)%Z
  | Gt => ((q + 1) * 2 ^ e)%Z
  | Eq => if Z.even q then (q * 2 ^ e)%Z else ((q + 1) * 2 ^ e)%Z
  end.

(** [u * i] on doubles, for a draw [u = m / 2^53] and an index [i]: the
    product [m * i / 2^53], rounded to a double. *)
Definition double_mul (u : Q) (i : nat) : Q :=
  double_round (Qnum u * Z.of_nat i) # 2 ^ 53.

(** [np.round(random(n) * np.arange(n)) - 1] *)
Definition dependency_indices (us : list Q) : list Z :=
  imap (fun i u => (round_half_even (double_mul u i) - 1)%Z) us.

Definition build_dependencies (env : Env) (max_depth : Z) (g : Rng)
  : result (list (Building * option Building) * Rng) :=
  let buildings := filter (fun b => b ≠ Assimilator) (Buildings env) in
  let (buildings, g) := shuffle buildings g in
  let n := Z.min max_depth (Z.of_nat (length buildings)) in
  if (n <? 0)%Z then Raise ValueError else
  let (us, g) := random_n (Z.to_nat n) g in
  let* dependencies :=
    mapM (fun i : Z =>
            if (i <? 0)%Z then Ok None
            else let* b := or_raise IndexError (buildings !! Z.to_nat i) in
                 Ok (Some b))
         (dependency_indices us) in
  Ok ((Assimilator, None) :: zip_longest buildings dependencies, g).

(** [instructions_for] inside [build_lines]: the chain of prerequisites of a
    building, the building itself last. *)
Fixpoint instructions_for (dependencies : Dependencies) (depth : nat)
    (building : option Building) : result (list Building) :=
  match building with
  | None => Ok []
  | Some b =>
      match depth with
      | 0 => Raise RecursionError
      | S depth' =>
          let* d := or_raise KeyError (Dict.get dependencies b) in
          let* pre := instructions_for dependencies depth' d in
          Ok (pre ++ [b])
      end
  end.

(** [*first, last = inst] *)
Definition unpack_last {A : Type} (inst : list A) : result (list A * A) :=
  match reverse inst with
  | [] => Raise ValueError
  | last :: first => Ok (reverse first, last)
  end.

(** [random_instructions_under] inside [build_lines].  [fuel] bounds the
    number of draws of a building, over the retry loop and the recursion.
    [depth] is the number of frames that the interpreter still allows at
    this call: [instructions_for] recurses within it, a further turn of the
    retry loop stays in the same frame, and the recursive call, a generator
    nested by [yield from], is left with one frame less. *)
Fixpoint random_instructions_under (env : Env) (dependencies : Dependencies)
    (fuel depth : nat) (n : Z) (include_assimilator : bool) (g : Rng)
    {struct fuel} : result (list Line * Rng) :=
  if (n <? 0)%Z then Raise RuntimeError else
  if (n =? 0)%Z then Ok ([], g) else
  match fuel with
  | 0 => Raise OutOfFuel
  | S fuel' =>
      let candidates :=
        filter (fun b => include_assimilator = true \/ b ≠ Assimilator)
               (Buildings env) in
      if decide (candidates = []) then Raise ValueError else
      let (k, g) := choice_below (length candidates) g in
      let* building := or_raise IndexError (candidates !! k) in
      let* inst := instructions_for dependencies depth (Some building) in
      let* (first, last) := unpack_last inst in
      if (Z.of_nat (length inst) >? n)%Z then
        random_instructions_under env dependencies fuel' depth n
          include_assimilator g
      else
        let* (rest, g) :=
          random_instructions_under env dependencies fuel' (Nat.pred depth)
            (n - Z.of_nat (length inst))
            (include_assimilator && bool_decide (building ≠ Assimilator)) g in
        Ok (map (mkLine false) first ++ mkLine true last :: rest, g)
  end.

(** [required.count(Assimilator())] over the required lines *)
Definition required_buildings (instructions : list Line) : list Building :=
  building <$> filter (fun i => required i = true) instructions.

(** [build_lines]; [n_lines] is the value of
    [curriculum_setting.n_lines_space.sample()].  The generator is entered
    with the frames that the interpreter allows. *)
Definition build_lines (env : Env) (dependencies : Dependencies)
    (fuel : nat) (n_lines : Z) (g : Rng) : result (list Line * Rng) :=
  let* (instructions, g) :=
    random_instructions_under env dependencies fuel (recursion_limit env)
      n_lines true g in
  if decide (count_occ Building_eq_dec (required_buildings instructions)
               Assimilator <= 1)
  then Ok (instructions, g)
  else Raise AssertionError.

(** ** Placing the objects of an episode *)

Inductive WorldObject : Type :=
  | WBuilding (b : Building)
  | WObj (o : Obj).

Definition coord_add (p d : Coord) : Coord := (p.1 + d.1, p.2 + d.2)%Z.

(** [self.world_space.contains] *)
Definition world_space_contains (env : Env) (p : Coord) : bool :=
  bool_decide (0 <= p.1 <= Z.of_nat (WORLD_SIZE env) - 1
               /\ 0 <= p.2 <= Z.of_nat (WORLD_SIZE env) - 1)%Z.

Definition resource_offsets : list Coord :=
  [(1, 0); (-1, 0); (0, 1); (0, -1)]%Z.

(** [random.choice(world_size, size=(k, 2))] *)
Fixpoint choice_coords (world_size k : nat) (g : Rng) : list Coord * Rng :=
  match k with
  | 0 => ([], g)
  | S k' =>
      let (i, g) := choice_below world_size g in
      let (j, g) := choice_below world_size g in
      let (ps, g) := choice_coords world_size k' g in
      ((Z.of_nat i, Z.of_nat j) :: ps, g)
  end.

(** [random.choice(Buildings, size=k)] *)
Fixpoint choice_buildings (bs : list Building) (k : nat) (g : Rng)
  : result (list Building * Rng) :=
  match k with
  | 0 => Ok ([], g)
  | S k' =>
      let (i, g) := choice_below (length bs) g in
      let* b := or_raise ValueError (bs !! i) in
      let* (rest, g) := choice_buildings bs k' g in
      Ok (b :: rest, g)
  end.

(** The rejection loop at the end of [place_objects]. *)
Fixpoint initial_buildings (env : Env) (occupied : list Coord) (gas : Coord)
    (fuel : nat) (g : Rng) : result (list (WorldObject * Coord) * Rng) :=
  match fuel with
  | 0 => Raise OutOfFuel
  | S fuel' =>
      let (initial_pos, g) :=
        choice_coords (WORLD_SIZE env) (num_initial_buildings env) g in
      let initial_in_occupied :=
        existsb (fun p => bool_decide (p ∈ occupied)) initial_pos in
      if initial_in_occupied then
        initial_buildings env occupied gas fuel' g
      else
        let* (bs, g) :=
          choice_buildings (Buildings env) (num_initial_buildings env) g in
        Ok (map (fun bp : Building * Coord =>
                   (WBuilding bp.1,
                    if decide (bp.1 = Assimilator) then gas else bp.2))
                (zip bs initial_pos), g)
  end.

Definition place_objects (env : Env) (fuel : nat) (g : Rng)
  : result (list (WorldObject * Coord) * Rng) :=
  if decide (WORLD_SIZE env = 0) then Raise ValueError else
  let (ni, g) := choice_below (WORLD_SIZE env) g in
  let (nj, g) := choice_below (WORLD_SIZE env) g in
  let nexus : Coord := (Z.of_nat ni, Z.of_nat nj) in
  let resource_locations :=
    List.filter (world_space_contains env) (map (coord_add nexus) resource_offsets) in
  (* choice(len(resource_locations), size=2, replace=False) *)
  if decide (length resource_locations < 2) then Raise ValueError else
  let (m, g) := choice_below (length resource_locations) g in
  let (k, g) := choice_below (length resource_locations - 1) g in
  let* minerals := or_raise IndexError (resource_locations !! m) in
  let* gas := or_raise IndexError (delete m resource_locations !! k) in
  let (u, g) := random g in
  let assimilator :=
    if Qltb u (assimilator_prob env) then [(WBuilding Assimilator, gas)] else [] in
  let* (initial, g) := initial_buildings env [nexus; minerals; gas] gas fuel g in
  Ok ((WBuilding Nexus, nexus)
        :: map (fun w => (WObj (OWorker w), nexus)) (Workers env)
        ++ [(WObj (OResource MINERALS), minerals); (WObj (OResource GAS), gas)]
        ++ assimilator ++ initial, g).

(** ** The interfaces whose bodies are in [data_types.py] *)

(** Modelled from the spec: the method
    [assignment.action(current_position, positions, nexus_positions)] of
    [data_types.py], a pure function of its arguments. *)
Class AssignmentOps : Type := {
  assignment_action :
    Assignment -> Coord -> Dict.t Obj Coord -> list Coord -> WorkerAction;
}.

(** Modelled from the spec: [CompoundAction] of [data_types.py] over raw
    actions [Raw], with the empty action [compound_action()], [update],
    [is_op], and what a complete action carries. *)
Class CompoundActionOps (CA Raw : Type) : Type := {
  compound_action : CA;
  update : CA -> Raw -> CA;
  is_op : CA -> bool;
  worker : CA -> Worker;
  assignment : CA -> Assignment;
  ptr : CA -> Z;
}.

(** ** Admission of a construction and gathering *)

(** The values that meet in the membership tests of [building_allowed]:
    coordinates (tuples), buildings and [None].  Values of different kinds
    are never equal. *)
Inductive Value : Type :=
  | VCoord (c : Coord)
  | VBuilding (b : Building)
  | VNone.

Global Instance Value_eq_dec : EqDecision Value.
Proof. solve_decision. Defined.

Definition value_of_optional (d : option Building) : Value :=
  match d with
  | Some b => VBuilding b
  | None => VNone
  end.

Definition building_allowed (building : Building) (dependency : option Building)
    (building_positions : list Coord) (insufficient_resources : bool)
    (positions : Dict.t Obj Coord) (assignment_location : Coord) : result bool :=
  if insufficient_resources
     || bool_decide (assignment_location ∈ building_positions)
     || negb (bool_decide (value_of_optional dependency
                             ∈ (VCoord <$> building_positions) ++ [VNone]))
  then Ok false
  else if decide (building = Assimilator) then
    let* gas := or_raise KeyError (Dict.get positions (OResource GAS)) in
    Ok (bool_decide (assignment_location = gas))
  else
    let* gas := or_raise KeyError (Dict.get positions (OResource GAS)) in
    let* minerals := or_raise KeyError (Dict.get positions (OResource MINERALS)) in
    Ok (negb (bool_decide (assignment_location ∈ [gas; minerals]))).

Definition gathered_resource (building_positions : Dict.t Coord Building)
    (positions : Dict.t Obj Coord) (resource : Resource)
    (worker_position : Coord) : result bool :=
  let* p := or_raise KeyError (Dict.get positions (OResource resource)) in
  Ok (bool_decide (p = worker_position)
      && (bool_decide (resource ≠ GAS)
          || bool_decide (Dict.get building_positions worker_position
                          = Some Assimilator))).

Definition initial_assignment : Assignment := Gather MINERALS.

Fixpoint foldM {A B : Type} (f : B -> A -> result B) (l : list A) (b : B)
  : result B :=
  match l with
  | [] => Ok b
  | a :: l' => let* b' := f b a in foldM f l' b'
  end.

(** [sorted(items, key)] for a boolean key: the sort is stable, so the items
    with key [False] come first, each group in its former order. *)
Definition sorted_by_flag {A : Type} (key : A -> bool) (items : list A) : list A :=
  List.filter (fun x => negb (key x)) items ++ List.filter key items.

Definition is_build_order (a : Assignment) : bool :=
  match a with
  | BuildOrder _ _ => true
  | Gather _ => false
  end.

(** The comprehension behind [destroyed_buildings]: one draw per standing
    building, in dictionary order. *)
Fixpoint destroyed_buildings (p : Q) (items : list (Coord * Building)) (g : Rng)
  : list (Coord * Building) * Rng :=
  match items with
  | [] => ([], g)
  | (c, b) :: rest =>
      let (u, g) := random g in
      let (ds, g) := destroyed_buildings p rest g in
      (if Qltb u p && bool_decide (b ≠ Nexus) then (c, b) :: ds else ds, g)
  end.

(** ** The turn simulator and the episode pipeline *)

Section Simulation.
Context {CA Raw : Type} `{decoder : !CompoundActionOps CA Raw}
  `{resolver : !AssignmentOps}.
Context (env : Env).

(** The dataclass [State]. *)
Record State : Type := mkState {
  building_positions : Dict.t Coord Building;
  next_action : Dict.t Worker WorkerAction;
  positions : Dict.t Obj Coord;
  resources : Counter Resource;
  success : bool;
  pointer : Z;
  action : CA;
  time_remaining : Z;
}.

(** The local variables of a suspended [state_generator]. *)
Record Frame : Type := mkFrame {
  f_dependencies : Dependencies;
  f_building_positions : Dict.t Coord Building;
  f_positions : Dict.t Obj Coord;
  f_assignments : Dict.t Worker Assignment;
  f_next_actions : Dict.t Worker WorkerAction;
  f_required : Counter Building;
  f_resources : Counter Resource;
  f_ptr : Z;
  f_action : CA;
  f_time_remaining : Z;
  f_nexus_positions : list Coord;
}.

Definition set_positions (fr : Frame) (ps : Dict.t Obj Coord) : Frame :=
  mkFrame (f_dependencies fr) (f_building_positions fr) ps (f_assignments fr)
    (f_next_actions fr) (f_required fr) (f_resources fr) (f_ptr fr)
    (f_action fr) (f_time_remaining fr) (f_nexus_positions fr).

Definition set_resources (fr : Frame) (rs : Counter Resource) : Frame :=
  mkFrame (f_dependencies fr) (f_building_positions fr) (f_positions fr)
    (f_assignments fr) (f_next_actions fr) (f_required fr) rs (f_ptr fr)
    (f_action fr) (f_time_remaining fr) (f_nexus_positions fr).

Definition set_building_positions (fr : Frame) (bp : Dict.t Coord Building)
  : Frame :=
  mkFrame (f_dependencies fr) bp (f_positions fr) (f_assignments fr)
    (f_next_actions fr) (f_required fr) (f_resources fr) (f_ptr fr)
    (f_action fr) (f_time_remaining fr) (f_nexus_positions fr).

(** The body of the loop over the workers, for one worker. *)
Definition resolve_worker (fr : Frame) (wa : Worker * Assignment)
  : result Frame :=
  let worker_id := wa.1 in
  let assignment := wa.2 in
  let* worker_position :=
    or_raise KeyError (Dict.get (f_positions fr) (OWorker worker_id)) in
  match assignment_action assignment worker_position (f_positions fr)
          (f_nexus_positions fr) with
  | Movement delta =>
      let new_position := coord_add worker_position delta in
      let fr := set_positions fr
                  (Dict.set (f_positions fr) (OWorker worker_id) new_position) in
      if decide (Dict.get (f_building_positions fr) new_position = Some Nexus)
      then
        let* rs :=
          foldM (fun rs resource =>
                   let* gathered :=
                     gathered_resource (f_building_positions fr)
                       (f_positions fr) resource worker_position in
                   Ok (if gathered then rs ⊎ {[+ resource +]} else rs))
                Resources (f_resources fr) in
        Ok (set_resources fr rs)
      else Ok fr
  | Build building =>
      let insufficient_resources :=
        counter_bool (cost env building ∖ f_resources fr) in
      let* dependency :=
        or_raise KeyError (Dict.get (f_dependencies fr) building) in
      let* location :=
        match assignment with
        | BuildOrder _ location => Ok location
        | Gather _ => Raise AttributeError
        end in
      let* allowed :=
        building_allowed building dependency
          (Dict.keys (f_building_positions fr)) insufficient_resources
          (f_positions fr) location in
      if allowed then
        Ok (set_resources
              (set_building_positions fr
                 (Dict.set (f_building_positions fr) worker_position building))
              (f_resources fr ∖ cost env building))
      else Ok fr
  | Unrecognised => Raise RuntimeError
  end.

(** From the [yield] to the end of the loop body: the action received is
    applied and every worker resolved, gatherers first. *)
Definition resume (fr : Frame) (a : CA) : result Frame :=
  let fr :=
    mkFrame (f_dependencies fr) (f_building_positions fr) (f_positions fr)
      (Dict.set (f_assignments fr) (worker a) (assignment a))
      (f_next_actions fr) (f_required fr) (f_resources fr) (ptr a) a
      (f_time_remaining fr - 1)%Z (f_nexus_positions fr) in
  foldM resolve_worker
    (sorted_by_flag (fun wa => is_build_order wa.2) (f_assignments fr)) fr.

(** From the head of the loop to the [yield]: destruction, the success
    flag, the [State], the Nexus positions and the queued actions.  The
    [State] shares its dictionaries with the generator, so it is read here
    as it stands when it is handed out. *)
Definition emit (fr : Frame) (g : Rng) : result (State * Frame * Rng) :=
  let (destroyed, g) :=
    destroyed_buildings (destroy_building_prob env) (f_building_positions fr) g in
  let building_positions :=
    foldl Dict.del (f_building_positions fr) destroyed.*1 in
  let success :=
    negb (counter_bool
            (f_required fr ∖ counter_of (Dict.values building_positions))) in
  let nexus_positions :=
    (List.filter (fun pb => bool_decide (pb.2 = Nexus)) building_positions).*1 in
  if decide (nexus_positions = []) then Raise AssertionError else
  let* next_actions :=
    foldM (fun (na : Dict.t Worker WorkerAction) (wa : Worker * Assignment) =>
             let* p := or_raise KeyError
                         (Dict.get (f_positions fr) (OWorker wa.1)) in
             Ok (Dict.set na wa.1
                   (assignment_action wa.2 p (f_positions fr) nexus_positions)))
          (f_assignments fr) (f_next_actions fr) in
  Ok (mkState building_positions next_actions (f_positions fr)
        (f_resources fr) success (f_ptr fr) (f_action fr)
        (f_time_remaining fr),
      mkFrame (f_dependencies fr) building_positions (f_positions fr)
        (f_assignments fr) next_actions (f_required fr) (f_resources fr)
        (f_ptr fr) (f_action fr) (f_time_remaining fr) nexus_positions,
      g).

(** [state_generator] up to its loop. *)
Definition state_generator_init (lines : list Line)
    (dependencies : Dependencies) (fuel : nat) (g : Rng)
  : result (Frame * Rng) :=
  let* (placed, g) := place_objects env fuel g in
  let building_positions : Dict.t Coord Building :=
    Dict.of_list
      (omap (fun op : WorldObject * Coord =>
               match op.1 with
               | WBuilding b => Some (op.2, b)
               | WObj _ => None
               end) placed) in
  let positions : Dict.t Obj Coord :=
    Dict.of_list
      (omap (fun op : WorldObject * Coord =>
               match op.1 with
               | WObj o => Some (o, op.2)
               | WBuilding _ => None
               end) placed) in
  let assignments : Dict.t Worker Assignment :=
    Dict.of_list (map (fun w => (w, initial_assignment)) (Workers env)) in
  let time_remaining :=
    if evaluating env then (eval_steps env - 1)%Z
    else ((1 + Z.of_nat (length lines)) * time_per_line env)%Z in
  Ok (mkFrame dependencies building_positions positions assignments []
        (counter_of (required_buildings lines)) ∅ 0%Z compound_action
        time_remaining [], g).

(** [done_generator]: [state.success or not state.time_remaining] *)
Definition done_generator (state : State) : bool :=
  success state || bool_decide (time_remaining state = 0%Z).

(** What [info_generator] records when the episode is over. *)
Record Info : Type := mkInfo {
  info_success : bool;
  info_len_instruction : nat;
  info_curriculum_success : Z;
}.

(** [info_generator].  In evaluation mode a finished episode first asserts
    [info\["success"\] <= info\["train_time_success"\]], where the latter is
    [float(state.success and state.time_remaining)], and then reads
    [info\["normalized_elapsed_time"\]], a key that nothing sets. *)
Definition info_generator (lines : list Line) (state : State) (done : bool)
  : result (option Info) :=
  if done then
    let info :=
      mkInfo (success state) (length lines)
        (level (curriculum_setting env) + (if success state then 1 else 0))%Z in
    if evaluating env then
      if success state && negb (bool_decide (1 <= time_remaining state)%Z)
      then Raise AssertionError
      else Raise KeyError
    else Ok (Some info)
  else Ok None.

(** The tuple [s, r, t, i] of a step.  The observation [s] is an encoding
    of the state by [obs_generator], which reads tables of [data_types.py];
    the state stands for it.  The debugger hook [break_on_fail] is left
    out. *)
Record Step : Type := mkStep {
  observation : State;
  reward : Q;
  done : bool;
  info : option Info;
}.

(** The local variables of a suspended [srti_generator]. *)
Record Srti : Type := mkSrti {
  r_lines : list Line;
  r_frame : Frame;
  r_state : State;
  r_action : CA;
}.

Definition replace_action (state : State) (a : CA) : State :=
  mkState (building_positions state) (next_action state) (positions state)
    (resources state) (success state) (pointer state) a (time_remaining state).

Definition replace_time_remaining (state : State) (tr : Z) : State :=
  mkState (building_positions state) (next_action state) (positions state)
    (resources state) (success state) (pointer state) (action state) tr.

(** The head of the loop of [srti_generator], up to its [yield]. *)
Definition srti_outputs (sr : Srti) : result Step :=
  let t := done_generator (r_state sr) in
  let* i := info_generator (r_lines sr) (r_state sr) t in
  Ok (mkStep (r_state sr) (-1 # 10) t i).

(** [failure_buffer_wrapper] sits between [srti_generator] and [step].  With
    the failure buffer switched off, as it is in the source, it hands the
    tuple on; the keys it adds to [info] and the running average
    [success_avg] are not part of this model. *)

(** [reset]: [srti_generator] up to its first [yield]. *)
Definition reset (fuel : nat) (n_lines : Z) (g : Rng)
  : result (Srti * Step * Rng) :=
  let* (pairs, g) :=
    build_dependencies env (max_build_tree_depth (curriculum_setting env)) g in
  let dependencies := Dict.of_list pairs in
  let* (lines, g) := build_lines env dependencies fuel n_lines g in
  let* (fr, g) := state_generator_init lines dependencies fuel g in
  let* (state_fr, g) := emit fr g in
  let sr := mkSrti lines state_fr.2 state_fr.1 compound_action in
  let* out := srti_outputs sr in
  Ok (sr, out, g).

(** [step]: [srti_generator] from one [yield] to the next. *)
Definition step (sr : Srti) (a : Raw) (g : Rng) : result (Srti * Step * Rng) :=
  let action := update (r_action sr) a in
  let state := replace_action (r_state sr) action in
  let* (sr, g) :=
    if is_op action then
      let* fr := resume (r_frame sr) action in
      let* (state_fr, g) := emit fr g in
      Ok (mkSrti (r_lines sr) state_fr.2 state_fr.1 action, g)
    else if evaluating env then
      Ok (mkSrti (r_lines sr) (r_frame sr)
            (replace_time_remaining state (time_remaining state - 1)%Z)
            action, g)
    else Ok (mkSrti (r_lines sr) (r_frame sr) state action, g) in
  let* out := srti_outputs sr in
  Ok (sr, out, g).

(** The states that [state_generator] yields when it is sent the complete
    actions [acts], from a frame suspended at its [yield]. *)
Fixpoint ticks (fr : Frame) (acts : list CA) (g : Rng) : result (list State) :=
  match acts with
  | [] => Ok []
  | a :: acts' =>
      let* fr := resume fr a in
      let* (state_fr, g) := emit fr g in
      let* rest := ticks state_fr.2 acts' g in
      Ok (state_fr.1 :: rest)
  end.

Definition state_generator (lines : list Line) (dependencies : Dependencies)
    (fuel : nat) (acts : list CA) (g : Rng) : result (list State) :=
  let* (fr, g) := state_generator_init lines dependencies fuel g in
  let* (state_fr, g) := emit fr g in
  let* rest := ticks state_fr.2 acts g in
  Ok (state_fr.1 :: rest).

(** The tuples that successive calls of [step] return. *)
Fixpoint steps (sr : Srti) (raws : list Raw) (g : Rng) : result (list Step) :=
  match raws with
  | [] => Ok []
  | a :: raws' =>
      let* (sr_out, g) := step sr a g in
      let* rest := steps sr_out.1 raws' g in
      Ok (sr_out.2 :: rest)
  end.

(** [reset] followed by one [step] per raw action. *)
Definition episode (fuel : nat) (n_lines : Z) (raws : list Raw) (g : Rng)
  : result (list Step) :=
  let* (sr_out, g) := reset fuel n_lines g in
  let* rest := steps sr_out.1 raws g in
  Ok (sr_out.2 :: rest).

End Simulation.

Arguments State CA : clear implicits.
Arguments Frame CA : clear implicits.
Arguments Step CA : clear implicits.
Arguments Srti CA : clear implicits.

(** ** A resolver and a decoder after the specification

    The theorems below hold for every instance of the two interfaces (some
    under a stated hypothesis on the resolver).  The instances of this module
    serve to run the simulator on concrete inputs. *)

Module SpecModel.

(** Modelled from the spec: a movement is one axis-aligned step from [p]
    towards [q]. *)
Definition step_toward (p q : Coord) : Coord :=
  if decide (p.1 < q.1)%Z then (1, 0)%Z
  else if decide (q.1 < p.1)%Z then (-1, 0)%Z
  else if decide (p.2 < q.2)%Z then (0, 1)%Z
  else if decide (q.2 < p.2)%Z then (0, -1)%Z
  else (0, 0)%Z.

(** Modelled from the spec: the distance of a direct Manhattan approach. *)
Definition manhattan (p q : Coord) : Z :=
  (Z.abs (p.1 - q.1) + Z.abs (p.2 - q.2))%Z.

(** Modelled from the spec: the nearest Nexus. *)
Fixpoint nearest (p : Coord) (qs : list Coord) : option Coord :=
  match qs with
  | [] => None
  | q :: qs' =>
      match nearest p qs' with
      | Some q' => if decide (manhattan p q' < manhattan p q)%Z
                   then Some q' else Some q
      | None => Some q
      end
  end.

(** Modelled from the spec: [Assignment.action] of [data_types.py], which is
    missing from the sources.  A gather assignment walks to the resource
    and, once on it, to the nearest Nexus; a construct assignment yields
    its building when the worker stands on the target location and a
    movement towards it otherwise; a movement is one axis-aligned step. *)
Definition action (a : Assignment) (current_position : Coord)
    (positions : Dict.t Obj Coord) (nexus_positions : list Coord)
  : WorkerAction :=
  match a with
  | Gather rsc =>
      match Dict.get positions (OResource rsc) with
      | None => Unrecognised
      | Some target =>
          if decide (current_position = target) then
            match nearest current_position nexus_positions with
            | Some nexus => Movement (step_toward current_position nexus)
            | None => Movement (0, 0)%Z
            end
          else Movement (step_toward current_position target)
      end
  | BuildOrder b location =>
      if decide (current_position = location) then Build b
      else Movement (step_toward current_position location)
  end.

(** Modelled from the spec: the resolver as an instance. *)
Global Instance assignment_ops : AssignmentOps :=
  {| assignment_action := action |}.

(** Modelled from the spec: [RawAction], with the fields that
    [Env.__post_init__] names. *)
Record RawAction : Type := mkRaw {
  delta : Z;
  dg : Z;
  a : Z;
  raw_ptr : Z;
}.

(** Modelled from the spec: [CompoundAction] of [data_types.py], which is
    missing from the sources.  A compound action is assembled from a
    worker-and-target choice followed, when the target is a building, by a
    choice of coordinates; it is complete once it determines a worker and
    an assignment.  The component [a] of the raw action carries the choice:
    for the first stage a worker number and a target number (targets [0]
    and [1] are the resources, target [2 + k] is the [k]-th building of the
    table), for the second stage a tile number on a grid of side [side]. *)
Inductive CompoundAction : Type :=
  | Empty
  | WorkerTarget (w : Worker) (b : Building) (p : Z)
  | Complete (w : Worker) (asg : Assignment) (p : Z).

(** Modelled from the spec: the building targets, in the order of the
    variant [Building]. *)
Definition building_of_target (k : nat) : Building :=
  match k with
  | 0 => Assimilator
  | 1 => Nexus
  | S (S k') => Other k'
  end.

(** Modelled from the spec: the worker-and-target stage.  A resource target
    completes the action at once. *)
Definition first_stage (n_workers : Z) (raw : RawAction) : CompoundAction :=
  let w := W (S (Z.to_nat (a raw mod n_workers))) in
  let target := Z.to_nat (a raw / n_workers) in
  match target with
  | 0 => Complete w (Gather MINERALS) (raw_ptr raw)
  | 1 => Complete w (Gather GAS) (raw_ptr raw)
  | S (S k) => WorkerTarget w (building_of_target k) (raw_ptr raw)
  end.

(** Modelled from the spec: [update], which folds one raw action in. *)
Definition decode (n_workers side : Z) (c : CompoundAction) (raw : RawAction)
  : CompoundAction :=
  match c with
  | WorkerTarget w b _ =>
      Complete w (BuildOrder b (a raw / side, a raw mod side)%Z) (raw_ptr raw)
  | Empty | Complete _ _ _ => first_stage n_workers raw
  end.

(** Modelled from the spec: [is_op]. *)
Definition complete (c : CompoundAction) : bool :=
  match c with
  | Complete _ _ _ => true
  | _ => false
  end.

(** Modelled from the spec: the decoder as an instance, for two workers on a
    grid of side four. *)
Global Instance compound_action_ops : CompoundActionOps CompoundAction RawAction :=
  {| compound_action := Empty;
     update := decode 2 4;
     is_op := complete;
     worker c := match c with
                 | Complete w _ _ | WorkerTarget w _ _ => w
                 | Empty => W 1
                 end;
     assignment c := match c with
                     | Complete _ asg _ => asg
                     | _ => Gather MINERALS
                     end;
     ptr c := match c with
              | Complete _ _ p | WorkerTarget _ _ p => p
              | Empty => 0%Z
              end |}.

End SpecModel.


(** ** Concrete worlds

    A four-by-four grid with two workers and four building classes.  The
    dependency map makes the second numbered building depend on the first;
    it is the map that [build_dependencies] draws from [forest_tape]. *)

Module Scenario.
Import SpecModel.

Definition table : list Building := [Assimilator; Nexus; Other 0; Other 1].

Definition price (b : Building) : Counter Resource :=
  match b with
  | Assimilator => {[+ MINERALS +]}
  | Nexus => ∅
  | Other 0 => {[+ MINERALS +]}
  | Other _ => {[+ MINERALS; GAS +]}
  end.

Definition curriculum : CurriculumSetting :=
  {| max_lines := 5; max_build_tree_depth := 3; level := 0 |}.

Definition training : Env :=
  {| assimilator_prob := 0;
     destroy_building_prob := 0;
     eval_steps := 2;
     num_initial_buildings := 0;
     time_per_line := 2;
     evaluating := false;
     curriculum_setting := curriculum;
     WORLD_SIZE := 4;
     Buildings := table;
     Workers := [W 1; W 2];
     cost := price;
     recursion_limit := 50 |}.

(** [training] with one building placed at the start. *)
Definition seeded : Env :=
  {| assimilator_prob := 0;
     destroy_building_prob := 0;
     eval_steps := 2;
     num_initial_buildings := 1;
     time_per_line := 2;
     evaluating := false;
     curriculum_setting := curriculum;
     WORLD_SIZE := 4;
     Buildings := table;
     Workers := [W 1; W 2];
     cost := price;
     recursion_limit := 50 |}.

(** Evaluation mode with a budget of [steps] evaluation steps. *)
Definition evaluation_for (steps : Z) : Env :=
  {| assimilator_prob := 0;
     destroy_building_prob := 0;
     eval_steps := steps;
     num_initial_buildings := 0;
     time_per_line := 2;
     evaluating := true;
     curriculum_setting := curriculum;
     WORLD_SIZE := 4;
     Buildings := table;
     Workers := [W 1; W 2];
     cost := price;
     recursion_limit := 50 |}.

Definition evaluation : Env := evaluation_for 2.

Definition dependencies : Dependencies :=
  [(Assimilator, None); (Nexus, None); (Other 0, None);
   (Other 1, Some (Other 0))].

(** Nexus at [(1, 1)], minerals to its left, gas to its right. *)
Definition nexus_tile : Coord := (1, 1)%Z.
Definition minerals_tile : Coord := (0, 1)%Z.
Definition gas_tile : Coord := (2, 1)%Z.

Definition objects (w1 w2 : Coord) : Dict.t Obj Coord :=
  [(OWorker (W 1), w1); (OWorker (W 2), w2);
   (OResource MINERALS, minerals_tile); (OResource GAS, gas_tile)].

Definition frame (bp : Dict.t Coord Building) (w1 w2 : Coord)
    (a1 a2 : Assignment) (req : list Building) (rs : Counter Resource)
    (tr : Z) : Frame CompoundAction :=
  mkFrame dependencies bp (objects w1 w2) [(W 1, a1); (W 2, a2)] []
    (counter_of req) rs 0%Z Empty tr [nexus_tile].

(** The first numbered building stands, the resources cover the cost of
    the second one, and worker 1 stands on the free tile [(2, 2)] with the
    order to build the second one there. *)
Definition dependent_order : Frame CompoundAction :=
  frame [(nexus_tile, Nexus); ((3, 3)%Z, Other 0)] (2, 2)%Z nexus_tile
    (BuildOrder (Other 1) (2, 2)%Z) (Gather MINERALS) [Other 1]
    {[+ MINERALS; MINERALS; GAS +]} 6.

(** An Assimilator stands on the gas tile, and worker 1 stands there with
    the order to build another one. *)
Definition second_assimilator : Frame CompoundAction :=
  frame [(nexus_tile, Nexus); (gas_tile, Assimilator)] gas_tile nexus_tile
    (BuildOrder Assimilator gas_tile) (Gather MINERALS) [Assimilator]
    {[+ MINERALS; MINERALS +]} 6.

(** No Assimilator yet; worker 1 stands on the gas tile with the order to
    build one, and there are minerals for it. *)
Definition first_assimilator : Frame CompoundAction :=
  frame [(nexus_tile, Nexus)] gas_tile nexus_tile
    (BuildOrder Assimilator gas_tile) (Gather MINERALS) [Assimilator]
    {[+ MINERALS; MINERALS +]} 6.

(** Worker 1 stands on the minerals tile and has been told to gather gas;
    its way to the gas tile leads over the Nexus. *)
Definition reassigned_gatherer : Frame CompoundAction :=
  frame [(nexus_tile, Nexus)] minerals_tile nexus_tile
    (Gather GAS) (Gather MINERALS) [Other 0] ∅ 6.

(** Worker 1 stands on the gas tile with the order to build the first
    numbered building there. *)
Definition order_on_gas : Frame CompoundAction :=
  frame [(nexus_tile, Nexus)] gas_tile nexus_tile
    (BuildOrder (Other 0) gas_tile) (Gather MINERALS) [Other 0]
    {[+ MINERALS +]} 6.

(** The Nexus is required and stands. *)
Definition nexus_required : Frame CompoundAction :=
  frame [(nexus_tile, Nexus)] nexus_tile nexus_tile
    (Gather MINERALS) (Gather MINERALS) [Nexus] ∅ 6.

(** Raw actions: worker 1 gathers minerals (complete at once); worker 1
    picks the first numbered building (incomplete until a tile follows). *)
Definition gather_minerals : RawAction := mkRaw 0 0 0 0.
Definition pick_building : RawAction := mkRaw 0 0 8 0.

(** Worker 1 picks the second numbered building, then the tile [(1, 2)];
    worker 2 gathers minerals. *)
Definition pick_dependent : RawAction := mkRaw 0 0 10 1.
Definition pick_tile : RawAction := mkRaw 0 0 6 1.
Definition other_gathers : RawAction := mkRaw 0 0 1 1.

(** Complete actions, as [state_generator] receives them. *)
Definition send_minerals : CompoundAction := Complete (W 1) (Gather MINERALS) 0.
Definition send_gas : CompoundAction := Complete (W 2) (Gather GAS) 0.

(** The draws of [build_dependencies]: three for the shuffle, three
    doubles, the last one just below [1]. *)
Definition forest_tape : Rng := [0; 0; 0; 0; 0; 9007199254740991]%N.

(** The draws of an episode: those of [forest_tape], the building of the
    one line, the Nexus tile, the two resource tiles, and zeros. *)
Definition episode_tape : Rng :=
  forest_tape ++ [2; 1; 1; 1; 0; 0; 0; 0; 0; 0; 0; 0]%N.

(** The draws of an episode of [seeded]: those of [forest_tape], the second
    numbered building for the lines, the Nexus tile, the two resource tiles,
    the double for the Assimilator, the tile [(3, 3)] and the first numbered
    building for the initial placement, and zeros. *)
Definition seeded_tape : Rng :=
  forest_tape ++ [3; 1; 1; 1; 0; 0; 3; 3; 2]%N.
End Scenario.

(** ** Vocabulary of the statements *)

(** A double drawn by [random]: [m / 2^53] with [0 <= m < 2^53]. *)
Definition unit_draw (u : Q) : Prop :=
  Qden u = (2 ^ 53)%positive /\ (0 <= Qnum u < 2 ^ 53)%Z.

(** Modelled from the spec: the resolver, whose body is in [data_types.py],
    hands out the building of a construct assignment only to a worker that
    stands on the target location (section 4.2 of the specification: the
    building "if standing at the target location, else a Movement toward
    it").  [state_generator] tests the target location and
    then builds on the tile of the worker; under this hypothesis the two are
    the same tile. *)
Definition builds_in_place `{!AssignmentOps} : Prop :=
  forall b location p ps nexus_positions b',
    assignment_action (BuildOrder b location) p ps nexus_positions = Build b' ->
    p = location.

(** The admission test that [state_generator] runs for a construction
    attempt of [building] at the target [location]: [building_allowed] on the
    arguments that the loop passes. *)
Definition construction_admitted {CA : Type} (env : Env) (fr : Frame CA)
    (building : Building) (location : Coord) : result bool :=
  let insufficient_resources :=
    counter_bool (cost env building ∖ f_resources fr) in
  let* dependency := or_raise KeyError (Dict.get (f_dependencies fr) building) in
  building_allowed building dependency (Dict.keys (f_building_positions fr))
    insufficient_resources (f_positions fr) location.

(** The frame after a construction that was admitted. *)
Definition constructed {CA : Type} (env : Env) (fr : Frame CA)
    (worker_position : Coord) (building : Building) : Frame CA :=
  set_resources
    (set_building_positions fr
       (Dict.set (f_building_positions fr) worker_position building))
    (f_resources fr ∖ cost env building).

(** The part of the frame that resolving a worker never writes. *)
Definition same_control {CA : Type} (fr fr' : Frame CA) : Prop :=
  f_dependencies fr' = f_dependencies fr
  /\ f_assignments fr' = f_assignments fr
  /\ f_next_actions fr' = f_next_actions fr
  /\ f_required fr' = f_required fr
  /\ f_ptr fr' = f_ptr fr
  /\ f_action fr' = f_action fr
  /\ f_time_remaining fr' = f_time_remaining fr
  /\ f_nexus_positions fr' = f_nexus_positions fr.

(** The gathering loop of a movement that lands on a Nexus. *)
Definition gather_all (bp : Dict.t Coord Building) (ps : Dict.t Obj Coord)
    (worker_position : Coord) (rs : Counter Resource)
  : result (Counter Resource) :=
  foldM (fun rs resource =>
           let* gathered := gathered_resource bp ps resource worker_position in
           Ok (if gathered then rs ⊎ {[+ resource +]} else rs))
        Resources rs.

(** The buildings that stand when the state is handed out. *)
Definition after_destruction {CA : Type} (env : Env) (fr : Frame CA) (g : Rng)
  : Dict.t Coord Building :=
  foldl Dict.del (f_building_positions fr)
    (destroyed_buildings (destroy_building_prob env)
       (f_building_positions fr) g).1.*1.

(** A dictionary of buildings with a Nexus in it. *)
Definition nexus_standing (bp : Dict.t Coord Building) : Prop :=
  NoDup (Dict.keys bp) /\ exists p, Dict.get bp p = Some Nexus.

(** The buildings among the objects that [place_objects] yields, as
    [state_generator] collects them. *)
Definition buildings_of (placed : list (WorldObject * Coord))
  : list (Coord * Building) :=
  omap (fun op : WorldObject * Coord =>
          match op.1 with
          | WBuilding b => Some (op.2, b)
          | WObj _ => None
          end) placed.

(** The pairs that [build_dependencies] yields for a shuffled table and its
    list of dependencies. *)
Definition forest_pairs (shuffled : list Building) (deps : list (option Building))
  : list (Building * option Building) :=
  (Assimilator, None) :: zip_longest shuffled deps.

(** ** The instruction in the observation ([obs_generator])

    Of the observation, the entries that are computed without the tables of
    [data_types.py]: the padded lines, their mask and their encoding, and the
    resource counts. *)

(** [Buildings.index(b)]: the first position of [b], [ValueError] when [b]
    is not in the list. *)
Fixpoint index_of (bs : list Building) (b : Building) : result nat :=
  match bs with
  | [] => Raise ValueError
  | b' :: bs' =>
      if decide (b' = b) then Ok 0
      else let* i := index_of bs' b in Ok (S i)
  end.

(** [preprocess_line]: [\[0, 0\]] for the padding, else
    [\[int(line.required), Buildings.index(line.building)\]]. *)
Definition preprocess_line (env : Env) (line : option Line) : result (list nat) :=
  match line with
  | None => Ok [0; 0]
  | Some l =>
      let* i := index_of (Buildings env) (building l) in
      Ok [Nat.b2n (required l); i]
  end.

(** [\[*lines, *\[None\] * (max_lines - len(lines))\]]; a list times a
    negative number is empty. *)
Definition padded (env : Env) (lines : list Line) : list (option Line) :=
  (Some <$> lines)
  ++ replicate
       (Z.to_nat (max_lines (curriculum_setting env) - Z.of_nat (length lines)))
       None.

(** [line_mask]: [p is None] for every entry of [padded]. *)
Definition line_mask (env : Env) (lines : list Line) : list bool :=
  map (fun p : option Line => bool_decide (p = None)) (padded env lines).

(** [preprocessed]: [map(self.preprocess_line, padded)] *)
Definition preprocessed (env : Env) (lines : list Line) : result (list (list nat)) :=
  mapM (preprocess_line env) (padded env lines).

(** [list.remove(x)]: the first occurrence goes. *)
Fixpoint remove_first (b : Building) (l : list Building) : list Building :=
  match l with
  | [] => []
  | b' :: l' => if decide (b' = b) then l' else b' :: remove_first b l'
  end.

(** [lines_iterator] inside the [render] of [obs_generator]: the lines as
    they are printed, a required line keeping its star until a standing
    building has been found for it. *)
Fixpoint lines_iterator (buildings : list Building) (lines : list Line)
  : list Line :=
  match lines with
  | [] => []
  | l :: lines' =>
      let built := bool_decide (building l ∈ buildings) in
      mkLine (required l && negb built) (building l)
        :: lines_iterator
             (if built && required l then remove_first (building l) buildings
              else buildings)
             lines'
  end.

(** ** More vocabulary *)

(** Modelled from the spec: the contract of the resolver, whose body is in
    [data_types.py] (section 4.2 of the specification).  A gather assignment
    yields a movement whenever the resource has a position; a construct
    assignment yields its own building to a worker that stands on the target
    location, and a movement otherwise. *)
Definition resolver_contract `{!AssignmentOps} : Prop :=
  (forall rsc p ps nexus_positions,
      is_Some (Dict.get ps (OResource rsc)) ->
      exists delta,
        assignment_action (Gather rsc) p ps nexus_positions = Movement delta)
  /\ (forall b location p ps nexus_positions,
        (p = location
         /\ assignment_action (BuildOrder b location) p ps nexus_positions
            = Build b)
        \/ exists delta,
             assignment_action (BuildOrder b location) p ps nexus_positions
             = Movement delta).

(** A complete action that the simulator can resolve: its worker is one of
    the enumeration, and a building it orders has an entry in the
    dependency map. *)
Definition resolvable `{!CompoundActionOps CA Raw} (env : Env)
    (dependencies : Dependencies) (a : CA) : Prop :=
  worker a ∈ Workers env
  /\ forall b location,
       assignment a = BuildOrder b location -> b ∈ Dict.keys dependencies.

(** Two tiles side by side. *)
Definition adjacent (p q : Coord) : Prop :=
  (Z.abs (p.1 - q.1) + Z.abs (p.2 - q.2) = 1)%Z.

(** The lines follow the dependency map: a line whose building has a
    dependency comes right after the optional line of that dependency, and a
    line whose building has none starts the list or comes right after a
    required line. *)
Definition follows_dependencies (dependencies : Dependencies)
    (lines : list Line) : Prop :=
  forall i l, lines !! i = Some l ->
    match Dict.get dependencies (building l) with
    | Some (Some d) => exists j, i = S j /\ lines !! j = Some (mkLine false d)
    | Some None =>
        i = 0 \/ exists j l', i = S j /\ lines !! j = Some l' /\ required l' = true
    | None => False
    end.

(** The workers and resources among the objects that [place_objects]
    yields, as [state_generator] collects them. *)
Definition objects_of (placed : list (WorldObject * Coord))
  : list (Obj * Coord) :=
  omap (fun op : WorldObject * Coord =>
          match op.1 with
          | WObj o => Some (o, op.2)
          | WBuilding _ => None
          end) placed.

(** The keys of [positions] and the tiles of the resources are the same in
    two dictionaries. *)
Definition places_kept (ps ps' : Dict.t Obj Coord) : Prop :=
  Dict.keys ps' = Dict.keys ps
  /\ forall r, Dict.get ps' (OResource r) = Dict.get ps (OResource r).

(** The buildings respect the tiles of the resources: nothing stands on the
    minerals, and the buildings on the gas are the Assimilators. *)
Definition tiles_respected (ps : Dict.t Obj Coord)
    (bp : Dict.t Coord Building) : Prop :=
  exists minerals gas,
    Dict.get ps (OResource MINERALS) = Some minerals
    /\ Dict.get ps (OResource GAS) = Some gas
    /\ minerals ≠ gas
    /\ forall p b, Dict.get bp p = Some b ->
         p ≠ minerals /\ (b = Assimilator <-> p = gas).

(** What the loop of [state_generator] needs of its frame to go through a
    tick: the dependency map, a Nexus, the tiles of the resources, a
    position for every worker, and assignments of workers of the
    enumeration whose buildings the dependency map knows. *)
Definition ready {CA : Type} (env : Env) (deps : Dependencies)
    (fr : Frame CA) : Prop :=
  f_dependencies fr = deps
  /\ nexus_standing (f_building_positions fr)
  /\ (forall r, is_Some (Dict.get (f_positions fr) (OResource r)))
  /\ (forall w, w ∈ Workers env ->
        is_Some (Dict.get (f_positions fr) (OWorker w)))
  /\ (forall w asg, (w, asg) ∈ f_assignments fr ->
        w ∈ Workers env
        /\ forall b loc, asg = BuildOrder b loc -> b ∈ Dict.keys deps).

(** [nexus_positions]: the tiles of the standing Nexuses. *)
Definition nexus_tiles (bp : Dict.t Coord Building) : list Coord :=
  (List.filter (fun pb : Coord * Building => bool_decide (pb.2 = Nexus)) bp).*1.

(** The locals of [state_generator] once the action that was sent has been
    taken in: the pointer and the action are those of the action, the
    countdown has lost one unit, and the worker of the action has its new
    assignment.  The loop over the workers starts from here. *)
Definition received `{!CompoundActionOps CA Raw} (fr : Frame CA) (a : CA)
  : Frame CA :=
  mkFrame (f_dependencies fr) (f_building_positions fr) (f_positions fr)
    (Dict.set (f_assignments fr) (worker a) (assignment a))
    (f_next_actions fr) (f_required fr) (f_resources fr) (ptr a) a
    (f_time_remaining fr - 1)%Z (f_nexus_positions fr).

(** The tick that takes the generator suspended in [fr] to [fr'] on the
    action [a] resolves the worker and assignment [wa]: the loop over the
    sorted assignments reaches [wa] after the workers [pre], in the frame
    [fr1] that they have left, and goes on with the workers [post]. *)
Definition resolved_in_tick `{!CompoundActionOps CA Raw} `{!AssignmentOps}
    (env : Env) (fr : Frame CA) (a : CA) (wa : Worker * Assignment)
    (fr' : Frame CA) : Prop :=
  exists pre post fr1 fr2,
    sorted_by_flag (fun wa => is_build_order wa.2)
      (f_assignments (received fr a)) = pre ++ wa :: post
    /\ foldM (resolve_worker env) pre (received fr a) = Ok fr1
    /\ resolve_worker env fr1 wa = Ok fr2
    /\ foldM (resolve_worker env) post fr2 = Ok fr'.

(** An episode that reaches a refused construction.  [seeded] with four
    ticks per line: the instruction is the first numbered building
    (optional) and the second one (required), the first one is placed at
    the start. *)
Module Reached.
Import SpecModel Scenario.

Definition patient : Env :=
  {| assimilator_prob := 0;
     destroy_building_prob := 0;
     eval_steps := 2;
     num_initial_buildings := 1;
     time_per_line := 4;
     evaluating := false;
     curriculum_setting := curriculum;
     WORLD_SIZE := 4;
     Buildings := table;
     Workers := [W 1; W 2];
     cost := price;
     recursion_limit := 50 |}.

(** Worker 1 picks the Assimilator, then the gas tile [(2, 1)]; worker 1
    gathers gas. *)
Definition pick_assimilator : RawAction := mkRaw 0 0 4 0.
Definition pick_gas_tile : RawAction := mkRaw 0 0 9 0.
Definition gather_gas : RawAction := mkRaw 0 0 2 0.

(** Both workers fetch minerals; worker 1 builds an Assimilator on the gas
    and brings one unit of gas; it is then sent to the free tile [(1, 2)]
    with the order to build the second numbered building, and two more
    ticks go by. *)
Definition orders : list RawAction :=
  [gather_minerals; gather_minerals; pick_assimilator; pick_gas_tile;
   other_gathers; gather_gas; pick_dependent; pick_tile; other_gathers;
   other_gathers].

End Reached.

(** * Properties *)

(** ** The error monad *)

Lemma rbind_Ok {A B : Type} (m : result A) (k : A -> result B) (b : B) :
  rbind m k = Ok b -> exists a, m = Ok a /\ k a = Ok b.
Proof. destruct m as [a|e]; simpl; [eauto | discriminate]. Qed.

Lemma or_raise_Ok {A : Type} (e : exn) (o : option A) (a : A) :
  or_raise e o = Ok a <-> o = Some a.
Proof. destruct o; simpl; split; congruence. Qed.

Lemma rbind_Raise {A B : Type} (m : result A) (k : A -> result B) (e : exn) :
  rbind m k = Raise e -> m = Raise e \/ exists a, m = Ok a /\ k a = Raise e.
Proof. destruct m as [a|e']; simpl; [eauto | intros [= ->]; auto]. Qed.

Lemma or_raise_Raise {A : Type} (e e' : exn) (o : option A) :
  or_raise e o = Raise e' -> e' = e.
Proof. destruct o; simpl; congruence. Qed.

Ltac inv_Ok H :=
  repeat match type of H with
  | rbind _ _ = Ok _ =>
      let x := fresh "x" in
      let Hx := fresh "Hx" in
      apply rbind_Ok in H as (x & Hx & H)
  end.

Lemma mapM_length {A B : Type} (f : A -> result B) (l : list A) (l' : list B) :
  mapM f l = Ok l' -> length l' = length l.
Proof.
  revert l'. induction l as [|a l IH]; intros l' H; simpl in H.
  - by inversion H.
  - inv_Ok H. inversion H; subst. simpl. f_equal. by apply IH.
Qed.

Lemma mapM_lookup {A B : Type} (f : A -> result B) (l : list A) (l' : list B)
    (i : nat) (y : B) :
  mapM f l = Ok l' -> l' !! i = Some y ->
  exists x, l !! i = Some x /\ f x = Ok y.
Proof.
  revert l' i. induction l as [|a l IH]; intros l' i H Hy; simpl in H.
  - inversion H; subst. by rewrite lookup_nil in Hy.
  - inv_Ok H. inversion H; subst.
    destruct i as [|i]; simpl in *.
    + inversion Hy; subst. eauto.
    + eauto.
Qed.

Lemma mapM_total {A B : Type} (f : A -> result B) (l : list A) :
  Forall (fun x => exists y, f x = Ok y) l -> exists l', mapM f l = Ok l'.
Proof.
  induction 1 as [|a l [y Hy] _ [l' Hl']]; simpl.
  - eauto.
  - rewrite Hy. simpl. rewrite Hl'. simpl. eauto.
Qed.

(** ** Dictionaries *)

Section DictFacts.
Context {K V : Type} `{EqDecision K}.
Implicit Types (d : Dict.t K V) (k : K) (v : V).

Lemma get_set d k v k' :
  Dict.get (Dict.set d k v) k' = if decide (k = k') then Some v else Dict.get d k'.
Proof.
  induction d as [|[k0 v0] d IH]; simpl.
  - repeat case_decide; congruence.
  - repeat (case_decide; simpl); congruence.
Qed.

Lemma get_app d1 d2 k :
  Dict.get (d1 ++ d2) k =
    match Dict.get d1 k with Some v => Some v | None => Dict.get d2 k end.
Proof.
  induction d1 as [|[k0 v0] d1 IH]; simpl; [done|]. by case_decide.
Qed.

Lemma get_Some_elem_of d k v : Dict.get d k = Some v -> (k, v) ∈ d.
Proof.
  induction d as [|[k0 v0] d IH]; simpl; [done|].
  case_decide; intros ?; simplify_eq; [left | right; auto].
Qed.

Lemma get_None d k : Dict.get d k = None <-> k ∉ Dict.keys d.
Proof.
  unfold Dict.keys. induction d as [|[k0 v0] d IH]; simpl.
  - split; [intros _; apply not_elem_of_nil | done].
  - rewrite not_elem_of_cons. case_decide; subst; [split; [done | tauto] |].
    rewrite IH. split; [by split | tauto].
Qed.

Lemma get_NoDup d k v : NoDup (Dict.keys d) -> (k, v) ∈ d -> Dict.get d k = Some v.
Proof.
  unfold Dict.keys. induction d as [|[k0 v0] d IH]; simpl.
  - intros _ Hin. by apply elem_of_nil in Hin.
  - rewrite NoDup_cons. intros [Hk0 Hnd] Hin.
    apply elem_of_cons in Hin as [Heq | Hin].
    + simplify_eq. by rewrite decide_True.
    + rewrite decide_False; [auto|].
      intros ->. apply Hk0. apply list_elem_of_fmap. by exists (k, v).
Qed.

Lemma get_foldl_set (l : list (K * V)) d k :
  Dict.get (foldl (fun d kv => Dict.set d kv.1 kv.2) d l) k =
    match Dict.get (reverse l) k with
    | Some v => Some v
    | None => Dict.get d k
    end.
Proof.
  revert d. induction l as [|[k0 v0] l IH]; intros d; simpl; [done|].
  rewrite IH, reverse_cons, get_app, get_set. simpl.
  destruct (Dict.get (reverse l) k); [done|]. by case_decide.
Qed.

Lemma get_of_list (l : list (K * V)) k :
  Dict.get (Dict.of_list l) k = Dict.get (reverse l) k.
Proof.
  unfold Dict.of_list. rewrite get_foldl_set.
  by destruct (Dict.get (reverse l) k).
Qed.

Lemma get_of_list_NoDup (l : list (K * V)) k v :
  NoDup l.*1 -> (k, v) ∈ l -> Dict.get (Dict.of_list l) k = Some v.
Proof.
  intros Hnd Hin. rewrite get_of_list. apply get_NoDup.
  - unfold Dict.keys. by rewrite fmap_reverse, reverse_Permutation.
  - by apply elem_of_reverse.
Qed.

(** A new key goes to the end of the dictionary. *)
Lemma set_fresh d k v : k ∉ Dict.keys d -> Dict.set d k v = d ++ [(k, v)].
Proof.
  unfold Dict.keys. induction d as [|[k0 v0] d IH]; simpl; [done|].
  rewrite not_elem_of_cons. intros [Hne Hk].
  rewrite decide_False by congruence. by rewrite IH.
Qed.

Lemma keys_set d k v k' :
  k' ∈ Dict.keys (Dict.set d k v) <-> k' = k \/ k' ∈ Dict.keys d.
Proof.
  unfold Dict.keys. induction d as [|[k0 v0] d IH]; simpl.
  - rewrite list_elem_of_singleton, elem_of_nil. tauto.
  - case_decide; subst; simpl; rewrite !elem_of_cons; [tauto|].
    rewrite IH. tauto.
Qed.
End DictFacts.

(** ** The generator *)

Lemma choice_below_lt (n : nat) (g : Rng) : 0 < n -> (choice_below n g).1 < n.
Proof.
  intros Hn. unfold choice_below. destruct (next g) as [x g']. simpl.
  assert (x mod N.of_nat n < N.of_nat n)%N by (apply N.mod_lt; lia). lia.
Qed.

Lemma shuffle_from_Permutation {A : Type} (n : nat) (pool : list A) (g : Rng) :
  length pool = n -> (shuffle_from n pool g).1 ≡ₚ pool.
Proof.
  revert pool g. induction n as [|n IH]; intros pool g Hlen; simpl.
  - by destruct pool.
  - pose proof (choice_below_lt (length pool) g ltac:(lia)) as Hk.
    destruct (choice_below (length pool) g) as [k g1]. simpl in Hk.
    destruct (lookup_lt_is_Some_2 pool k Hk) as [a Ha]. rewrite Ha.
    specialize (IH (delete k pool) g1).
    destruct (shuffle_from n (delete k pool) g1) as [rest g2]. simpl in *.
    rewrite IH.
    + symmetry. by apply delete_Permutation.
    + rewrite length_delete by eauto. lia.
Qed.

Lemma shuffle_Permutation {A : Type} (l : list A) (g : Rng) :
  (shuffle l g).1 ≡ₚ l.
Proof. by apply shuffle_from_Permutation. Qed.

Lemma random_unit_draw (g : Rng) : unit_draw (random g).1.
Proof.
  unfold random. destruct (next g) as [x g']. split; simpl; [done|].
  pose proof (N.mod_lt x (2 ^ 53) ltac:(discriminate)) as Hlt.
  apply N2Z.inj_lt in Hlt. split; [apply N2Z.is_nonneg | exact Hlt].
Qed.

Lemma random_n_spec (n : nat) (g : Rng) :
  length (random_n n g).1 = n /\ Forall unit_draw (random_n n g).1.
Proof.
  revert g. induction n as [|n IH]; intros g; simpl; [by split|].
  pose proof (random_unit_draw g) as Hu.
  destruct (random g) as [u g1]. specialize (IH g1).
  destruct (random_n n g1) as [us g2]. simpl in *.
  destruct IH as [IH1 IH2]. split; [by f_equal | by constructor].
Qed.

Lemma round_half_even_range (q : Q) :
  (Qnum q / Z.pos (Qden q) <= round_half_even q <= Qnum q / Z.pos (Qden q) + 1)%Z
  /\ ((Qnum q) mod Z.pos (Qden q) = 0 ->
      round_half_even q = Qnum q / Z.pos (Qden q))%Z.
Proof.
  unfold round_half_even.
  destruct (Z.compare_spec (2 * (Qnum q mod Z.pos (Qden q))) (Z.pos (Qden q)));
    try destruct (Z.even _); split; try lia.
Qed.

(** The index that [build_dependencies] computes at position [i] is [-1] or
    a position before [i]. *)
Lemma double_round_bounds (k : Z) :
  (0 <= k)%Z ->
  (0 <= double_round k)%Z
  /\ (2 * (double_round k - k)
      <= if (k <? 2 ^ 53)%Z then 0 else 2 ^ (Z.log2 k - 52))%Z.
Proof.
  intros Hk. unfold double_round.
  destruct (Z.ltb_spec k (2 ^ 53)) as [Hsmall|Hbig]; [lia|].
  assert (53 <= Z.log2 k)%Z as Hlog by (by apply Z.log2_le_pow2; lia).
  set (e := (Z.log2 k - 52)%Z).
  assert (0 < 2 ^ e)%Z as Hpos by (apply Z.pow_pos_nonneg; lia).
  pose proof (Z.div_mod k (2 ^ e) ltac:(lia)) as Hdm.
  pose proof (Z.mod_pos_bound k (2 ^ e) Hpos) as Hr.
  assert (0 <= k / 2 ^ e)%Z as Hq by (apply Z.div_pos; lia).
  destruct (Z.compare_spec (2 * (k mod 2 ^ e)) (2 ^ e));
    try destruct (Z.even _); split; nia.
Qed.

Lemma dependency_index_range (u : Q) (i : nat) :
  unit_draw u ->
  (-1 <= round_half_even (double_mul u i) - 1 < Z.of_nat i)%Z.
Proof.
  intros [Hd [Hn0 Hn1]].
  pose proof (round_half_even_range (double_mul u i)) as [[Hlo Hhi] Hex].
  unfold double_mul in *. simpl in *.
  set (k := (Qnum u * Z.of_nat i)%Z) in *.
  assert (0 <= k)%Z as Hk by (unfold k; nia).
  destruct (double_round_bounds k Hk) as [Hk0 Hk1].
  set (D := Z.pos (2 ^ 53)) in *.
  assert (D = 2 ^ 53)%Z as HD by done.
  assert (0 <= double_round k / D)%Z by (apply Z.div_pos; lia).
  split; [lia|].
  destruct i as [|i].
  - assert (k = 0%Z) as -> by (unfold k; lia).
    rewrite Hex; [done|]. done.
  - assert (double_round k / D < Z.of_nat (S i))%Z; [|lia].
    apply Z.div_lt_upper_bound; [lia|].
    assert (k <= D * Z.of_nat (S i) - Z.of_nat (S i))%Z by (unfold k; nia).
    destruct (Z.ltb_spec k (2 ^ 53)) as [Hsmall|Hbig]; [nia|].
    assert (2 ^ (Z.log2 k - 52) * 2 ^ 52 <= k)%Z as Hpow.
    { rewrite <- Z.pow_add_r by (try lia; apply Z.log2_le_pow2 in Hbig; lia).
      replace (Z.log2 k - 52 + 52)%Z with (Z.log2 k) by lia.
      apply Z.log2_spec. lia. }
    nia.
Qed.

(** ** [build_dependencies] *)

Lemma zip_longest_lookup {A B : Type} (l : list A) (k : list (option B)) (i : nat) :
  zip_longest l k !! i = (fun a => (a, default None (k !! i))) <$> l !! i.
Proof.
  revert k i. induction l as [|a l IH]; intros k i; simpl; [done|].
  destruct k as [|b k]; destruct i as [|i]; simpl; try done.
Qed.

Lemma zip_longest_fst {A B : Type} (l : list A) (k : list (option B)) :
  (zip_longest l k).*1 = l.
Proof.
  revert k. induction l as [|a l IH]; intros k; simpl; [done|].
  destruct k; simpl; by rewrite IH.
Qed.

Lemma dependency_indices_lookup (us : list Q) (i : nat) (x : Z) :
  Forall unit_draw us -> dependency_indices us !! i = Some x ->
  (-1 <= x < Z.of_nat i)%Z.
Proof.
  intros Hus. unfold dependency_indices. rewrite list_lookup_imap.
  destruct (us !! i) as [u|] eqn:Hu; simpl; [|done].
  intros [= <-]. apply dependency_index_range.
  eapply Forall_lookup_1; eauto.
Qed.

(** What a run of [build_dependencies] that returns has computed. *)
Lemma build_dependencies_inv env max_depth g pairs g' :
  build_dependencies env max_depth g = Ok (pairs, g') ->
  exists shuffled deps,
    shuffled ≡ₚ filter (fun b => b ≠ Assimilator) (Buildings env)
    /\ pairs = (Assimilator, None) :: zip_longest shuffled deps
    /\ length deps <= length shuffled
    /\ forall i d, deps !! i = Some (Some d) ->
         exists j, j < i /\ shuffled !! j = Some d.
Proof.
  unfold build_dependencies. intros H.
  pose proof (shuffle_Permutation
                (filter (fun b => b ≠ Assimilator) (Buildings env)) g) as Hperm.
  destruct (shuffle _ g) as [shuffled g1]. simpl in Hperm.
  destruct (Z.ltb_spec (Z.min max_depth (Z.of_nat (length shuffled))) 0) as [|Hn];
    [discriminate|].
  pose proof (random_n_spec
                (Z.to_nat (Z.min max_depth (Z.of_nat (length shuffled)))) g1)
    as [Hlen Hus].
  destruct (random_n _ g1) as [us g2]. simpl in Hlen, Hus.
  inv_Ok H. inversion H; subst pairs g'. clear H.
  exists shuffled, x. split; [done|]. split; [done|].
  pose proof (mapM_length _ _ _ Hx) as Hlx.
  unfold dependency_indices in Hlx. rewrite length_imap in Hlx.
  split; [lia|].
  intros i d Hd.
  destruct (mapM_lookup _ _ _ _ _ Hx Hd) as (z & Hz & Hfz).
  pose proof (dependency_indices_lookup _ _ _ Hus Hz) as Hrange.
  destruct (Z.ltb_spec z 0); [discriminate|].
  inv_Ok Hfz. apply or_raise_Ok in Hx0. inversion Hfz; subst.
  exists (Z.to_nat z). split; [lia | done].
Qed.

Lemma build_dependencies_returns env max_depth g :
  (0 <= max_depth)%Z -> exists pairs g', build_dependencies env max_depth g = Ok (pairs, g').
Proof.
  intros Hd. unfold build_dependencies.
  destruct (shuffle _ g) as [shuffled g1].
  destruct (Z.ltb_spec (Z.min max_depth (Z.of_nat (length shuffled))) 0) as [|Hn];
    [lia|].
  pose proof (random_n_spec
                (Z.to_nat (Z.min max_depth (Z.of_nat (length shuffled)))) g1)
    as [Hlen Hus].
  destruct (random_n _ g1) as [us g2]. simpl in Hlen, Hus.
  edestruct (mapM_total
    (fun i : Z =>
       if (i <? 0)%Z then Ok None
       else let* b := or_raise IndexError (shuffled !! Z.to_nat i) in Ok (Some b))
    (dependency_indices us)) as [deps Hdeps].
  - apply Forall_lookup_2. intros i z Hz.
    pose proof (dependency_indices_lookup _ _ _ Hus Hz) as Hrange.
    assert (i < length us).
    { apply lookup_lt_Some in Hz. unfold dependency_indices in Hz.
      by rewrite length_imap in Hz. }
    destruct (Z.ltb_spec z 0); [eauto|].
    destruct (lookup_lt_is_Some_2 shuffled (Z.to_nat z)) as [b Hb]; [lia|].
    rewrite Hb. simpl. eauto.
  - rewrite Hdeps. simpl. eauto.
Qed.

Lemma build_dependencies_negative env max_depth g :
  (max_depth < 0)%Z -> build_dependencies env max_depth g = Raise ValueError.
Proof.
  intros Hd. unfold build_dependencies.
  destruct (shuffle _ g) as [shuffled g1].
  destruct (Z.ltb_spec (Z.min max_depth (Z.of_nat (length shuffled))) 0); [done | lia].
Qed.

Lemma instructions_for_None deps n : instructions_for deps n None = Ok [].
Proof. by destruct n. Qed.

Lemma instructions_for_mono deps n m b chain :
  instructions_for deps n b = Ok chain -> n <= m ->
  instructions_for deps m b = Ok chain.
Proof.
  revert m b chain. induction n as [|n IH]; intros m b chain H Hnm.
  - destruct b; simpl in H; [discriminate|]. by destruct m.
  - destruct b as [b|]; [|by destruct m].
    destruct m as [|m]; [lia|]. simpl in *.
    inv_Ok H. rewrite Hx. simpl.
    rewrite (IH m x x0) by (done || lia). done.
Qed.

Section Forest.
Context (shuffled : list Building) (deps : list (option Building)).
Hypothesis shuffled_NoDup : NoDup shuffled.
Hypothesis shuffled_no_assimilator : Assimilator ∉ shuffled.
Hypothesis deps_earlier :
  forall i d, deps !! i = Some (Some d) -> exists j, j < i /\ shuffled !! j = Some d.

Abbreviation pairs := (forest_pairs shuffled deps).
Abbreviation dependencies := (Dict.of_list (forest_pairs shuffled deps)).

Lemma forest_keys_NoDup : NoDup pairs.*1.
Proof using shuffled_NoDup shuffled_no_assimilator.
  unfold forest_pairs. simpl. rewrite zip_longest_fst. by apply NoDup_cons_2.
Qed.

Lemma forest_get_assimilator : Dict.get dependencies Assimilator = Some None.
Proof using shuffled_NoDup shuffled_no_assimilator.
  apply get_of_list_NoDup; [apply forest_keys_NoDup | left].
Qed.

Lemma forest_get (i : nat) (b : Building) :
  shuffled !! i = Some b ->
  Dict.get dependencies b = Some (default None (deps !! i)).
Proof using shuffled_NoDup shuffled_no_assimilator.
  intros Hb. apply get_of_list_NoDup; [apply forest_keys_NoDup|].
  right. apply list_elem_of_lookup. exists i.
  by rewrite zip_longest_lookup, Hb.
Qed.

(** The chain of a building lies strictly before it in the shuffled order,
    so it is found within as many calls as its position allows. *)
Lemma forest_chain (i : nat) (b : Building) :
  shuffled !! i = Some b ->
  exists chain,
    instructions_for dependencies (S i) (Some b) = Ok chain
    /\ last chain = Some b
    /\ NoDup chain
    /\ forall x, x ∈ chain -> exists j, j <= i /\ shuffled !! j = Some x.
Proof using shuffled_NoDup shuffled_no_assimilator deps_earlier.
  revert b. induction (lt_wf i) as [i _ IH]. intros b Hb.
  simpl. rewrite (forest_get i b Hb). simpl.
  destruct (deps !! i) as [[d|]|] eqn:Hd; simpl.
  - destruct (deps_earlier i d Hd) as (j & Hji & Hj).
    destruct (IH j Hji d Hj) as (chain & Hc & Hlast & Hnd & Hidx).
    rewrite (instructions_for_mono _ _ i _ _ Hc) by lia. simpl.
    exists (chain ++ [b]). split; [done|]. split; [apply last_snoc|].
    split.
    + apply NoDup_app. split; [done|]. split; [|apply NoDup_singleton].
      intros x Hx Hxb. apply list_elem_of_singleton in Hxb. subst x.
      destruct (Hidx b Hx) as (j' & Hj' & Hjb).
      pose proof (NoDup_lookup _ _ _ _ shuffled_NoDup Hb Hjb). lia.
    + intros x Hx. apply elem_of_app in Hx as [Hx | Hx].
      * destruct (Hidx x Hx) as (j' & Hj' & Hjb). exists j'. split; [lia | done].
      * apply list_elem_of_singleton in Hx. subst x. eauto.
  - exists [b]. split; [by destruct i|]. split; [done|].
    split; [apply NoDup_singleton|].
    intros x Hx. apply list_elem_of_singleton in Hx. subst x. eauto.
  - exists [b]. split; [by destruct i|]. split; [done|].
    split; [apply NoDup_singleton|].
    intros x Hx. apply list_elem_of_singleton in Hx. subst x. eauto.
Qed.
End Forest.

(** C4.  Every dependency map that [build_dependencies] produces is a
    forest: the first pair is [(Assimilator, None)]; the dependency of the
    building at position [i] of the shuffle, when it has one, is the building
    at a position [j < i]; and following the dependencies from any building
    of the map ends, within as many steps as the map has entries, on a chain
    in which no building occurs twice.  The buildings of the table
    [Buildings] are taken to be pairwise distinct. *)
Theorem build_dependencies_forest env max_depth g pairs g' :
  NoDup (Buildings env) ->
  build_dependencies env max_depth g = Ok (pairs, g') ->
  pairs !! 0 = Some (Assimilator, None)
  /\ (forall i b d, pairs !! S i = Some (b, Some d) ->
        exists j, j < i /\ pairs.*1 !! S j = Some d)
  /\ (forall b, b ∈ pairs.*1 ->
        exists chain,
          instructions_for (Dict.of_list pairs) (length pairs) (Some b) = Ok chain
          /\ last chain = Some b
          /\ NoDup chain).
Proof.
  intros Hnd H.
  destruct (build_dependencies_inv _ _ _ _ _ H)
    as (shuffled & deps & Hperm & -> & Hlen & Hearlier).
  assert (NoDup shuffled) as Hnds.
  { rewrite Hperm. by apply NoDup_filter. }
  assert (Assimilator ∉ shuffled) as Hna.
  { rewrite Hperm. rewrite list_elem_of_filter. tauto. }
  split; [done|]. split.
  - intros i b d Hi. simpl in Hi. rewrite zip_longest_lookup in Hi.
    destruct (shuffled !! i) as [b'|] eqn:Hb; simpl in Hi; [|done].
    destruct (deps !! i) as [d'|] eqn:Hd; simpl in Hi; [|done].
    inversion Hi; subst.
    destruct (Hearlier i d Hd) as (j & Hj & Hjd).
    exists j. split; [done|]. simpl. by rewrite zip_longest_fst.
  - intros b Hb. simpl in Hb. rewrite zip_longest_fst in Hb.
    apply elem_of_cons in Hb as [-> | Hb].
    + exists [Assimilator]. simpl.
      change (_ :: zip_longest shuffled deps) with (forest_pairs shuffled deps).
      rewrite (forest_get_assimilator shuffled deps Hnds Hna). simpl.
      rewrite instructions_for_None. simpl.
      split; [done|]. split; [done | apply NoDup_singleton].
    + apply list_elem_of_lookup in Hb as [i Hi].
      destruct (forest_chain shuffled deps Hnds Hna Hearlier i b Hi)
        as (chain & Hc & Hlast & Hndc & _).
      exists chain. split; [|done].
      eapply instructions_for_mono; [exact Hc|].
      apply lookup_lt_Some in Hi.
      rewrite <- (zip_longest_fst shuffled deps) in Hi.
      rewrite length_fmap in Hi. simpl. lia.
Qed.

(** ** [build_lines] *)

Lemma unpack_last_Ok {A : Type} (inst first : list A) (last : A) :
  unpack_last inst = Ok (first, last) -> inst = first ++ [last].
Proof.
  unfold unpack_last. destruct (reverse inst) as [|x l] eqn:E; [done|].
  intros [= <- <-]. rewrite <- (reverse_involutive inst), E.
  by rewrite reverse_cons.
Qed.

Lemma instructions_for_last deps n b inst :
  instructions_for deps n (Some b) = Ok inst -> exists pre, inst = pre ++ [b].
Proof.
  destruct n as [|n]; simpl; [done|]. intros H. inv_Ok H.
  inversion H. eauto.
Qed.

Lemma required_buildings_cons (l : Line) (ls : list Line) :
  required_buildings (l :: ls) =
    if required l then building l :: required_buildings ls
    else required_buildings ls.
Proof.
  unfold required_buildings. rewrite filter_cons.
  by destruct l as [[] b].
Qed.

Lemma required_buildings_optional (first : list Building) (ls : list Line) :
  required_buildings (map (mkLine false) first ++ ls) = required_buildings ls.
Proof.
  induction first as [|b first IH]; simpl; [done|].
  by rewrite required_buildings_cons.
Qed.

(** The lines of [random_instructions_under(n, include_assimilator)] fill the
    budget [n] exactly, and hold a required Assimilator at most once, and
    only when the Assimilator is included. *)
Lemma random_instructions_under_spec env deps fuel depth n incl g lines g' :
  random_instructions_under env deps fuel depth n incl g = Ok (lines, g') ->
  Z.of_nat (length lines) = n
  /\ count_occ Building_eq_dec (required_buildings lines) Assimilator
     <= (if incl then 1 else 0).
Proof.
  revert depth n incl g lines g'.
  induction fuel as [|fuel IH]; intros depth n incl g lines g' H; simpl in H.
  - destruct (Z.ltb_spec n 0); [done|].
    destruct (Z.eqb_spec n 0); [|done].
    inversion H; subst. simpl. split; [done | lia].
  - destruct (Z.ltb_spec n 0); [done|].
    destruct (Z.eqb_spec n 0).
    { inversion H; subst. simpl. split; [done | lia]. }
    set (candidates :=
           filter (fun b => incl = true \/ b ≠ Assimilator) (Buildings env)) in H.
    destruct (decide (candidates = [])); [done|].
    destruct (choice_below (length candidates) g) as [k g1].
    inv_Ok H. apply or_raise_Ok in Hx.
    destruct x1 as [first last].
    apply unpack_last_Ok in Hx1.
    destruct (instructions_for_last _ _ _ _ Hx0) as [pre Hpre].
    rewrite Hx1 in Hpre. apply app_inj_tail in Hpre as [-> ->].
    assert (incl = true \/ x ≠ Assimilator) as Hcand.
    { apply list_elem_of_lookup_2 in Hx. unfold candidates in Hx.
      apply list_elem_of_filter in Hx. tauto. }
    destruct (Z.gtb_spec (Z.of_nat (length x0)) n); [by apply IH in H|].
    inv_Ok H. destruct x1 as [rest g2]. inversion H; subst lines g'.
    apply IH in Hx2 as [Hlen Hcount]. split.
    + rewrite length_app, length_map. simpl.
      subst x0. rewrite length_app in Hlen. simpl in Hlen. lia.
    + rewrite required_buildings_optional, required_buildings_cons. simpl.
      destruct (Building_eq_dec x Assimilator) as [->|Hne].
      * destruct Hcand as [-> | ?]; [|done].
        simpl in Hcount. lia.
      * rewrite bool_decide_true in Hcount by done.
        rewrite andb_true_r in Hcount. destruct incl; lia.
Qed.

Lemma instructions_for_Raise deps n b e :
  instructions_for deps n b = Raise e -> e = KeyError \/ e = RecursionError.
Proof.
  revert b. induction n as [|n IH]; intros [b|]; simpl; try done.
  - intros [= <-]. auto.
  - intros H.
    apply rbind_Raise in H as [H | (d & _ & H)];
      [apply or_raise_Raise in H; auto|].
    apply rbind_Raise in H as [H | (pre & _ & H)]; [eauto | done].
Qed.

Lemma random_instructions_under_Raise env deps fuel depth n incl g e :
  random_instructions_under env deps fuel depth n incl g = Raise e ->
  e <> AssertionError.
Proof.
  revert depth n incl g. induction fuel as [|fuel IH]; intros depth n incl g; simpl.
  - repeat case_match; congruence.
  - destruct (n <? 0)%Z; [congruence|]. destruct (n =? 0)%Z; [congruence|].
    destruct (decide (_ = [])); [congruence|].
    destruct (choice_below _ g) as [k g1]. intros H.
    apply rbind_Raise in H as [H | (b & _ & H)];
      [apply or_raise_Raise in H; congruence|].
    apply rbind_Raise in H as [H | (inst & _ & H)];
      [apply instructions_for_Raise in H as [-> | ->]; congruence|].
    apply rbind_Raise in H as [H | ([first last] & _ & H)].
    { unfold unpack_last in H. destruct (reverse inst); congruence. }
    destruct (_ >? n)%Z; [eauto|].
    apply rbind_Raise in H as [H | ([rest g2] & _ & H)]; [eauto | done].
Qed.


Lemma build_lines_inv env deps fuel n_lines g lines g' :
  build_lines env deps fuel n_lines g = Ok (lines, g') ->
  random_instructions_under env deps fuel (recursion_limit env) n_lines true g
    = Ok (lines, g').
Proof.
  unfold build_lines. intros H. inv_Ok H. destruct x as [ls g1].
  case_decide; [|done]. inversion H; by subst.
Qed.

(** C5.  A line list that [build_lines] produces for a sampled count
    [n_lines] with [0 < n_lines <= max_lines] has at most [max_lines] lines
    (it has exactly [n_lines]: a chain is taken whole or drawn again), and at
    most one of its lines is a required Assimilator; the assertion that
    closes [build_lines] cannot fail. *)
Theorem build_lines_budget env deps fuel n_lines g lines g' :
  (0 < n_lines <= max_lines (curriculum_setting env))%Z ->
  build_lines env deps fuel n_lines g = Ok (lines, g') ->
  (Z.of_nat (length lines) <= max_lines (curriculum_setting env))%Z
  /\ Z.of_nat (length lines) = n_lines
  /\ count_occ Building_eq_dec
       (building <$> filter (fun l => required l = true) lines) Assimilator <= 1
  /\ (forall g0, build_lines env deps fuel n_lines g0 <> Raise AssertionError).
Proof.
  intros Hn H. apply build_lines_inv in H.
  apply random_instructions_under_spec in H as [Hlen Hcount].
  split; [lia|]. split; [done|]. split; [done|].
  intros g0. unfold build_lines.
  destruct (random_instructions_under env deps fuel (recursion_limit env)
              n_lines true g0)
    as [[ls g1]|e] eqn:E; simpl.
  - apply random_instructions_under_spec in E as [_ Hc].
    by rewrite decide_True.
  - intros [= ->]. by apply random_instructions_under_Raise in E.
Qed.

(** ** Admission of a construction *)

(** The dependency test of [building_allowed] looks the dependency up among
    the coordinates it is handed (the keys of [building_positions]) and
    [None].  A building is no coordinate, so the test passes for [None]
    alone. *)
Lemma dependency_test (dependency : option Building) (coords : list Coord) :
  value_of_optional dependency ∈ (VCoord <$> coords) ++ [VNone]
  <-> dependency = None.
Proof.
  rewrite elem_of_app, list_elem_of_fmap, list_elem_of_singleton.
  destruct dependency as [d|]; simpl; split; try done.
  - intros [[c [Hc _]] | Hc]; discriminate.
  - auto.
Qed.

Lemma building_allowed_spec b dep coords ins ps loc gas minerals :
  Dict.get ps (OResource GAS) = Some gas ->
  Dict.get ps (OResource MINERALS) = Some minerals ->
  exists ok,
    building_allowed b dep coords ins ps loc = Ok ok
    /\ (ok = true <->
        ins = false /\ (loc ∉ coords) /\ dep = None
        /\ (b = Assimilator -> loc = gas)
        /\ (b ≠ Assimilator -> loc ≠ gas /\ loc ≠ minerals)).
Proof.
  intros Hgas Hmin. unfold building_allowed. rewrite Hgas, Hmin. simpl.
  destruct ins; simpl.
  { exists false. split; [done|]. split; [done | intros [? _]; done]. }
  destruct (bool_decide_reflect (loc ∈ coords)) as [Hin|Hin]; simpl.
  { exists false. split; [done|]. split; [done | intuition congruence]. }
  destruct (bool_decide_reflect
              (value_of_optional dep ∈ (VCoord <$> coords) ++ [VNone]))
    as [Hdep|Hdep]; rewrite dependency_test in Hdep; simpl.
  2: { exists false. split; [done|]. split; [done | intuition congruence]. }
  destruct (decide (b = Assimilator)) as [Hb|Hb].
  - eexists. split; [done|]. rewrite bool_decide_eq_true. intuition congruence.
  - eexists. split; [done|].
    rewrite negb_true_iff, bool_decide_eq_false.
    rewrite !not_elem_of_cons. pose proof (not_elem_of_nil loc).
    intuition congruence.
Qed.

(** [bool(cost - resources)] is false exactly when the cost is covered. *)
Lemma insufficient_resources_spec (c rs : Counter Resource) :
  counter_bool (c ∖ rs) = false <-> c ⊆ rs.
Proof.
  unfold counter_bool. rewrite bool_decide_eq_false. split.
  - intros H. destruct (decide (c ∖ rs = ∅)) as [He|He]; [|by destruct H].
    intros x. pose proof (f_equal (multiplicity x) He) as Hx.
    rewrite multiplicity_difference, multiplicity_empty in Hx. lia.
  - intros H Hne. apply Hne. apply gmultiset_eq. intros x.
    rewrite multiplicity_difference, multiplicity_empty.
    specialize (H x). lia.
Qed.

(** ** Dictionaries with unique keys *)

Section DictUnique.
Context {K V : Type} `{EqDecision K}.
Implicit Types (d : Dict.t K V) (k : K) (v : V).

Lemma keys_set_NoDup d k v : NoDup (Dict.keys d) -> NoDup (Dict.keys (Dict.set d k v)).
Proof.
  unfold Dict.keys. induction d as [|[k0 v0] d IH]; simpl.
  - intros _. apply NoDup_singleton.
  - rewrite NoDup_cons. intros [Hk0 Hnd].
    case_decide; subst; simpl; rewrite NoDup_cons; [done|].
    split; [|auto].
    intros Hin. apply (keys_set d k v k0) in Hin as [? | ?]; [congruence | done].
Qed.

Lemma keys_of_list_NoDup (l : list (K * V)) : NoDup (Dict.keys (Dict.of_list l)).
Proof.
  unfold Dict.of_list.
  assert (NoDup (Dict.keys ([] : Dict.t K V))) as Hnil by apply NoDup_nil_2.
  revert Hnil. generalize ([] : Dict.t K V).
  induction l as [|[k v] l IH]; intros d Hd; simpl; [done|].
  apply IH. by apply keys_set_NoDup.
Qed.

Lemma keys_del d k k' : k' ∈ Dict.keys (Dict.del d k) -> k' ∈ Dict.keys d.
Proof.
  unfold Dict.keys. induction d as [|[k0 v0] d IH]; simpl; [done|].
  case_decide; simpl; rewrite !elem_of_cons; [auto|].
  intros [? | ?]; auto.
Qed.

Lemma keys_del_NoDup d k : NoDup (Dict.keys d) -> NoDup (Dict.keys (Dict.del d k)).
Proof.
  unfold Dict.keys. induction d as [|[k0 v0] d IH]; simpl; [done|].
  rewrite NoDup_cons. intros [Hk0 Hnd].
  case_decide; simpl; [done|]. rewrite NoDup_cons. split; [|auto].
  intros Hin. apply Hk0. by apply (keys_del d k k0).
Qed.

Lemma get_del d k k' :
  NoDup (Dict.keys d) ->
  Dict.get (Dict.del d k) k' = if decide (k = k') then None else Dict.get d k'.
Proof.
  unfold Dict.keys. induction d as [|[k0 v0] d IH]; simpl.
  - intros _. by case_decide.
  - rewrite NoDup_cons. intros [Hk0 Hnd].
    destruct (decide (k0 = k)) as [->|Hne]; simpl.
    + destruct (decide (k = k')) as [->|Hne']; [|done].
      by apply get_None.
    + rewrite IH by done.
      destruct (decide (k0 = k')); [|done]. subst.
      by rewrite decide_False.
Qed.

Lemma get_Some_value d k v : Dict.get d k = Some v -> v ∈ Dict.values d.
Proof.
  intros H. apply get_Some_elem_of in H. unfold Dict.values.
  apply list_elem_of_fmap. by exists (k, v).
Qed.

End DictUnique.

Lemma building_allowed_true b dep coords ins ps loc :
  building_allowed b dep coords ins ps loc = Ok true ->
  ins = false /\ (loc ∉ coords) /\ dep = None.
Proof.
  unfold building_allowed. destruct ins; simpl; [done|].
  destruct (bool_decide_reflect (loc ∈ coords)); simpl; [done|].
  destruct (bool_decide_reflect
              (value_of_optional dep ∈ (VCoord <$> coords) ++ [VNone]))
    as [Hdep|Hdep]; simpl; [|done].
  apply dependency_test in Hdep. done.
Qed.

Lemma building_allowed_Raise b dep coords ins ps loc e :
  building_allowed b dep coords ins ps loc = Raise e -> e = KeyError.
Proof.
  unfold building_allowed. destruct (_ || _); [done|].
  destruct (decide (b = Assimilator)); intros H.
  - apply rbind_Raise in H as [H | (? & _ & H)]; [|done].
    by apply or_raise_Raise in H.
  - apply rbind_Raise in H as [H | (? & _ & H)];
      [by apply or_raise_Raise in H|].
    apply rbind_Raise in H as [H | (? & _ & H)]; [|done].
    by apply or_raise_Raise in H.
Qed.

Lemma foldM_invariant {A B : Type} (P : B -> Prop) (f : B -> A -> result B)
    (l : list A) (b b' : B) :
  (forall b a b', P b -> f b a = Ok b' -> P b') ->
  P b -> foldM f l b = Ok b' -> P b'.
Proof.
  intros Hf. revert b. induction l as [|a l IH]; intros b Hb H; simpl in H.
  - by inversion H; subst.
  - inv_Ok H. eauto.
Qed.

Lemma foldM_Raise {A B : Type} (P : B -> Prop) (Q : exn -> Prop)
    (f : B -> A -> result B) (l : list A) (b : B) (e : exn) :
  (forall b a b', P b -> f b a = Ok b' -> P b') ->
  (forall b a e, P b -> f b a = Raise e -> Q e) ->
  P b -> foldM f l b = Raise e -> Q e.
Proof.
  intros Hf Hq. revert b. induction l as [|a l IH]; intros b Hb H; simpl in H.
  - done.
  - apply rbind_Raise in H as [H | (b' & Hb' & H)]; eauto.
Qed.

(** ** One worker *)

Section Resolution.
Context {CA Raw : Type} `{decoder : !CompoundActionOps CA Raw}
  `{resolver : !AssignmentOps}.
Context (env : Env).
Implicit Types (fr : Frame CA) (w : Worker) (asg : Assignment).

Lemma same_control_refl fr : same_control fr fr.
Proof. by repeat split. Qed.

Lemma same_control_trans fr1 fr2 fr3 :
  same_control fr1 fr2 -> same_control fr2 fr3 -> same_control fr1 fr3.
Proof. unfold same_control. intuition congruence. Qed.

Lemma resolve_worker_movement fr w asg wp delta :
  Dict.get (f_positions fr) (OWorker w) = Some wp ->
  assignment_action asg wp (f_positions fr) (f_nexus_positions fr)
    = Movement delta ->
  resolve_worker env fr (w, asg) =
    let ps := Dict.set (f_positions fr) (OWorker w) (coord_add wp delta) in
    if decide (Dict.get (f_building_positions fr) (coord_add wp delta)
               = Some Nexus)
    then let* rs := gather_all (f_building_positions fr) ps wp (f_resources fr) in
         Ok (set_resources (set_positions fr ps) rs)
    else Ok (set_positions fr ps).
Proof.
  intros Hwp Hact. unfold resolve_worker. simpl. rewrite Hwp. simpl.
  by rewrite Hact.
Qed.

Lemma resolve_worker_build fr w b0 loc wp b :
  Dict.get (f_positions fr) (OWorker w) = Some wp ->
  assignment_action (BuildOrder b0 loc) wp (f_positions fr)
    (f_nexus_positions fr) = Build b ->
  resolve_worker env fr (w, BuildOrder b0 loc) =
    let* allowed := construction_admitted env fr b loc in
    if allowed then Ok (constructed env fr wp b) else Ok fr.
Proof.
  intros Hwp Hact. unfold resolve_worker, construction_admitted. simpl.
  rewrite Hwp. simpl. rewrite Hact.
  by destruct (or_raise KeyError (Dict.get (f_dependencies fr) b)).
Qed.

Lemma resolve_worker_control fr w asg fr' :
  resolve_worker env fr (w, asg) = Ok fr' -> same_control fr fr'.
Proof.
  unfold resolve_worker. simpl. intros H. inv_Ok H.
  destruct (assignment_action asg x _ _) as [delta|b|]; [| |done].
  - case_decide; [inv_Ok H|]; inversion H; subst; by repeat split.
  - inv_Ok H. destruct x2; inversion H; subst; by repeat split.
Qed.

Lemma gather_all_Raise bp ps wp rs e :
  gather_all bp ps wp rs = Raise e -> e = KeyError.
Proof.
  unfold gather_all. intros H.
  eapply (foldM_Raise (fun _ => True) (fun e => e = KeyError)) in H;
    [done | done | | done].
  intros rs' rsc e' _ He.
  apply rbind_Raise in He as [He | (? & _ & He)]; [|done].
  unfold gathered_resource in He.
  apply rbind_Raise in He as [He | (? & _ & He)]; [|done].
  by apply or_raise_Raise in He.
Qed.

Lemma resolve_worker_Raise fr w asg e :
  resolve_worker env fr (w, asg) = Raise e -> e <> AssertionError.
Proof.
  destruct (Dict.get (f_positions fr) (OWorker w)) as [wp|] eqn:Hwp.
  2: { unfold resolve_worker. cbn [fst snd]. rewrite Hwp. simpl. congruence. }
  destruct (assignment_action asg wp (f_positions fr) (f_nexus_positions fr))
    as [delta|b|] eqn:Hact.
  - rewrite (resolve_worker_movement _ _ _ _ _ Hwp Hact). cbv zeta.
    destruct (decide _); [|done]. intros H.
    apply rbind_Raise in H as [H | (? & _ & H)]; [|done].
    apply gather_all_Raise in H. congruence.
  - destruct asg as [rsc|b0 loc].
    + unfold resolve_worker. cbn [fst snd]. rewrite Hwp. simpl. rewrite Hact.
      destruct (or_raise KeyError (Dict.get (f_dependencies fr) b)) eqn:E;
        simpl; [congruence|].
      apply or_raise_Raise in E. congruence.
    + rewrite (resolve_worker_build _ _ _ _ _ _ Hwp Hact). intros H.
      apply rbind_Raise in H as [H | (ok & _ & H)]; [|by destruct ok].
      unfold construction_admitted in H.
      apply rbind_Raise in H as [H | (? & _ & H)];
        [apply or_raise_Raise in H; congruence|].
      apply building_allowed_Raise in H. congruence.
  - unfold resolve_worker. cbn [fst snd]. rewrite Hwp. simpl. rewrite Hact.
    congruence.
Qed.
End Resolution.

Lemma elem_of_sorted_by_flag {A : Type} (key : A -> bool) (items : list A) (x : A) :
  x ∈ sorted_by_flag key items <-> x ∈ items.
Proof.
  unfold sorted_by_flag.
  rewrite elem_of_app, !list_elem_of_In, !filter_In, <- !list_elem_of_In.
  destruct (key x); simpl; intuition congruence.
Qed.

Section Workers.
Context {CA Raw : Type} `{decoder : !CompoundActionOps CA Raw}
  `{resolver : !AssignmentOps}.
Context (env : Env).
Implicit Types (fr : Frame CA) (w : Worker) (asg : Assignment).

Lemma construction_admitted_spec fr b loc dep gas minerals :
  Dict.get (f_dependencies fr) b = Some dep ->
  Dict.get (f_positions fr) (OResource GAS) = Some gas ->
  Dict.get (f_positions fr) (OResource MINERALS) = Some minerals ->
  exists ok,
    construction_admitted env fr b loc = Ok ok
    /\ (ok = true <->
        cost env b ⊆ f_resources fr
        /\ (loc ∉ Dict.keys (f_building_positions fr))
        /\ dep = None
        /\ (b = Assimilator -> loc = gas)
        /\ (b ≠ Assimilator -> loc ≠ gas /\ loc ≠ minerals)).
Proof.
  intros Hdep Hgas Hmin. unfold construction_admitted. rewrite Hdep. simpl.
  destruct (building_allowed_spec b dep (Dict.keys (f_building_positions fr))
              (counter_bool (cost env b ∖ f_resources fr)) (f_positions fr)
              loc gas minerals Hgas Hmin) as (ok & Hok & Hiff).
  exists ok. split; [done|]. rewrite Hiff.
  by rewrite insufficient_resources_spec.
Qed.

(** C3, as the code has it.  With the dependency of the Assimilator
    [None], as [build_dependencies] always sets it, an Assimilator is
    admitted exactly when the resources cover its cost, no building stands
    on the target tile, and the target tile is the gas tile; off the gas
    tile it is refused whatever the resources. *)
Theorem assimilator_admission fr loc gas :
  Dict.get (f_dependencies fr) Assimilator = Some None ->
  Dict.get (f_positions fr) (OResource GAS) = Some gas ->
  (construction_admitted env fr Assimilator loc = Ok true <->
     cost env Assimilator ⊆ f_resources fr
     /\ (loc ∉ Dict.keys (f_building_positions fr))
     /\ loc = gas)
  /\ (loc ≠ gas -> construction_admitted env fr Assimilator loc = Ok false).
Proof.
  intros Hdep Hgas. unfold construction_admitted. rewrite Hdep. simpl.
  unfold building_allowed. rewrite Hgas. simpl.
  pose proof (insufficient_resources_spec (cost env Assimilator) (f_resources fr))
    as Hins.
  destruct (counter_bool _); simpl.
  { split; [split; [done|] | done]. intros (Hc & _). apply Hins in Hc. done. }
  assert (cost env Assimilator ⊆ f_resources fr) as Hc by by apply Hins.
  destruct (bool_decide_reflect (loc ∈ Dict.keys (f_building_positions fr)));
    simpl.
  { split; [split; [done|] | done]. intros (_ & ? & _). done. }
  rewrite bool_decide_true by (by apply (dependency_test None)). simpl.
  split.
  - split.
    + intros [= Heq]. apply bool_decide_eq_true in Heq. done.
    + intros (_ & _ & ->). by rewrite bool_decide_true.
  - intros Hne. by rewrite bool_decide_false.
Qed.

(** C8, as the code has it.  A movement puts the worker on its new tile and
    leaves the buildings alone.  The count of a resource goes up by exactly
    one when the new tile holds a Nexus and the tile the worker left is the
    position of that resource (for gas: with an Assimilator on it), and
    stays as it was otherwise.  The assignment of the worker has no part in
    this. *)
Theorem movement_gathers fr w asg wp delta minerals gas :
  Dict.get (f_positions fr) (OWorker w) = Some wp ->
  assignment_action asg wp (f_positions fr) (f_nexus_positions fr)
    = Movement delta ->
  Dict.get (f_positions fr) (OResource MINERALS) = Some minerals ->
  Dict.get (f_positions fr) (OResource GAS) = Some gas ->
  exists fr',
    resolve_worker env fr (w, asg) = Ok fr'
    /\ f_building_positions fr' = f_building_positions fr
    /\ f_positions fr'
       = Dict.set (f_positions fr) (OWorker w) (coord_add wp delta)
    /\ multiplicity MINERALS (f_resources fr')
       = multiplicity MINERALS (f_resources fr)
         + (if bool_decide
                 (Dict.get (f_building_positions fr) (coord_add wp delta)
                  = Some Nexus /\ minerals = wp)
            then 1 else 0)
    /\ multiplicity GAS (f_resources fr')
       = multiplicity GAS (f_resources fr)
         + (if bool_decide
                 (Dict.get (f_building_positions fr) (coord_add wp delta)
                  = Some Nexus /\ gas = wp
                  /\ Dict.get (f_building_positions fr) wp = Some Assimilator)
            then 1 else 0).
Proof.
  intros Hwp Hact Hmin Hgas.
  rewrite (resolve_worker_movement env _ _ _ _ _ Hwp Hact). cbv zeta.
  destruct (decide (Dict.get (f_building_positions fr) (coord_add wp delta)
                    = Some Nexus)) as [Hnexus|Hnexus].
  2: { eexists. split; [done|]. simpl.
       rewrite !bool_decide_false by tauto. repeat split; lia. }
  unfold gather_all, gathered_resource. simpl.
  rewrite !get_set, !decide_False by done. rewrite Hmin, Hgas. simpl.
  eexists. split; [done|]. simpl. split; [done|]. split; [done|].
  destruct (decide (minerals = wp)) as [Hm|Hm];
    destruct (decide (gas = wp)) as [Hg|Hg];
    destruct (decide (Dict.get (f_building_positions fr) wp = Some Assimilator))
      as [Ha|Ha];
    rewrite ?(bool_decide_true (minerals = wp)), ?(bool_decide_false (minerals = wp)),
      ?(bool_decide_true (gas = wp)), ?(bool_decide_false (gas = wp)),
      ?(bool_decide_true (_ = Some Assimilator)),
      ?(bool_decide_false (_ = Some Assimilator)) by done;
    simpl;
    rewrite ?multiplicity_disj_union, ?multiplicity_singleton;
    split; (rewrite bool_decide_true by tauto) || (rewrite bool_decide_false by tauto);
    repeat case_decide; try done; lia.
Qed.
End Workers.

(** ** Destruction *)

Lemma Qltb_zero (u p : Q) : p == 0 -> (0 <= Qnum u)%Z -> Qltb u p = false.
Proof.
  intros Hp Hu. unfold Qltb. apply negb_false_iff, Qle_bool_iff.
  unfold Qeq in Hp. unfold Qle. simpl in Hp. nia.
Qed.

Lemma destroyed_buildings_none p items g :
  p == 0 -> (destroyed_buildings p items g).1 = [].
Proof.
  intros Hp. revert g. induction items as [|[c b] items IH]; intros g; simpl;
    [done|].
  pose proof (random_unit_draw g) as [_ [Hu _]].
  destruct (random g) as [u g1]. simpl in Hu.
  specialize (IH g1). destruct (destroyed_buildings p items g1) as [ds g2].
  simpl in *. subst ds. by rewrite (Qltb_zero u p Hp Hu).
Qed.

Lemma destroyed_buildings_elem p items g c b :
  (c, b) ∈ (destroyed_buildings p items g).1 -> (c, b) ∈ items /\ b ≠ Nexus.
Proof.
  revert g. induction items as [|[c0 b0] items IH]; intros g; simpl.
  - intros H. by apply elem_of_nil in H.
  - destruct (random g) as [u g1]. specialize (IH g1).
    destruct (destroyed_buildings p items g1) as [ds g2]. simpl in *.
    destruct (Qltb u p); simpl.
    + destruct (bool_decide_reflect (b0 ≠ Nexus)) as [Hb|Hb].
      * rewrite elem_of_cons. intros [[= -> ->] | H].
        -- split; [left | done].
        -- destruct (IH H). split; [by right | done].
      * intros H. destruct (IH H). split; [by right | done].
    + intros H. destruct (IH H). split; [by right | done].
Qed.

Lemma foldl_del_NoDup {K V : Type} `{EqDecision K} (d : Dict.t K V) (ks : list K) :
  NoDup (Dict.keys d) -> NoDup (Dict.keys (foldl Dict.del d ks)).
Proof.
  revert d. induction ks as [|k ks IH]; intros d Hd; simpl; [done|].
  apply IH. by apply keys_del_NoDup.
Qed.

Lemma foldl_del_get {K V : Type} `{EqDecision K} (d : Dict.t K V) (ks : list K) k :
  NoDup (Dict.keys d) -> k ∉ ks ->
  Dict.get (foldl Dict.del d ks) k = Dict.get d k.
Proof.
  revert d. induction ks as [|k0 ks IH]; intros d Hd Hk; simpl; [done|].
  apply not_elem_of_cons in Hk as [Hne Hk].
  rewrite IH by (by apply keys_del_NoDup || done).
  rewrite get_del by done. by rewrite decide_False.
Qed.

Lemma nexus_standing_destroyed p bp g :
  nexus_standing bp ->
  nexus_standing (foldl Dict.del bp (destroyed_buildings p bp g).1.*1).
Proof.
  intros [Hnd [q Hq]]. split; [by apply foldl_del_NoDup|].
  exists q. rewrite foldl_del_get; [done | done |].
  intros Hin. apply list_elem_of_fmap in Hin as ([c b] & -> & Hin).
  apply destroyed_buildings_elem in Hin as [Hin Hb]. simpl in Hq.
  apply (get_NoDup _ _ _ Hnd) in Hin. congruence.
Qed.

Lemma nexus_standing_positions bp :
  nexus_standing bp ->
  (List.filter (fun pb : Coord * Building => bool_decide (pb.2 = Nexus)) bp).*1 ≠ [].
Proof.
  intros [_ [q Hq]] Hnil. apply get_Some_elem_of in Hq.
  apply fmap_nil_inv in Hnil.
  assert ((q, Nexus) ∈ List.filter
            (fun pb : Coord * Building => bool_decide (pb.2 = Nexus)) bp) as Hin.
  { apply list_elem_of_In, filter_In. split; [by apply list_elem_of_In|].
    by apply bool_decide_eq_true. }
  rewrite Hnil in Hin. by apply elem_of_nil in Hin.
Qed.

Lemma nexus_standing_value bp : nexus_standing bp -> Nexus ∈ Dict.values bp.
Proof. intros [_ [q Hq]]. by eapply get_Some_value. Qed.

Lemma nexus_standing_append bp loc b :
  nexus_standing bp -> loc ∉ Dict.keys bp -> nexus_standing (bp ++ [(loc, b)]).
Proof.
  intros [Hnd [q Hq]] Hloc. split.
  - unfold Dict.keys in *. rewrite fmap_app. simpl.
    apply NoDup_app. split; [done|]. split; [|apply NoDup_singleton].
    intros x Hx Hx'. apply list_elem_of_singleton in Hx'. by subst.
  - exists q. by rewrite get_app, Hq.
Qed.

(** ** Ticks *)

Section Ticks.
Context {CA Raw : Type} `{decoder : !CompoundActionOps CA Raw}
  `{resolver : !AssignmentOps}.
Context (env : Env).
Implicit Types (fr : Frame CA) (w : Worker) (asg : Assignment).

(** Under [builds_in_place] a worker leaves the buildings as they are or
    adds one on a tile that held none. *)
Lemma resolve_worker_buildings fr w asg fr' :
  builds_in_place ->
  resolve_worker env fr (w, asg) = Ok fr' ->
  f_required fr' = f_required fr
  /\ (f_building_positions fr' = f_building_positions fr
      \/ exists loc b,
           (loc ∉ Dict.keys (f_building_positions fr))
           /\ f_building_positions fr' = f_building_positions fr ++ [(loc, b)]).
Proof.
  intros Hplace H.
  split; [by apply resolve_worker_control in H as (_ & _ & _ & ? & _)|].
  destruct (Dict.get (f_positions fr) (OWorker w)) as [wp|] eqn:Hwp.
  2: { unfold resolve_worker in H. cbn [fst snd] in H. rewrite Hwp in H.
       done. }
  destruct (assignment_action asg wp (f_positions fr) (f_nexus_positions fr))
    as [delta|b|] eqn:Hact.
  - rewrite (resolve_worker_movement env _ _ _ _ _ Hwp Hact) in H.
    cbv zeta in H. left.
    destruct (decide _); [inv_Ok H|]; by inversion H.
  - destruct asg as [rsc|b0 loc].
    { unfold resolve_worker in H. cbn [fst snd] in H. rewrite Hwp in H.
      simpl in H. rewrite Hact in H.
      by destruct (or_raise KeyError (Dict.get (f_dependencies fr) b)). }
    rewrite (resolve_worker_build env _ _ _ _ _ _ Hwp Hact) in H.
    inv_Ok H. destruct x; inversion H; subst; [|by left].
    right. unfold construction_admitted in Hx. inv_Ok Hx.
    apply building_allowed_true in Hx as (_ & Hloc & _).
    apply Hplace in Hact. subst wp.
    exists loc, b. split; [done|]. simpl. by apply set_fresh.
  - unfold resolve_worker in H. cbn [fst snd] in H. rewrite Hwp in H.
    simpl in H. by rewrite Hact in H.
Qed.

(** What a tick leaves in place between the frame that received the action
    and the frame at the end of the loop over the workers. *)
Lemma resume_buildings fr a fr' :
  builds_in_place ->
  resume env fr a = Ok fr' ->
  f_required fr' = f_required fr
  /\ (exists extra,
        f_building_positions fr' = f_building_positions fr ++ extra)
  /\ (nexus_standing (f_building_positions fr) ->
      nexus_standing (f_building_positions fr')).
Proof.
  intros Hplace H. unfold resume in H.
  eapply (foldM_invariant
            (fun fr'' : Frame CA =>
               f_required fr'' = f_required fr
               /\ (exists extra,
                     f_building_positions fr''
                     = f_building_positions fr ++ extra)
               /\ (nexus_standing (f_building_positions fr) ->
                   nexus_standing (f_building_positions fr'')))) in H;
    [exact H | | ].
  - intros fr1 [w asg] fr2 (Hreq & [extra Hex] & Hnx) Hres.
    apply (resolve_worker_buildings _ _ _ _ Hplace) in Hres as [Hreq' Hbp].
    split; [congruence|].
    destruct Hbp as [-> | (loc & b & Hloc & ->)]; [by eauto|].
    split.
    + exists (extra ++ [(loc, b)]). by rewrite Hex, app_assoc.
    + intros Hs. by apply nexus_standing_append; [apply Hnx|].
  - simpl. split; [done|]. split; [|done]. exists []. by rewrite app_nil_r.
Qed.

Lemma resume_control fr a fr' :
  resume env fr a = Ok fr' ->
  f_assignments fr' = Dict.set (f_assignments fr) (worker a) (assignment a)
  /\ f_time_remaining fr' = (f_time_remaining fr - 1)%Z
  /\ f_ptr fr' = ptr a
  /\ f_action fr' = a
  /\ f_dependencies fr' = f_dependencies fr.
Proof.
  unfold resume. set (fr1 := mkFrame _ _ _ _ _ _ _ _ _ _ _). intros H.
  eapply (foldM_invariant (same_control fr1)) in H;
    [| |apply same_control_refl].
  - destruct H as (? & ? & _ & _ & ? & ? & ? & _). by repeat split.
  - intros fr2 [w asg] fr3 Hsc Hres.
    eapply same_control_trans; [exact Hsc|].
    eapply resolve_worker_control; eauto.
Qed.

Lemma resume_Raise fr a e : resume env fr a = Raise e -> e <> AssertionError.
Proof.
  unfold resume. intros H.
  eapply (foldM_Raise (fun _ => True) (fun e => e <> AssertionError)) in H;
    [done | done | | done].
  intros fr1 [w asg] e' _ He. by eapply resolve_worker_Raise.
Qed.

Lemma emit_Ok fr g st fr' g' :
  emit env fr g = Ok (st, fr', g') ->
  building_positions st = after_destruction env fr g
  /\ f_building_positions fr' = after_destruction env fr g
  /\ success st
     = negb (counter_bool
               (f_required fr ∖ counter_of (Dict.values (after_destruction env fr g))))
  /\ positions st = f_positions fr
  /\ resources st = f_resources fr
  /\ time_remaining st = f_time_remaining fr
  /\ action st = f_action fr
  /\ pointer st = f_ptr fr
  /\ f_required fr' = f_required fr
  /\ f_positions fr' = f_positions fr
  /\ f_resources fr' = f_resources fr
  /\ f_assignments fr' = f_assignments fr
  /\ f_dependencies fr' = f_dependencies fr
  /\ f_time_remaining fr' = f_time_remaining fr.
Proof.
  unfold emit, after_destruction. intros H.
  destruct (destroyed_buildings _ _ g) as [destroyed g1]. simpl.
  destruct (decide _); [done|]. inv_Ok H. inversion H; subst.
  simpl. by repeat split.
Qed.

Lemma emit_Raise fr g e :
  nexus_standing (f_building_positions fr) ->
  emit env fr g = Raise e -> e <> AssertionError.
Proof.
  intros Hs. unfold emit.
  pose proof (nexus_standing_destroyed (destroy_building_prob env) _ g Hs) as Hs'.
  apply nexus_standing_positions in Hs'.
  destruct (destroyed_buildings _ _ g) as [destroyed g1]. simpl in Hs'.
  destruct (decide _); [done|]. intros H.
  apply rbind_Raise in H as [H | (? & _ & H)]; [|done].
  eapply (foldM_Raise (fun _ => True) (fun e => e <> AssertionError)) in H;
    [done | done | | done].
  intros na wa e' _ He.
  apply rbind_Raise in He as [He | (? & _ & He)]; [|done].
  apply or_raise_Raise in He. congruence.
Qed.

Lemma after_destruction_none fr g :
  destroy_building_prob env == 0 ->
  after_destruction env fr g = f_building_positions fr.
Proof.
  intros Hp. unfold after_destruction.
  by rewrite destroyed_buildings_none.
Qed.

Lemma success_extends (req : Counter Building) (bp extra : Dict.t Coord Building) :
  negb (counter_bool (req ∖ counter_of (Dict.values bp))) = true ->
  negb (counter_bool (req ∖ counter_of (Dict.values (bp ++ extra)))) = true.
Proof.
  rewrite !negb_true_iff. unfold counter_bool.
  rewrite !bool_decide_eq_false. intros H Hne. apply H. intros He.
  apply Hne. unfold counter_of, Dict.values in *.
  rewrite fmap_app, list_to_set_disj_app. multiset_solver.
Qed.

(** C6.  When [destroy_building_prob] is [0] and buildings go up where the
    workers stand, a state whose success flag is set is followed by states
    whose success flag is set, for as many ticks as the episode goes on. *)
Theorem success_monotone fr0 g0 st0 fr g acts sts :
  destroy_building_prob env == 0 ->
  builds_in_place ->
  emit env fr0 g0 = Ok (st0, fr, g) ->
  success st0 = true ->
  ticks env fr acts g = Ok sts ->
  Forall (fun st => success st = true) sts.
Proof.
  intros Hp Hplace Hemit Hsucc Hticks.
  apply emit_Ok in Hemit as (_ & Hbp & Hs & _ & _ & _ & _ & _ & Hreq & _).
  rewrite Hs in Hsucc. rewrite <- Hbp, <- Hreq in Hsucc. clear Hs Hbp Hreq.
  revert fr g sts Hsucc Hticks.
  induction acts as [|a acts IH]; intros fr g sts Hsucc Hticks;
    simpl in Hticks.
  - inversion Hticks. constructor.
  - inv_Ok Hticks. destruct x0 as [[st fr2] g2]. simpl in *.
    inv_Ok Hticks. inversion Hticks; subst sts.
    apply (resume_buildings _ _ _ Hplace) in Hx as (Hreq & [extra Hex] & _).
    apply emit_Ok in Hx0 as (_ & Hbp & Hs & _ & _ & _ & _ & _ & Hreq2 & _).
    rewrite after_destruction_none in Hbp, Hs by done.
    assert (success st = true) as Hst.
    { rewrite Hs, Hreq, Hex. by apply success_extends. }
    constructor; [done|].
    apply (IH fr2 g2); [|done].
    rewrite Hreq2, Hbp. by rewrite <- Hs.
Qed.
End Ticks.

(** ** A construction that is refused *)

Lemma foldM_app {A B : Type} (f : B -> A -> result B) (l1 l2 : list A)
    (b b' : B) :
  foldM f (l1 ++ l2) b = Ok b' ->
  exists b1, foldM f l1 b = Ok b1 /\ foldM f l2 b1 = Ok b'.
Proof.
  revert b. induction l1 as [|a l1 IH]; intros b H; simpl in *.
  - by exists b.
  - apply rbind_Ok in H as (b0 & Hb0 & H). rewrite Hb0. simpl. by apply IH.
Qed.

Section Refused.
Context {CA Raw : Type} `{decoder : !CompoundActionOps CA Raw}
  `{resolver : !AssignmentOps}.
Context (env : Env).

(** The loop over the workers never writes the assignments. *)
Lemma foldM_resolve_worker_assignments (l : list (Worker * Assignment))
    (fr fr' : Frame CA) :
  foldM (resolve_worker env) l fr = Ok fr' ->
  f_assignments fr' = f_assignments fr.
Proof.
  apply (foldM_invariant
           (fun fr1 : Frame CA => f_assignments fr1 = f_assignments fr));
    [|done].
  intros fr1 [w asg] fr2 Hfr1 Hstep.
  apply resolve_worker_control in Hstep as (_ & Hasg & _). congruence.
Qed.

(** Every assignment that the generator holds after the action has been
    taken in is resolved in the tick. *)
Lemma resume_resolves (fr : Frame CA) (a : CA) (fr' : Frame CA)
    (wa : Worker * Assignment) :
  resume env fr a = Ok fr' ->
  wa ∈ f_assignments (received fr a) ->
  resolved_in_tick env fr a wa fr'.
Proof.
  intros H Hin.
  change (foldM (resolve_worker env)
            (sorted_by_flag (fun wa => is_build_order wa.2)
               (f_assignments (received fr a)))
            (received fr a) = Ok fr') in H.
  apply (elem_of_sorted_by_flag (fun wa => is_build_order wa.2)) in Hin.
  apply list_elem_of_split in Hin as (pre & post & Hsplit).
  rewrite Hsplit in H. apply foldM_app in H as (fr1 & Hpre & H).
  simpl in H. apply rbind_Ok in H as (fr2 & Hstep & Hpost).
  by exists pre, post, fr1, fr2.
Qed.

(** C7.  A construction attempt that fails an admission condition
    (resources that do not cover the cost, a target tile that already holds
    a building, a dependency that is not standing, an Assimilator off the
    gas tile, another building on the gas or the minerals tile) is dropped:
    resolving the worker raises nothing and returns the frame as it was,
    building positions, resources and assignments included.  The build
    order stays in place: whatever workers the loop still resolves in this
    tick, the generator is suspended with the order among its assignments,
    and unless the action that it is sent then re-assigns this worker, the
    next tick resolves the same worker with the same order, and ends with
    the order still in place. *)
Theorem failed_construction_dropped (fr : Frame CA) w b0 loc wp b dep gas
    minerals :
  Dict.get (f_positions fr) (OWorker w) = Some wp ->
  assignment_action (BuildOrder b0 loc) wp (f_positions fr)
    (f_nexus_positions fr) = Build b ->
  Dict.get (f_dependencies fr) b = Some dep ->
  Dict.get (f_positions fr) (OResource GAS) = Some gas ->
  Dict.get (f_positions fr) (OResource MINERALS) = Some minerals ->
  (~ cost env b ⊆ f_resources fr
   \/ loc ∈ Dict.keys (f_building_positions fr)
   \/ (exists d, dep = Some d /\ d ∉ Dict.values (f_building_positions fr))
   \/ (b = Assimilator /\ loc ≠ gas)
   \/ (b ≠ Assimilator /\ (loc = gas \/ loc = minerals))) ->
  resolve_worker env fr (w, BuildOrder b0 loc) = Ok fr
  /\ (Dict.get (f_assignments fr) w = Some (BuildOrder b0 loc) ->
      forall rest fr0 g st fr1 g1 a fr2,
        foldM (resolve_worker env) rest fr = Ok fr0 ->
        emit env fr0 g = Ok (st, fr1, g1) ->
        worker a ≠ w ->
        resume env fr1 a = Ok fr2 ->
        Dict.get (f_assignments fr1) w = Some (BuildOrder b0 loc)
        /\ resolved_in_tick env fr1 a (w, BuildOrder b0 loc) fr2
        /\ Dict.get (f_assignments fr2) w = Some (BuildOrder b0 loc)).
Proof.
  intros Hwp Hact Hdep Hgas Hmin Hfail. split.
  - rewrite (resolve_worker_build env _ _ _ _ _ _ Hwp Hact).
    destruct (construction_admitted_spec env fr b loc dep gas minerals
                Hdep Hgas Hmin) as (ok & -> & Hiff).
    simpl. destruct ok; [|done].
    destruct Hiff as [Hiff _].
    destruct (Hiff eq_refl) as (? & ? & ? & ? & ?).
    destruct Hfail as [? | [? | [(d & ? & _) | [[? ?] | [? [? | ?]]]]]];
      try done; try congruence; intuition congruence.
  - intros Hasg rest fr0 g st fr1 g1 a fr2 Hrest Hemit Ha Hresume.
    apply foldM_resolve_worker_assignments in Hrest.
    apply emit_Ok in Hemit
      as (_ & _ & _ & _ & _ & _ & _ & _ & _ & _ & _ & Hyield & _).
    assert (Dict.get (f_assignments fr1) w = Some (BuildOrder b0 loc))
      as Hasg1 by (by rewrite Hyield, Hrest).
    assert (Dict.get (Dict.set (f_assignments fr1) (worker a) (assignment a)) w
            = Some (BuildOrder b0 loc)) as Hasg2.
    { rewrite get_set. by rewrite decide_False. }
    split; [done|]. split.
    + apply resume_resolves; [done|]. simpl. by apply get_Some_elem_of.
    + apply resume_control in Hresume as (-> & _). done.
Qed.

End Refused.

(** ** The initial placement *)

Lemma buildings_of_elem placed p b :
  (p, b) ∈ buildings_of placed <-> (WBuilding b, p) ∈ placed.
Proof.
  unfold buildings_of. rewrite list_elem_of_omap. split.
  - intros ([o q] & Hin & Heq). simpl in Heq. destruct o; by simplify_eq.
  - intros Hin. by exists (WBuilding b, p).
Qed.

Lemma choice_buildings_Raise bs k g e :
  choice_buildings bs k g = Raise e -> e = ValueError.
Proof.
  revert g. induction k as [|k IH]; intros g; simpl; [done|].
  destruct (choice_below _ g) as [i g1]. intros H.
  apply rbind_Raise in H as [H | (? & _ & H)]; [by apply or_raise_Raise in H|].
  apply rbind_Raise in H as [H | ([? ?] & _ & H)]; [eauto | done].
Qed.

Lemma initial_buildings_Raise env occupied gas fuel g e :
  initial_buildings env occupied gas fuel g = Raise e -> e <> AssertionError.
Proof.
  revert g. induction fuel as [|fuel IH]; intros g; simpl; [congruence|].
  destruct (choice_coords _ _ g) as [initial_pos g1].
  destruct (existsb _ initial_pos); [by apply IH|]. intros H.
  apply rbind_Raise in H as [H | ([? ?] & _ & H)]; [|done].
  apply choice_buildings_Raise in H. congruence.
Qed.

Lemma initial_buildings_Ok env occupied gas fuel g placed g' :
  initial_buildings env occupied gas fuel g = Ok (placed, g') ->
  forall o p, (o, p) ∈ placed ->
    exists b, o = WBuilding b /\ (p = gas \/ p ∉ occupied).
Proof.
  revert g. induction fuel as [|fuel IH]; intros g; simpl; [done|].
  destruct (choice_coords _ _ g) as [initial_pos g1].
  destruct (existsb _ initial_pos) eqn:Hex; [by apply IH|]. intros H.
  inv_Ok H. destruct x as [bs g2]. inversion H; subst placed g'. clear H.
  intros o p Hin. apply list_elem_of_fmap in Hin as ([b q] & Heq & Hin).
  simpl in Heq. inversion Heq; subst o p. exists b. split; [done|].
  case_decide; [by left | right].
  apply elem_of_zip_r in Hin. simpl in Hin. intros Hocc.
  assert (existsb (fun p => bool_decide (p ∈ occupied)) initial_pos = true);
    [|congruence].
  apply existsb_exists. exists q.
  split; [by apply list_elem_of_In | by apply bool_decide_eq_true].
Qed.

Lemma place_objects_Raise env fuel g e :
  place_objects env fuel g = Raise e -> e <> AssertionError.
Proof.
  unfold place_objects. destruct (decide _); [congruence|].
  destruct (choice_below _ g) as [ni g1]. destruct (choice_below _ g1) as [nj g2].
  destruct (decide _); [congruence|].
  destruct (choice_below _ g2) as [m g3]. destruct (choice_below _ g3) as [k g4].
  intros H.
  apply rbind_Raise in H as [H | (minerals & _ & H)];
    [apply or_raise_Raise in H; congruence|].
  apply rbind_Raise in H as [H | (gas & _ & H)];
    [apply or_raise_Raise in H; congruence|].
  destruct (random g4) as [u g5].
  apply rbind_Raise in H as [H | ([? ?] & _ & H)]; [|done].
  by apply initial_buildings_Raise in H.
Qed.

(** The buildings that [place_objects] yields start with the Nexus, and no
    later one shares its tile. *)
Lemma place_objects_nexus env fuel g placed g' :
  place_objects env fuel g = Ok (placed, g') ->
  exists nexus rest,
    buildings_of placed = (nexus, Nexus) :: rest
    /\ forall p b, (p, b) ∈ rest -> p ≠ nexus.
Proof.
  unfold place_objects. destruct (decide _); [done|].
  destruct (choice_below _ g) as [ni g1]. destruct (choice_below _ g1) as [nj g2].
  set (nexus := (Z.of_nat ni, Z.of_nat nj)).
  set (resource_locations := List.filter _ _).
  destruct (decide _); [done|].
  destruct (choice_below _ g2) as [m g3]. destruct (choice_below _ g3) as [k g4].
  intros H. inv_Ok H. rename x into minerals, x0 into gas.
  apply or_raise_Ok in Hx, Hx0.
  destruct (random g4) as [u g5]. inv_Ok H. destruct x as [initial g6].
  inversion H; subst placed g'. clear H.
  assert (gas ≠ nexus) as Hgas.
  { apply list_elem_of_lookup_2, list_elem_of_delete_inv in Hx0.
    apply list_elem_of_In, filter_In in Hx0 as [Hx0 _].
    simpl in Hx0. unfold coord_add, nexus in Hx0. simpl in Hx0.
    intros ->. destruct Hx0 as [Hx0|[Hx0|[Hx0|[Hx0|[]]]]];
      inversion Hx0; lia. }
  exists nexus.
  eexists. split.
  - unfold buildings_of. simpl. f_equal.
  - intros p b Hin.
    change (omap _ ?l) with (buildings_of l) in Hin.
    apply buildings_of_elem in Hin.
    rewrite elem_of_app, !elem_of_cons, elem_of_app in Hin.
    destruct Hin as [Hin | [Hin | [Hin | [Hin | Hin]]]]; [|done|done| |].
    + apply list_elem_of_fmap in Hin as (w & Hw & _). done.
    + destruct (Qltb u (assimilator_prob env)).
      * apply list_elem_of_singleton in Hin. by inversion Hin; subst.
      * by apply elem_of_nil in Hin.
    + apply (initial_buildings_Ok _ _ _ _ _ _ _ Hx1) in Hin
        as (b' & _ & [-> | Hp]); [done|].
      intros ->. apply Hp. left.
Qed.

Lemma of_list_head_get {K V : Type} `{EqDecision K} (k : K) (v : V)
    (rest : list (K * V)) :
  (forall k' v', (k', v') ∈ rest -> k' ≠ k) ->
  Dict.get (Dict.of_list ((k, v) :: rest)) k = Some v.
Proof.
  intros Hrest. rewrite get_of_list, reverse_cons, get_app.
  destruct (Dict.get (reverse rest) k) as [v'|] eqn:E.
  - apply get_Some_elem_of in E. rewrite elem_of_reverse in E.
    by apply Hrest in E.
  - simpl. by rewrite decide_True.
Qed.

(** ** A Nexus is always standing *)

Section NexusStanding.
Context {CA Raw : Type} `{decoder : !CompoundActionOps CA Raw}
  `{resolver : !AssignmentOps}.
Context (env : Env).
Implicit Types (fr : Frame CA).

Lemma state_generator_init_Raise lines deps fuel g e :
  state_generator_init (CA := CA) env lines deps fuel g = Raise e ->
  e <> AssertionError.
Proof.
  unfold state_generator_init. intros H.
  apply rbind_Raise in H as [H | ([? ?] & _ & H)]; [|done].
  by apply place_objects_Raise in H.
Qed.

Lemma state_generator_init_nexus lines deps fuel g fr g' :
  state_generator_init env lines deps fuel g = Ok (fr, g') ->
  nexus_standing (f_building_positions fr).
Proof.
  unfold state_generator_init. intros H. inv_Ok H.
  destruct x as [placed g1]. inversion H; subst fr g'. simpl.
  change (omap _ placed) with (buildings_of placed) at 1.
  destruct (place_objects_nexus _ _ _ _ _ Hx) as (nexus & rest & -> & Hrest).
  split; [apply keys_of_list_NoDup|].
  exists nexus. by apply of_list_head_get.
Qed.

Lemma emit_nexus fr g st fr' g' :
  nexus_standing (f_building_positions fr) ->
  emit env fr g = Ok (st, fr', g') ->
  nexus_standing (building_positions st)
  /\ nexus_standing (f_building_positions fr').
Proof.
  intros Hs H. apply emit_Ok in H as (-> & -> & _).
  split; by apply nexus_standing_destroyed.
Qed.

Lemma ticks_nexus fr acts g :
  builds_in_place ->
  nexus_standing (f_building_positions fr) ->
  ticks env fr acts g <> Raise AssertionError
  /\ forall sts, ticks env fr acts g = Ok sts ->
       Forall (fun st => nexus_standing (building_positions st)) sts.
Proof.
  intros Hplace. revert fr g.
  induction acts as [|a acts IH]; intros fr g Hs; simpl.
  - split; [done|]. intros sts [= <-]. constructor.
  - destruct (resume env fr a) as [fr1|e] eqn:Hres; simpl.
    2: { split; [|done]. intros [= ->]. by apply resume_Raise in Hres. }
    apply (resume_buildings _ _ _ _ Hplace) in Hres as (_ & _ & Hs1).
    specialize (Hs1 Hs).
    destruct (emit env fr1 g) as [[[st fr2] g2]|e] eqn:Hemit; simpl.
    2: { split; [|done]. intros [= ->]. by apply emit_Raise in Hemit. }
    apply (emit_nexus _ _ _ _ _ Hs1) in Hemit as [Hst Hs2].
    destruct (IH fr2 g2 Hs2) as [Hno Hall].
    destruct (ticks env fr2 acts g2) as [rest|e]; simpl.
    + split; [done|]. intros sts [= <-]. constructor; [done | by apply Hall].
    + split; [|done]. intros [= ->]. done.
Qed.

(** C10.  With buildings going up where the workers stand, every state that
    [state_generator] yields has a Nexus among its buildings, on a tile of
    its own, and the assertion on [nexus_positions] never fails. *)
Theorem nexus_always_standing lines deps fuel acts g :
  builds_in_place ->
  state_generator env lines deps fuel acts g <> Raise AssertionError
  /\ forall sts, state_generator env lines deps fuel acts g = Ok sts ->
       Forall (fun st : State CA => Nexus ∈ Dict.values (building_positions st))
              sts.
Proof.
  intros Hplace. unfold state_generator.
  destruct (state_generator_init env lines deps fuel g) as [[fr0 g0]|e] eqn:Hinit;
    simpl.
  2: { split; [|done]. intros [= ->].
       by apply state_generator_init_Raise in Hinit. }
  apply state_generator_init_nexus in Hinit.
  destruct (emit env fr0 g0) as [[[st fr1] g1]|e] eqn:Hemit; simpl.
  2: { split; [|done]. intros [= ->]. by apply emit_Raise in Hemit. }
  apply (emit_nexus _ _ _ _ _ Hinit) in Hemit as [Hst Hs1].
  destruct (ticks_nexus fr1 acts g1 Hplace Hs1) as [Hno Hall].
  destruct (ticks env fr1 acts g1) as [rest|e]; simpl.
  - split; [done|]. intros sts [= <-].
    constructor; [by apply nexus_standing_value|].
    eapply Forall_impl; [by apply Hall|].
    intros st'. apply nexus_standing_value.
  - split; [|done]. intros [= ->]. done.
Qed.
End NexusStanding.

(** ** Steps of the episode *)

Section Episode.
Context {CA Raw : Type} `{decoder : !CompoundActionOps CA Raw}
  `{resolver : !AssignmentOps}.
Context (env : Env).
Implicit Types (sr : Srti CA) (a : Raw).

Lemma srti_outputs_Ok sr out :
  srti_outputs env sr = Ok out ->
  observation out = r_state sr
  /\ done out = success (r_state sr)
                || bool_decide (time_remaining (r_state sr) = 0%Z).
Proof. unfold srti_outputs. intros H. inv_Ok H. by inversion H. Qed.

(** In training mode [info_generator] raises nothing. *)
Lemma srti_outputs_training sr :
  evaluating env = false -> exists out, srti_outputs env sr = Ok out.
Proof.
  intros Hev. unfold srti_outputs, info_generator. rewrite Hev.
  destruct (done_generator _); simpl; eauto.
Qed.

(** In evaluation mode the step that ends the episode raises: with the
    success flag down [info_generator] gets past its assertion and then
    reads a key that is not in [info]. *)
Lemma srti_outputs_evaluating sr :
  evaluating env = true ->
  success (r_state sr) = false ->
  time_remaining (r_state sr) = 0%Z ->
  srti_outputs env sr = Raise KeyError.
Proof.
  intros Hev Hs Ht. unfold srti_outputs, info_generator, done_generator.
  rewrite Hev, Hs, Ht. done.
Qed.

(** In evaluation mode no call of [reset] or [step] ever returns the flag
    [True]: the call that would, raises. *)
Lemma srti_outputs_evaluating_Ok sr out :
  evaluating env = true -> srti_outputs env sr = Ok out -> done out = false.
Proof.
  intros Hev. unfold srti_outputs, info_generator. rewrite Hev.
  destruct (done_generator (r_state sr)); simpl.
  - by destruct (_ && _).
  - by intros [= <-].
Qed.

Lemma step_evaluating sr a g sr' out g' :
  evaluating env = true -> step env sr a g = Ok (sr', out, g') ->
  done out = false.
Proof.
  intros Hev. unfold step. intros H. inv_Ok H. destruct x as [sr1 g1].
  inv_Ok H. inversion H; subst. by eapply srti_outputs_evaluating_Ok.
Qed.

(** C2, as the code has it.  A step whose compound action is still
    incomplete does not advance the turn simulator: the frame of
    [state_generator], the generator, the building positions and the
    resources are as before.  The countdown of the state stays in training
    mode and goes down by one in evaluation mode.  In training mode such a
    step always returns. *)
Theorem partial_action_step sr a g :
  is_op (update (r_action sr) a) = false ->
  (forall sr' out g',
      step env sr a g = Ok (sr', out, g') ->
      g' = g
      /\ r_frame sr' = r_frame sr
      /\ building_positions (observation out) = building_positions (r_state sr)
      /\ resources (observation out) = resources (r_state sr)
      /\ time_remaining (observation out)
         = if evaluating env then (time_remaining (r_state sr) - 1)%Z
           else time_remaining (r_state sr))
  /\ (evaluating env = false -> exists sr' out, step env sr a g = Ok (sr', out, g)).
Proof.
  intros Hop. unfold step. rewrite Hop. split.
  - intros sr' out g' H. destruct (evaluating env); simpl in H;
      inv_Ok H; inversion H; subst;
      apply srti_outputs_Ok in Hx as [-> _]; by simpl.
  - intros Hev. rewrite Hev. simpl.
    edestruct (srti_outputs_training) as [out Hout]; [done|].
    rewrite Hout. simpl. eauto.
Qed.

(** The flag that a step returns is the disjunction that [done_generator]
    computes; in training mode a complete action takes one unit off the
    countdown. *)
Lemma step_done sr a g sr' out g' :
  step env sr a g = Ok (sr', out, g') ->
  done out = success (observation out)
             || bool_decide (time_remaining (observation out) = 0%Z).
Proof.
  unfold step. intros H. inv_Ok H. destruct x as [sr1 g1]. inv_Ok H.
  inversion H; subst. by apply srti_outputs_Ok in Hx0 as [-> ->].
Qed.

Lemma step_countdown sr a g sr' out g' :
  is_op (update (r_action sr) a) = true ->
  f_time_remaining (r_frame sr) = time_remaining (r_state sr) ->
  step env sr a g = Ok (sr', out, g') ->
  time_remaining (observation out) = (time_remaining (r_state sr) - 1)%Z
  /\ f_time_remaining (r_frame sr') = time_remaining (r_state sr').
Proof.
  unfold step. intros Hop Hfr H. rewrite Hop in H. inv_Ok H.
  destruct x as [sr1 g1]. inv_Ok H. inversion H; subst. clear H.
  apply rbind_Ok in Hx as (fr1 & Hres & Hx).
  apply rbind_Ok in Hx as ([[st fr2] g2] & Hemit & Hx).
  inversion Hx; subst. clear Hx.
  apply srti_outputs_Ok in Hx0 as [-> _]. simpl.
  apply resume_control in Hres as (_ & Ht & _).
  apply emit_Ok in Hemit
    as (_ & _ & _ & _ & _ & Ht1 & _ & _ & _ & _ & _ & _ & _ & Ht2).
  split; congruence.
Qed.
End Episode.

(** ** The worlds of [Scenario] *)

Ltac by_computation := apply (bool_decide_unpack _); vm_compute; exact I.

Lemma spec_builds_in_place : @builds_in_place SpecModel.assignment_ops.
Proof.
  intros b location p ps nexus_positions b'. simpl. unfold SpecModel.action.
  by case_decide.
Qed.

(** A building whose dependency is not [None] is never admitted, whatever
    stands on the grid. *)
Lemma dependency_blocks_admission {CA : Type} env (fr : Frame CA) b d loc :
  Dict.get (f_dependencies fr) b = Some (Some d) ->
  construction_admitted env fr b loc = Ok false.
Proof.
  intros Hdep. unfold construction_admitted. rewrite Hdep. simpl.
  unfold building_allowed.
  rewrite (bool_decide_false (_ ∈ _ ++ _)).
  - by rewrite !orb_true_r.
  - by rewrite (dependency_test (Some d)).
Qed.

Section ScenarioFacts.
Import SpecModel Scenario.

(** C1, at an input where the code departs from it.  In
    [dependent_order] the resources cover the cost of the second numbered
    building, its target tile holds no building and is neither resource
    tile, its dependency stands on the grid, and the worker stands on the
    target tile with the order to build it.  The admission test refuses
    all the same: the dependency is looked up among the coordinates of the
    buildings.  The frame comes back unchanged. *)
Theorem dependent_building_refused :
  cost training (Other 1) ⊆ f_resources dependent_order
  /\ ((2, 2)%Z ∉ Dict.keys (f_building_positions dependent_order))
  /\ Dict.get (f_dependencies dependent_order) (Other 1) = Some (Some (Other 0))
  /\ Other 0 ∈ Dict.values (f_building_positions dependent_order)
  /\ (2, 2)%Z ≠ gas_tile /\ (2, 2)%Z ≠ minerals_tile
  /\ assignment_action (BuildOrder (Other 1) (2, 2)%Z) (2, 2)%Z
       (f_positions dependent_order) (f_nexus_positions dependent_order)
     = Build (Other 1)
  /\ construction_admitted training dependent_order (Other 1) (2, 2)%Z
     = Ok false
  /\ resolve_worker training dependent_order
       (W 1, BuildOrder (Other 1) (2, 2)%Z)
     = Ok dependent_order.
Proof.
  split; [by_computation|]. split; [by_computation|]. split; [done|].
  split; [by_computation|]. split; [done|]. split; [done|].
  split; [done|]. split; [by vm_compute|].
  rewrite (resolve_worker_build training dependent_order (W 1) (Other 1)
             (2, 2)%Z (2, 2)%Z (Other 1)) by done.
  by rewrite (dependency_blocks_admission _ _ _ (Other 0)).
Qed.

(** C3 as stated fails: in [second_assimilator] the target tile of the
    Assimilator is the gas tile, and the attempt is refused, because an
    Assimilator stands there already. *)
Lemma assimilator_on_gas_refused :
  ~ (construction_admitted training second_assimilator Assimilator gas_tile
       = Ok true
     <-> Dict.get (f_positions second_assimilator) (OResource GAS)
         = Some gas_tile).
Proof.
  intros [_ H]. specialize (H eq_refl). vm_compute in H. discriminate.
Qed.

Lemma assimilator_admission_witness :
  construction_admitted training first_assimilator Assimilator gas_tile
    = Ok true
  /\ construction_admitted training first_assimilator Assimilator nexus_tile
     = Ok false.
Proof.
  split.
  - apply (assimilator_admission training first_assimilator gas_tile gas_tile);
      [reflexivity | reflexivity |].
    split; [by_computation|]. split; [by_computation | reflexivity].
  - apply (assimilator_admission training first_assimilator nexus_tile gas_tile);
      [reflexivity | reflexivity | discriminate].
Defined.

(** C8 as stated fails: in [reassigned_gatherer] worker 1 is gathering
    gas, which lies elsewhere, so it is not gathering a resource it stands
    on; its step from the minerals tile onto the Nexus adds a mineral. *)
Lemma reassigned_gatherer_deposits :
  (forall rsc, Gather GAS = Gather rsc ->
     Dict.get (f_positions reassigned_gatherer) (OResource rsc)
     ≠ Dict.get (f_positions reassigned_gatherer) (OWorker (W 1)))
  /\ exists fr',
       resolve_worker training reassigned_gatherer (W 1, Gather GAS) = Ok fr'
       /\ multiplicity MINERALS (f_resources reassigned_gatherer) = 0
       /\ multiplicity MINERALS (f_resources fr') = 1.
Proof.
  split; [by intros rsc [= <-]|].
  eexists. split; [vm_compute; reflexivity|]. by vm_compute.
Qed.

(** The defect at work in an episode of [seeded].  The first numbered
    building stands on [(3, 3)] from the start; the one required line asks for
    the second numbered building, which depends on it.  The workers bring in
    two minerals, the cost; worker 1 is sent to the free tile [(1, 2)] with
    the order to build, and stands there for the last three ticks.  Nothing
    is ever built, and the episode runs out with the success flag down. *)
Lemma dependent_building_never_built :
  exists outs,
    episode seeded 5 2
      [gather_minerals; gather_minerals; pick_dependent; pick_tile;
       other_gathers; other_gathers; other_gathers] seeded_tape = Ok outs
    /\ map (fun o => (Dict.values (building_positions (observation o)),
                      multiplicity MINERALS (resources (observation o)),
                      Dict.get (positions (observation o)) (OWorker (W 1)),
                      success (observation o), done o)) outs
       = [([Nexus; Other 0], 0, Some (1, 1)%Z, false, false);
          ([Nexus; Other 0], 0, Some (0, 1)%Z, false, false);
          ([Nexus; Other 0], 2, Some (1, 1)%Z, false, false);
          ([Nexus; Other 0], 2, Some (1, 1)%Z, false, false);
          ([Nexus; Other 0], 2, Some (1, 2)%Z, false, false);
          ([Nexus; Other 0], 3, Some (1, 2)%Z, false, false);
          ([Nexus; Other 0], 3, Some (1, 2)%Z, false, false);
          ([Nexus; Other 0], 4, Some (1, 2)%Z, false, true)].
Proof. eexists. split; [vm_compute; reflexivity | by vm_compute]. Qed.

Lemma movement_gathers_witness :
  exists fr',
    resolve_worker training reassigned_gatherer (W 1, Gather GAS) = Ok fr'
    /\ multiplicity MINERALS (f_resources fr') = 1
    /\ multiplicity GAS (f_resources fr') = 0.
Proof.
  destruct (movement_gathers training reassigned_gatherer (W 1) (Gather GAS)
              minerals_tile (1, 0)%Z minerals_tile gas_tile)
    as (fr' & Hres & _ & _ & Hm & Hg); [reflexivity..|].
  exists fr'. split; [exact Hres|]. split; [exact Hm | exact Hg].
Defined.

Lemma failed_construction_dropped_witness :
  resolve_worker training order_on_gas (W 1, BuildOrder (Other 0) gas_tile)
  = Ok order_on_gas
  /\ exists st fr1 g1 fr2,
       emit training order_on_gas [] = Ok (st, fr1, g1)
       /\ resume training fr1 send_gas = Ok fr2
       /\ resolved_in_tick training fr1 send_gas
            (W 1, BuildOrder (Other 0) gas_tile) fr2
       /\ Dict.get (f_assignments fr2) (W 1)
          = Some (BuildOrder (Other 0) gas_tile).
Proof.
  destruct (failed_construction_dropped training order_on_gas (W 1) (Other 0)
              gas_tile gas_tile (Other 0) None gas_tile minerals_tile)
    as [Hdropped Hnext]; [reflexivity.. | |].
  { right; right; right; right. split; [discriminate | left; reflexivity]. }
  split; [exact Hdropped|].
  assert (emit training order_on_gas [] = Ok (?[st], ?[fr1], ?[g1])) as Hemit
    by (vm_compute; reflexivity).
  match type of Hemit with
  | _ = Ok (_, ?fr1, _) =>
      assert (resume training fr1 send_gas = Ok ?[fr2]) as Hresume
        by (vm_compute; reflexivity)
  end.
  destruct (Hnext eq_refl [] _ _ _ _ _ send_gas _ eq_refl Hemit
              ltac:(discriminate) Hresume) as (_ & Hresolved & Hkept).
  do 4 eexists. split; [exact Hemit|]. split; [exact Hresume|].
  split; [exact Hresolved | exact Hkept].
Defined.
End ScenarioFacts.

Section EpisodeFacts.
Import SpecModel Scenario.

(** C2 as stated fails in evaluation mode.  An episode with an evaluation
    budget of seven steps starts with the countdown at [6]; the first raw
    action leaves the compound action incomplete, and the step returns a
    state whose countdown is at [5]. *)
Lemma partial_action_evaluation_countdown :
  exists sr0 out0 g0 sr' out g',
    reset (evaluation_for 7) 5 1 episode_tape = Ok (sr0, out0, g0)
    /\ time_remaining (observation out0) = 6%Z
    /\ is_op (update (r_action sr0) pick_building) = false
    /\ step (evaluation_for 7) sr0 pick_building g0 = Ok (sr', out, g')
    /\ time_remaining (observation out) = 5%Z.
Proof.
  do 6 eexists. split; [vm_compute; reflexivity|].
  split; [reflexivity|]. split; [reflexivity|].
  split; [vm_compute; reflexivity | reflexivity].
Qed.

Lemma partial_action_step_witness :
  exists sr0 out0 g0 sr' out,
    reset training 5 1 episode_tape = Ok (sr0, out0, g0)
    /\ step training sr0 pick_building g0 = Ok (sr', out, g0)
    /\ time_remaining (observation out) = time_remaining (observation out0)
    /\ building_positions (observation out)
       = building_positions (observation out0).
Proof.
  do 3 eexists.
  match goal with
  | |- exists sr' out, _ /\ step _ ?sr ?a ?g = _ /\ _ =>
      assert (reset training 5 1 episode_tape = Ok (sr, ?[o], g)) as Hreset
        by (vm_compute; reflexivity);
      destruct (partial_action_step training sr a g) as [Hsame Hret];
        [vm_compute; reflexivity|];
      destruct Hret as (sr' & out & Hstep); [reflexivity|];
      destruct (Hsame sr' out g Hstep) as (_ & _ & Hbp & _ & Htr);
      exists sr', out
  end.
  split; [exact Hreset|]. split; [exact Hstep|].
  split; [exact Htr | exact Hbp].
Defined.

(** C9, at an input where the code departs from it.  An episode in
    evaluation mode with an evaluation budget of two steps: after [reset]
    the countdown is at [1] and nothing is done.  The first complete action
    brings the countdown of the state to [0] with the required building
    missing, so [done_generator] answers [True]; but [info_generator] then
    reads a key that [info] does not have, and the step raises instead of
    returning. *)
Theorem evaluation_episode_end_raises :
  exists sr0 out0 g0,
    reset evaluation 5 1 episode_tape = Ok (sr0, out0, g0)
    /\ time_remaining (observation out0) = 1%Z
    /\ done out0 = false
    /\ (exists fr st fr' g1,
          resume evaluation (r_frame sr0) (update (r_action sr0) gather_minerals)
            = Ok fr
          /\ emit evaluation fr g0 = Ok (st, fr', g1)
          /\ time_remaining st = 0%Z
          /\ success st = false
          /\ done_generator st = true)
    /\ step evaluation sr0 gather_minerals g0 = Raise KeyError.
Proof.
  do 3 eexists. split; [vm_compute; reflexivity|].
  split; [reflexivity|]. split; [reflexivity|]. split.
  - do 4 eexists. split; [vm_compute; reflexivity|].
    split; [vm_compute; reflexivity|]. by vm_compute.
  - by vm_compute.
Qed.

(** The same episode in training mode: the countdown starts at [4], the
    flag is down for three steps and up at the fourth, when the countdown
    reaches [0] with the required building missing. *)
Lemma training_episode_ends :
  exists outs,
    episode training 5 1
      [gather_minerals; gather_minerals; gather_minerals; gather_minerals]
      episode_tape = Ok outs
    /\ (fun o => (time_remaining (observation o), success (observation o),
                  done o)) <$> outs
       = [(4, false, false); (3, false, false); (2, false, false);
          (1, false, false); (0, false, true)]%Z.
Proof. eexists. split; [vm_compute; reflexivity | reflexivity]. Qed.
End EpisodeFacts.

Section Witnesses.
Import SpecModel Scenario.

Lemma build_dependencies_forest_witness :
  build_dependencies training 3 forest_tape
    = Ok ([(Assimilator, None); (Nexus, None); (Other 0, None);
           (Other 1, Some (Other 0))], [])
  /\ exists chain,
       instructions_for dependencies 4 (Some (Other 1)) = Ok chain
       /\ NoDup chain.
Proof.
  split; [by vm_compute|].
  destruct (build_dependencies_forest training 3 forest_tape
              [(Assimilator, None); (Nexus, None); (Other 0, None);
               (Other 1, Some (Other 0))] [])
    as (_ & _ & Hchain); [by_computation | by vm_compute |].
  destruct (Hchain (Other 1)) as (chain & Hc & _ & Hnd); [by_computation|].
  exists chain. split; [exact Hc | exact Hnd].
Defined.

Lemma build_lines_budget_witness :
  build_lines training dependencies 20 3 [3; 0; 2]%N
    = Ok ([mkLine false (Other 0); mkLine true (Other 1);
           mkLine true Assimilator], [2%N])
  /\ (3 <= max_lines curriculum)%Z.
Proof.
  split; [by vm_compute|].
  destruct (build_lines_budget training dependencies 20 3 [3; 0; 2]%N
              [mkLine false (Other 0); mkLine true (Other 1);
               mkLine true Assimilator] [2%N])
    as (Hmax & _); [simpl; lia | by vm_compute |].
  exact Hmax.
Defined.

Lemma success_monotone_witness :
  exists st0 fr g sts,
    emit training nexus_required [] = Ok (st0, fr, g)
    /\ success st0 = true
    /\ ticks training fr [send_minerals; send_gas] g = Ok sts
    /\ length sts = 2
    /\ Forall (fun st => success st = true) sts.
Proof.
  do 4 eexists. split; [vm_compute; reflexivity|]. split; [reflexivity|].
  split; [vm_compute; reflexivity|]. split; [reflexivity|].
  eapply (success_monotone training nexus_required [] _ _ _
            [send_minerals; send_gas]);
    [reflexivity | exact spec_builds_in_place | vm_compute; reflexivity
    | reflexivity | vm_compute; reflexivity].
Defined.

Lemma nexus_always_standing_witness :
  state_generator training [mkLine true (Other 0)] dependencies 5
    [send_minerals; send_gas] (drop 7 episode_tape) <> Raise AssertionError
  /\ exists sts,
       state_generator training [mkLine true (Other 0)] dependencies 5
         [send_minerals; send_gas] (drop 7 episode_tape) = Ok sts
       /\ Forall (fun st : State CompoundAction =>
                    Nexus ∈ Dict.values (building_positions st)) sts.
Proof.
  destruct (nexus_always_standing training [mkLine true (Other 0)]
              dependencies 5 [send_minerals; send_gas] (drop 7 episode_tape)
              spec_builds_in_place) as [Hno Hall].
  split; [exact Hno|].
  eexists. split; [vm_compute; reflexivity|].
  apply Hall. vm_compute. reflexivity.
Defined.
End Witnesses.

(** * Further properties of the generators *)

(** ** [build_dependencies], continued *)

(** As [build_dependencies_inv], with the exact number of dependencies that
    are drawn. *)
Lemma build_dependencies_shape env max_depth g pairs g' :
  build_dependencies env max_depth g = Ok (pairs, g') ->
  exists shuffled deps,
    shuffled ≡ₚ filter (fun b => b ≠ Assimilator) (Buildings env)
    /\ pairs = forest_pairs shuffled deps
    /\ (0 <= max_depth)%Z
    /\ length deps = Z.to_nat (Z.min max_depth (Z.of_nat (length shuffled)))
    /\ forall i d, deps !! i = Some (Some d) ->
         exists j, j < i /\ shuffled !! j = Some d.
Proof.
  intros H.
  destruct (Z.ltb_spec max_depth 0) as [Hneg|Hpos].
  { by rewrite build_dependencies_negative in H. }
  revert H. unfold build_dependencies.
  pose proof (shuffle_Permutation
                (filter (fun b => b ≠ Assimilator) (Buildings env)) g) as Hperm.
  destruct (shuffle _ g) as [shuffled g1]. simpl in Hperm.
  destruct (Z.ltb_spec (Z.min max_depth (Z.of_nat (length shuffled))) 0) as [|Hn];
    [discriminate|].
  pose proof (random_n_spec
                (Z.to_nat (Z.min max_depth (Z.of_nat (length shuffled)))) g1)
    as [Hlen Hus].
  destruct (random_n _ g1) as [us g2]. simpl in Hlen, Hus.
  intros H. inv_Ok H. inversion H; subst pairs g'. clear H.
  exists shuffled, x. split; [done|]. split; [done|]. split; [done|].
  pose proof (mapM_length _ _ _ Hx) as Hlx.
  unfold dependency_indices in Hlx. rewrite length_imap in Hlx.
  split; [congruence|].
  intros i d Hd.
  destruct (mapM_lookup _ _ _ _ _ Hx Hd) as (z & Hz & Hfz).
  pose proof (dependency_indices_lookup _ _ _ Hus Hz) as Hrange.
  destruct (Z.ltb_spec z 0); [discriminate|].
  inv_Ok Hfz. apply or_raise_Ok in Hx0. inversion Hfz; subst.
  exists (Z.to_nat z). split; [lia | done].
Qed.

Lemma instructions_for_functional deps n m b c c' :
  instructions_for deps n b = Ok c -> instructions_for deps m b = Ok c' -> c = c'.
Proof.
  intros Hn Hm.
  apply (instructions_for_mono _ _ (n `max` m)) in Hn; [|lia].
  apply (instructions_for_mono _ _ (n `max` m)) in Hm; [|lia].
  congruence.
Qed.

Lemma get_of_list_Some_key {K V : Type} `{EqDecision K} (l : list (K * V)) k v :
  Dict.get (Dict.of_list l) k = Some v -> (k, v) ∈ l.
Proof.
  rewrite get_of_list. intros H. apply get_Some_elem_of in H.
  by rewrite elem_of_reverse in H.
Qed.

Lemma get_of_list_is_Some {K V : Type} `{EqDecision K} (l : list (K * V)) k :
  k ∈ l.*1 -> is_Some (Dict.get (Dict.of_list l) k).
Proof.
  intros Hin. rewrite get_of_list.
  destruct (Dict.get (reverse l) k) eqn:E; [eauto|].
  apply get_None in E. exfalso. apply E.
  unfold Dict.keys. by rewrite fmap_reverse, elem_of_reverse.
Qed.

Section ForestDepth.
Context (shuffled : list Building) (deps : list (option Building)).
Hypothesis shuffled_NoDup : NoDup shuffled.
Hypothesis shuffled_no_assimilator : Assimilator ∉ shuffled.
Hypothesis deps_earlier :
  forall i d, deps !! i = Some (Some d) -> exists j, j < i /\ shuffled !! j = Some d.

Lemma forest_chain_length (i : nat) (b : Building) :
  shuffled !! i = Some b ->
  exists chain,
    instructions_for (Dict.of_list (forest_pairs shuffled deps)) (S i) (Some b)
      = Ok chain
    /\ length chain <= S i
    /\ length chain <= 1 `max` length deps.
Proof using shuffled_NoDup shuffled_no_assimilator deps_earlier.
  revert b. induction (lt_wf i) as [i _ IH]. intros b Hb.
  simpl. rewrite (forest_get shuffled deps shuffled_NoDup
                    shuffled_no_assimilator i b Hb). simpl.
  destruct (deps !! i) as [[d|]|] eqn:Hd; simpl.
  - destruct (deps_earlier i d Hd) as (j & Hji & Hj).
    destruct (IH j Hji d Hj) as (chain & Hc & Hlen & _).
    rewrite (instructions_for_mono _ _ i _ _ Hc) by lia. simpl.
    exists (chain ++ [b]). split; [done|].
    apply lookup_lt_Some in Hd. rewrite length_app. simpl. lia.
  - exists [b]. rewrite instructions_for_None. simpl. split; [done|]. lia.
  - exists [b]. rewrite instructions_for_None. simpl. split; [done|]. lia.
Qed.
End ForestDepth.

(** X1.  [build_dependencies] returns a map exactly for a depth that is not
    negative; for a negative depth it raises [ValueError], and it raises
    nothing else. *)
Theorem build_dependencies_defined env max_depth g :
  match build_dependencies env max_depth g with
  | Ok _ => (0 <= max_depth)%Z
  | Raise e => (max_depth < 0)%Z /\ e = ValueError
  end.
Proof.
  destruct (Z.ltb_spec max_depth 0) as [Hneg|Hpos].
  - by rewrite build_dependencies_negative.
  - destruct (build_dependencies_returns env max_depth g Hpos) as (pairs & g' & ->).
    done.
Qed.

Lemma build_dependencies_table env max_depth g pairs g' :
  build_dependencies env max_depth g = Ok (pairs, g') ->
  pairs.*1 ≡ₚ Assimilator :: filter (fun b => b ≠ Assimilator) (Buildings env)
  /\ (forall b, b ∈ Buildings env -> is_Some (Dict.get (Dict.of_list pairs) b))
  /\ Dict.get (Dict.of_list pairs) Assimilator = Some None
  /\ (forall b d, Dict.get (Dict.of_list pairs) b = Some (Some d) ->
        b ≠ Assimilator /\ d ≠ Assimilator /\ d ∈ Buildings env).
Proof.
  intros H.
  destruct (build_dependencies_shape _ _ _ _ _ H)
    as (shuffled & deps & Hperm & -> & _ & _ & Hearlier).
  assert (forall b, b ∈ shuffled <-> b ∈ Buildings env /\ b ≠ Assimilator) as Hin.
  { intros b. rewrite Hperm, list_elem_of_filter. tauto. }
  assert ((forest_pairs shuffled deps).*1 = Assimilator :: shuffled) as Hkeys.
  { unfold forest_pairs. simpl. by rewrite zip_longest_fst. }
  split; [by rewrite Hkeys, Hperm|]. split; [|split].
  - intros b Hb. apply get_of_list_is_Some. rewrite Hkeys.
    destruct (decide (b = Assimilator)) as [->|Hne]; [left|].
    right. by apply Hin.
  - rewrite get_of_list. unfold forest_pairs. rewrite reverse_cons, get_app.
    destruct (Dict.get (reverse (zip_longest shuffled deps)) Assimilator) eqn:E.
    + apply get_Some_elem_of in E. rewrite elem_of_reverse in E.
      apply (list_elem_of_fmap_2 fst) in E. rewrite zip_longest_fst in E.
      simpl in E. apply Hin in E. tauto.
    + done.
  - intros b d Hb. apply get_of_list_Some_key in Hb.
    unfold forest_pairs in Hb. apply elem_of_cons in Hb as [[= ]|Hb].
    apply list_elem_of_lookup in Hb as [i Hi].
    rewrite zip_longest_lookup in Hi.
    destruct (shuffled !! i) as [b'|] eqn:Hb'; simpl in Hi; [|done].
    inversion Hi; subst b'.
    destruct (deps !! i) as [[d'|]|] eqn:Hd; simpl in *; try done.
    simplify_eq.
    destruct (Hearlier i d Hd) as (j & _ & Hj).
    apply list_elem_of_lookup_2 in Hb', Hj. apply Hin in Hb', Hj. tauto.
Qed.

(** X2.  The map of [build_dependencies] has one entry for the Assimilator
    and one for every other building of the table, so looking up a building
    of the table never fails; and every dependency in it is a building of the
    table other than the Assimilator, of a building other than the
    Assimilator. *)
Theorem build_dependencies_entries env max_depth g pairs g' :
  build_dependencies env max_depth g = Ok (pairs, g') ->
  pairs.*1 ≡ₚ Assimilator :: filter (fun b => b ≠ Assimilator) (Buildings env)
  /\ (forall b, b ∈ Buildings env -> is_Some (Dict.get (Dict.of_list pairs) b))
  /\ Dict.get (Dict.of_list pairs) Assimilator = Some None
  /\ (forall b d, Dict.get (Dict.of_list pairs) b = Some (Some d) ->
        b ≠ Assimilator /\ d ≠ Assimilator /\ d ∈ Buildings env).
Proof. apply build_dependencies_table. Qed.

(** X3.  The depth that [build_dependencies] is given bounds the chains of
    its map: following the dependencies from any building meets at most
    [max(1, max_depth)] buildings.  The buildings of the table are taken to
    be pairwise distinct. *)
Theorem build_dependencies_depth env max_depth g pairs g' n b chain :
  NoDup (Buildings env) ->
  build_dependencies env max_depth g = Ok (pairs, g') ->
  instructions_for (Dict.of_list pairs) n (Some b) = Ok chain ->
  (Z.of_nat (length chain) <= Z.max 1 max_depth)%Z.
Proof.
  intros Hnd H Hchain.
  destruct (build_dependencies_shape _ _ _ _ _ H)
    as (shuffled & deps & Hperm & -> & Hpos & Hlen & Hearlier).
  assert (NoDup shuffled) as Hnds by (rewrite Hperm; by apply NoDup_filter).
  assert (Assimilator ∉ shuffled) as Hna.
  { rewrite Hperm, list_elem_of_filter. tauto. }
  assert (b ∈ (forest_pairs shuffled deps).*1) as Hb.
  { destruct n as [|n]; [done|]. simpl in Hchain. inv_Ok Hchain.
    apply or_raise_Ok, get_of_list_Some_key in Hx.
    by apply (list_elem_of_fmap_2 fst) in Hx. }
  unfold forest_pairs in Hb. simpl in Hb. rewrite zip_longest_fst in Hb.
  apply elem_of_cons in Hb as [-> | Hb].
  - assert (chain = [Assimilator]) as ->; [|simpl; lia].
    eapply instructions_for_functional; [exact Hchain|].
    instantiate (1 := 1). simpl.
    by rewrite (forest_get_assimilator shuffled deps Hnds Hna).
  - apply list_elem_of_lookup in Hb as [i Hi].
    destruct (forest_chain_length shuffled deps Hnds Hna Hearlier i b Hi)
      as (chain' & Hc & _ & Hbound).
    rewrite (instructions_for_functional _ _ _ _ _ _ Hchain Hc). lia.
Qed.

(** ** [build_lines], continued *)

Lemma random_instructions_under_negative env deps fuel depth n incl g :
  (n < 0)%Z ->
  random_instructions_under env deps fuel depth n incl g = Raise RuntimeError.
Proof.
  intros Hn. destruct fuel; simpl; by destruct (Z.ltb_spec n 0); [|lia].
Qed.

Lemma random_instructions_under_zero env deps fuel depth incl g :
  random_instructions_under env deps fuel depth 0 incl g = Ok ([], g).
Proof. by destruct fuel. Qed.

Lemma random_instructions_under_RuntimeError env deps fuel depth n incl g :
  random_instructions_under env deps fuel depth n incl g = Raise RuntimeError ->
  (n < 0)%Z.
Proof.
  revert depth n incl g. induction fuel as [|fuel IH]; intros depth n incl g; simpl.
  - destruct (Z.ltb_spec n 0) as [Hlt|Hge]; [done|]. by destruct (n =? 0)%Z.
  - destruct (Z.ltb_spec n 0) as [Hlt|Hge]; [done|].
    destruct (Z.eqb_spec n 0) as [Hz|Hnz]; [done|].
    destruct (decide (_ = [])) as [Hnil|Hcons]; [done|].
    destruct (choice_below _ g) as [k g1]. intros H.
    apply rbind_Raise in H as [H | (b & _ & H)];
      [by apply or_raise_Raise in H|].
    apply rbind_Raise in H as [H | (inst & _ & H)];
      [by apply instructions_for_Raise in H as [? | ?]|].
    apply rbind_Raise in H as [H | ([first last] & _ & H)].
    { unfold unpack_last in H. by destruct (reverse inst). }
    destruct (Z.gtb_spec (Z.of_nat (length inst)) n) as [Hgt|Hle].
    + by apply IH in H.
    + apply rbind_Raise in H as [H | ([rest g2] & _ & H)]; [|done].
      apply IH in H. lia.
Qed.

(** X4.  [build_lines] raises [RuntimeError] exactly for a negative line
    count, whatever the draws; for the count [0] it returns no line and
    leaves the generator untouched. *)
Theorem build_lines_edges env deps fuel n_lines g :
  (build_lines env deps fuel n_lines g = Raise RuntimeError <-> (n_lines < 0)%Z)
  /\ build_lines env deps fuel 0 g = Ok ([], g).
Proof.
  split; [|unfold build_lines; by rewrite random_instructions_under_zero].
  unfold build_lines. split.
  - intros H. apply rbind_Raise in H as [H | ([ls g1] & _ & H)].
    + by apply random_instructions_under_RuntimeError in H.
    + by destruct (decide _).
  - intros Hn. by rewrite random_instructions_under_negative.
Qed.

(** The chain of a building: every member but the first comes right after
    its dependency, and the first has none. *)
Lemma instructions_for_follows deps n b chain :
  instructions_for deps n (Some b) = Ok chain ->
  forall i x, chain !! i = Some x ->
    match Dict.get deps x with
    | Some (Some d) => exists j, i = S j /\ chain !! j = Some d
    | Some None => i = 0
    | None => False
    end.
Proof.
  revert b chain. induction n as [|n IH]; intros b chain H; simpl in H; [done|].
  inv_Ok H. apply or_raise_Ok in Hx. inversion H; subst chain. clear H.
  rename x into d0, x0 into pre.
  destruct d0 as [d|].
  - pose proof (IH d pre Hx0) as IHpre.
    destruct (instructions_for_last _ _ _ _ Hx0) as [pre' ->].
    intros i x Hi.
    destruct (decide (i < length (pre' ++ [d]))) as [Hlt|Hge].
    + rewrite lookup_app_l in Hi by done.
      specialize (IHpre i x Hi).
      destruct (Dict.get deps x) as [[d'|]|]; [|done|done].
      destruct IHpre as (j & -> & Hj). exists j. split; [done|].
      apply lookup_app_l_Some. done.
    + rewrite lookup_app_r in Hi by lia.
      destruct (i - length (pre' ++ [d])) as [|k] eqn:Hk; [|done].
      simpl in Hi. inversion Hi; subst x. rewrite Hx.
      rewrite length_app in *. simpl in *.
      exists (length pre'). split; [lia|].
      rewrite lookup_app_l by (rewrite length_app; simpl; lia).
      by rewrite lookup_app_r, Nat.sub_diag by lia.
  - rewrite instructions_for_None in Hx0. inversion Hx0; subst pre.
    intros [|i] x Hi; [|done]. simpl in Hi. inversion Hi; subst x.
    by rewrite Hx.
Qed.

Lemma chain_lines_lookup (first : list Building) (last : Building)
    (rest : list Line) (i : nat) :
  (map (mkLine false) first ++ mkLine true last :: rest) !! i =
    if decide (i < length first) then mkLine false <$> first !! i
    else if decide (i = length first) then Some (mkLine true last)
    else rest !! (i - S (length first)).
Proof.
  destruct (decide (i < length first)) as [Hlt|Hge].
  - rewrite lookup_app_l by (by rewrite length_map).
    by rewrite list_lookup_fmap.
  - rewrite lookup_app_r by (rewrite length_map; lia). rewrite length_map.
    destruct (decide (i = length first)) as [->|Hne].
    + by rewrite Nat.sub_diag.
    + destruct (i - length first) as [|k] eqn:Hk; [lia|]. simpl.
      f_equal. lia.
Qed.

Lemma follows_dependencies_chain deps (first : list Building) (last : Building)
    (rest : list Line) n :
  instructions_for deps n (Some last) = Ok (first ++ [last]) ->
  follows_dependencies deps rest ->
  follows_dependencies deps (map (mkLine false) first ++ mkLine true last :: rest).
Proof.
  intros Hchain Hrest i l Hi.
  pose proof (instructions_for_follows _ _ _ _ Hchain) as Hfollow.
  rewrite chain_lines_lookup in Hi.
  assert (forall j d, j < length first -> (first ++ [last]) !! j = Some d ->
            (map (mkLine false) first ++ mkLine true last :: rest) !! j
            = Some (mkLine false d)) as Hbefore.
  { intros j d Hj Hd. rewrite chain_lines_lookup, decide_True by done.
    rewrite lookup_app_l in Hd by done. by rewrite Hd. }
  destruct (decide (i < length first)) as [Hlt|Hge].
  - destruct (first !! i) as [x|] eqn:Hx; simpl in Hi; [|done].
    inversion Hi; subst l. simpl.
    specialize (Hfollow i x). rewrite lookup_app_l in Hfollow by done.
    specialize (Hfollow Hx).
    destruct (Dict.get deps x) as [[d|]|]; [|by left|done].
    destruct Hfollow as (j & -> & Hj). exists j. split; [done|].
    apply Hbefore; [lia | done].
  - destruct (decide (i = length first)) as [->|Hne].
    + inversion Hi; subst l. simpl.
      specialize (Hfollow (length first) last).
      rewrite lookup_app_r, Nat.sub_diag in Hfollow by lia.
      specialize (Hfollow eq_refl).
      destruct (Dict.get deps last) as [[d|]|]; [|by left|done].
      destruct Hfollow as (j & Hj & Hd). exists j. split; [done|].
      apply Hbefore; [lia | done].
    + specialize (Hrest _ _ Hi).
      destruct (Dict.get deps (building l)) as [[d|]|]; [| |done].
      * destruct Hrest as (j & Hj & Hd).
        exists (S (length first) + j). split; [lia|].
        rewrite chain_lines_lookup, !decide_False by lia.
        rewrite <- Hd. f_equal. lia.
      * right. destruct Hrest as [Hz | (j & l' & Hj & Hl' & Hreq)].
        -- exists (length first), (mkLine true last). split; [lia|].
           rewrite chain_lines_lookup, decide_False, decide_True by lia. done.
        -- exists (S (length first) + j), l'. split; [lia|]. split; [|done].
           rewrite chain_lines_lookup, !decide_False by lia.
           rewrite <- Hl'. f_equal. lia.
Qed.

Lemma random_instructions_under_follows env deps fuel depth n incl g lines g' :
  random_instructions_under env deps fuel depth n incl g = Ok (lines, g') ->
  follows_dependencies deps lines
  /\ forall l, last lines = Some l -> required l = true.
Proof.
  revert depth n incl g lines g'.
  induction fuel as [|fuel IH]; intros depth n incl g lines g' H; simpl in H.
  - destruct (n <? 0)%Z; [done|]. destruct (n =? 0)%Z; [|done].
    inversion H; subst. split; [by intros i l Hi | done].
  - destruct (n <? 0)%Z; [done|].
    destruct (n =? 0)%Z.
    { inversion H; subst. split; [by intros i l Hi | done]. }
    destruct (decide (_ = [])); [done|].
    destruct (choice_below _ g) as [k g1].
    inv_Ok H. apply or_raise_Ok in Hx.
    destruct x1 as [first last].
    apply unpack_last_Ok in Hx1.
    destruct (instructions_for_last _ _ _ _ Hx0) as [pre Hpre].
    rewrite Hx1 in Hpre. apply app_inj_tail in Hpre as [-> ->].
    destruct (Z.gtb_spec (Z.of_nat (length x0)) n); [by apply IH in H|].
    inv_Ok H. destruct x1 as [rest g2]. inversion H; subst lines g'.
    apply IH in Hx2 as [Hfollow Hlast]. subst x0. split.
    + by eapply follows_dependencies_chain.
    + intros l. rewrite last_app, last_cons.
      destruct (list.last rest) as [l'|] eqn:Hl; simpl.
      * intros [= <-]. by apply Hlast.
      * by intros [= <-].
Qed.

(** X5.  The lines that [build_lines] returns follow the dependency map: a
    line whose building has a dependency comes right after the optional line
    of that dependency, a line whose building has none opens the list or
    comes right after a required line, every building in a line has an entry
    in the map, and the last line is a required one. *)
Theorem build_lines_follow_dependencies env deps fuel n_lines g lines g' :
  build_lines env deps fuel n_lines g = Ok (lines, g') ->
  follows_dependencies deps lines
  /\ forall l, last lines = Some l -> required l = true.
Proof.
  intros H. apply build_lines_inv in H.
  by apply random_instructions_under_follows in H.
Qed.

Section GeneratorWitnesses.
Import SpecModel Scenario.

Lemma build_dependencies_entries_witness :
  build_dependencies training 3 forest_tape
    = Ok ([(Assimilator, None); (Nexus, None); (Other 0, None);
           (Other 1, Some (Other 0))], [])
  /\ Dict.get dependencies Assimilator = Some None.
Proof.
  split; [by vm_compute|].
  destruct (build_dependencies_entries training 3 forest_tape
              [(Assimilator, None); (Nexus, None); (Other 0, None);
               (Other 1, Some (Other 0))] [])
    as (_ & _ & Hassimilator & _); [by vm_compute|].
  exact Hassimilator.
Defined.

Lemma build_dependencies_depth_witness :
  build_dependencies training 3 forest_tape
    = Ok ([(Assimilator, None); (Nexus, None); (Other 0, None);
           (Other 1, Some (Other 0))], [])
  /\ instructions_for dependencies 4 (Some (Other 1))
       = Ok [Other 0; Other 1]
  /\ (Z.of_nat (length [Other 0; Other 1]) <= Z.max 1 3)%Z.
Proof.
  split; [by vm_compute|]. split; [by vm_compute|].
  apply (build_dependencies_depth training 3 forest_tape
           [(Assimilator, None); (Nexus, None); (Other 0, None);
            (Other 1, Some (Other 0))] [] 4 (Other 1));
    [by_computation | by vm_compute | by vm_compute].
Defined.

Lemma build_lines_follow_dependencies_witness :
  build_lines training dependencies 20 3 [3; 0; 2]%N
    = Ok ([mkLine false (Other 0); mkLine true (Other 1);
           mkLine true Assimilator], [2%N])
  /\ follows_dependencies dependencies
       [mkLine false (Other 0); mkLine true (Other 1);
        mkLine true Assimilator].
Proof.
  split; [by vm_compute|].
  destruct (build_lines_follow_dependencies training dependencies 20 3
              [3; 0; 2]%N
              [mkLine false (Other 0); mkLine true (Other 1);
               mkLine true Assimilator] [2%N])
    as (Hfollow & _); [by vm_compute|].
  exact Hfollow.
Defined.

End GeneratorWitnesses.

(** ** [place_objects], continued *)

Lemma resource_locations_count env ni nj :
  ni < WORLD_SIZE env -> nj < WORLD_SIZE env ->
  2 <= length (List.filter (world_space_contains env)
                 (map (coord_add (Z.of_nat ni, Z.of_nat nj)) resource_offsets))
  <-> 2 <= WORLD_SIZE env.
Proof.
  intros Hi Hj. unfold world_space_contains, coord_add. simpl.
  repeat case_bool_decide; simpl; lia.
Qed.

Lemma NoDup_List_filter {A : Type} (f : A -> bool) (l : list A) :
  NoDup l -> NoDup (List.filter f l).
Proof.
  induction 1 as [|x l Hx Hnd IH]; simpl; [constructor|].
  destruct (f x); [|done]. constructor; [|done].
  intros Hin. apply Hx.
  apply list_elem_of_In, filter_In in Hin as [Hin _]. by apply list_elem_of_In.
Qed.

Lemma resource_locations_NoDup env nexus :
  NoDup (List.filter (world_space_contains env)
           (map (coord_add nexus) resource_offsets)).
Proof.
  apply NoDup_List_filter. destruct nexus as [a b].
  unfold coord_add. simpl.
  repeat (apply NoDup_cons; split;
          [rewrite ?elem_of_cons, elem_of_nil;
           intros Hin; repeat destruct Hin as [Hin|Hin];
           try done; inversion Hin; lia|]).
  apply NoDup_nil_2.
Qed.

Lemma resource_locations_adjacent env nexus p :
  p ∈ List.filter (world_space_contains env)
        (map (coord_add nexus) resource_offsets) ->
  world_space_contains env p = true /\ adjacent nexus p.
Proof.
  intros Hin. apply list_elem_of_In, filter_In in Hin as [Hin Hp].
  split; [done|]. destruct nexus as [a b].
  unfold adjacent. simpl in Hin.
  destruct Hin as [<-|[<-|[<-|[<-|[]]]]]; simpl; lia.
Qed.

Lemma lookup_delete_distinct {A : Type} (l : list A) (m k : nat) (x y : A) :
  NoDup l -> l !! m = Some x -> delete m l !! k = Some y -> x ≠ y.
Proof.
  intros Hnd Hm Hk <-.
  rewrite <- (take_drop_middle l m x Hm) in Hnd.
  apply NoDup_app in Hnd as (_ & Hleft & Hright).
  apply NoDup_cons in Hright as [Hright _].
  apply list_elem_of_lookup_2 in Hk. rewrite delete_take_drop in Hk.
  apply elem_of_app in Hk as [Hk|Hk]; [|done].
  apply (Hleft x Hk). left.
Qed.

Lemma choice_coords_in_world env k g p :
  0 < WORLD_SIZE env ->
  p ∈ (choice_coords (WORLD_SIZE env) k g).1 ->
  world_space_contains env p = true.
Proof.
  intros Hw. revert g. induction k as [|k IH]; intros g; simpl.
  - by intros Hin%elem_of_nil.
  - pose proof (choice_below_lt (WORLD_SIZE env) g Hw) as Hi.
    destruct (choice_below _ g) as [i g1].
    pose proof (choice_below_lt (WORLD_SIZE env) g1 Hw) as Hj.
    destruct (choice_below _ g1) as [j g2].
    specialize (IH g2). destruct (choice_coords _ k g2) as [ps g3].
    simpl in *. intros [->|Hin]%elem_of_cons; [|by apply IH].
    unfold world_space_contains. apply bool_decide_eq_true. simpl. lia.
Qed.

Lemma initial_buildings_layout env occupied gas fuel g placed g' :
  0 < WORLD_SIZE env ->
  initial_buildings env occupied gas fuel g = Ok (placed, g') ->
  forall o p, (o, p) ∈ placed ->
    exists b, o = WBuilding b
      /\ (b = Assimilator -> p = gas)
      /\ (b ≠ Assimilator ->
          (p ∉ occupied) /\ world_space_contains env p = true).
Proof.
  intros Hw. revert g. induction fuel as [|fuel IH]; intros g; simpl; [done|].
  pose proof (choice_coords_in_world env (num_initial_buildings env) g) as Hin_world.
  destruct (choice_coords _ _ g) as [initial_pos g1].
  destruct (existsb _ initial_pos) eqn:Hex; [by apply IH|]. intros H.
  inv_Ok H. destruct x as [bs g2]. inversion H; subst placed g'. clear H.
  intros o p Hin. apply list_elem_of_fmap in Hin as ([b q] & Heq & Hin).
  simpl in Heq. inversion Heq; subst o p. exists b. split; [done|].
  destruct (decide (b = Assimilator)) as [Hb|Hb]; [done|].
  split; [done|]. intros _.
  apply elem_of_zip_r in Hin. simpl in Hin. split.
  - intros Hocc.
    assert (existsb (fun p => bool_decide (p ∈ occupied)) initial_pos = true);
      [|congruence].
    apply existsb_exists. exists q.
    split; [by apply list_elem_of_In | by apply bool_decide_eq_true].
  - by apply Hin_world.
Qed.

Lemma objects_of_workers (ws : list Worker) (nexus : Coord) :
  objects_of (map (fun w => (WObj (OWorker w), nexus)) ws)
  = map (fun w => (OWorker w, nexus)) ws.
Proof. induction ws as [|w ws IH]; simpl; [done|]. by f_equal. Qed.

Lemma objects_of_buildings (placed : list (WorldObject * Coord)) :
  (forall o p, (o, p) ∈ placed -> exists b, o = WBuilding b) ->
  objects_of placed = [].
Proof.
  induction placed as [|[o p] placed IH]; intros Hall; [done|].
  destruct (Hall o p) as [b ->]; [left|]. simpl.
  apply IH. intros o' p' Hin. apply (Hall o' p'). by right.
Qed.

Lemma place_objects_shape env fuel g placed g' :
  place_objects env fuel g = Ok (placed, g') ->
  exists nexus minerals gas rest,
    world_space_contains env nexus = true
    /\ world_space_contains env minerals = true
    /\ world_space_contains env gas = true
    /\ adjacent nexus minerals /\ adjacent nexus gas /\ minerals ≠ gas
    /\ objects_of placed
       = map (fun w => (OWorker w, nexus)) (Workers env)
         ++ [(OResource MINERALS, minerals); (OResource GAS, gas)]
    /\ buildings_of placed = (nexus, Nexus) :: rest
    /\ forall p b, (p, b) ∈ rest ->
         world_space_contains env p = true
         /\ (b = Assimilator -> p = gas)
         /\ (b ≠ Assimilator -> p ∉ [nexus; minerals; gas]).
Proof.
  unfold place_objects. destruct (decide _) as [|Hw]; [done|].
  pose proof (choice_below_lt (WORLD_SIZE env) g ltac:(lia)) as Hni.
  destruct (choice_below _ g) as [ni g1].
  pose proof (choice_below_lt (WORLD_SIZE env) g1 ltac:(lia)) as Hnj.
  destruct (choice_below _ g1) as [nj g2]. simpl in Hni, Hnj.
  set (nexus := (Z.of_nat ni, Z.of_nat nj)).
  pose proof (resource_locations_NoDup env nexus) as Hnd.
  pose proof (resource_locations_adjacent env nexus) as Hadj.
  set (resource_locations := List.filter _ _) in *.
  destruct (decide _) as [|Hlen]; [done|].
  destruct (choice_below _ g2) as [m g3]. destruct (choice_below _ g3) as [k g4].
  intros H. inv_Ok H. rename x into minerals, x0 into gas.
  apply or_raise_Ok in Hx, Hx0.
  destruct (random g4) as [u g5]. inv_Ok H. destruct x as [initial g6].
  inversion H; subst placed g'. clear H.
  pose proof (initial_buildings_layout env _ _ _ _ _ _ ltac:(lia) Hx1) as Hinit.
  pose proof (lookup_delete_distinct _ _ _ _ _ Hnd Hx Hx0) as Hdistinct.
  destruct (Hadj minerals) as [Hmw Hma]; [by eapply list_elem_of_lookup_2|].
  destruct (Hadj gas) as [Hgw Hga].
  { eapply list_elem_of_delete_inv, list_elem_of_lookup_2, Hx0. }
  exists nexus, minerals, gas. eexists.
  split. { unfold world_space_contains, nexus. apply bool_decide_eq_true.
           simpl. lia. }
  do 5 (split; [done|]). split; [|split].
  - unfold objects_of. simpl.
    rewrite !omap_app.
    change (omap _ ?l) with (objects_of l).
    rewrite objects_of_workers. f_equal. simpl. f_equal. f_equal.
    apply objects_of_buildings. intros o p [Hin|Hin]%elem_of_app.
    + destruct (Qltb u (assimilator_prob env)).
      * apply list_elem_of_singleton in Hin. inversion Hin. by eexists.
      * by apply elem_of_nil in Hin.
    + destruct (Hinit o p Hin) as (b & -> & _). by exists b.
  - unfold buildings_of. simpl. f_equal.
  - intros p b Hin.
    change (omap _ ?l) with (buildings_of l) in Hin.
    apply buildings_of_elem in Hin.
    rewrite elem_of_app, !elem_of_cons, elem_of_app in Hin.
    destruct Hin as [Hin | [Hin | [Hin | [Hin | Hin]]]]; [|done|done| |].
    + apply list_elem_of_fmap in Hin as (w & Hw' & _). done.
    + destruct (Qltb u (assimilator_prob env)).
      * apply list_elem_of_singleton in Hin. by inversion Hin; subst.
      * by apply elem_of_nil in Hin.
    + destruct (Hinit _ _ Hin) as (b' & Hb' & Hassim & Hother).
      inversion Hb'; subst b'.
      destruct (decide (b = Assimilator)) as [Hb|Hb].
      * rewrite (Hassim Hb). done.
      * destruct (Hother Hb) as [Hocc Hworld]. done.
Qed.

(** X6.  The layout that [place_objects] yields: the Nexus comes first,
    on a tile of the grid; minerals and gas lie on two different tiles of the
    grid next to the Nexus; every worker stands on the Nexus tile; of the
    further buildings, an Assimilator stands on the gas tile and any other
    one on a tile of the grid that is none of the three. *)
Theorem place_objects_layout env fuel g placed g' :
  place_objects env fuel g = Ok (placed, g') ->
  exists nexus minerals gas rest,
    world_space_contains env nexus = true
    /\ world_space_contains env minerals = true
    /\ world_space_contains env gas = true
    /\ adjacent nexus minerals /\ adjacent nexus gas /\ minerals ≠ gas
    /\ objects_of placed
       = map (fun w => (OWorker w, nexus)) (Workers env)
         ++ [(OResource MINERALS, minerals); (OResource GAS, gas)]
    /\ buildings_of placed = (nexus, Nexus) :: rest
    /\ forall p b, (p, b) ∈ rest ->
         world_space_contains env p = true
         /\ (b = Assimilator -> p = gas)
         /\ (b ≠ Assimilator -> p ∉ [nexus; minerals; gas]).
Proof. apply place_objects_shape. Qed.

Lemma choice_buildings_empty bs k g e :
  choice_buildings bs k g = Raise e ->
  e = ValueError /\ bs = [] /\ 0 < k.
Proof.
  revert g. induction k as [|k IH]; intros g; simpl; [done|].
  pose proof (choice_below_lt (length bs) g) as Hlt.
  destruct (choice_below _ g) as [i g1]. simpl in Hlt. intros H.
  apply rbind_Raise in H as [H | (b & _ & H)].
  - destruct (bs !! i) eqn:Hi; [done|]. simpl in H. inversion H; subst e.
    split; [done|]. split; [|lia].
    destruct bs as [|b bs]; [done|].
    apply lookup_ge_None in Hi. simpl in *. lia.
  - apply rbind_Raise in H as [H | ([rest g2] & _ & H)]; [|done].
    apply IH in H as (-> & -> & _). split; [done|]. split; [done|lia].
Qed.

Lemma initial_buildings_exception env occupied gas fuel g e :
  initial_buildings env occupied gas fuel g = Raise e ->
  (e = ValueError /\ Buildings env = [] /\ 0 < num_initial_buildings env)
  \/ (e = OutOfFuel /\ (fuel = 0 \/ 0 < num_initial_buildings env)).
Proof.
  revert g. induction fuel as [|fuel IH]; intros g; simpl.
  - intros [= <-]. right. split; [done|by left].
  - destruct (choice_coords _ _ g) as [initial_pos g1] eqn:Hcoords.
    destruct (existsb _ initial_pos) eqn:Hex.
    + intros H. apply IH in H as [H|[-> _]]; [by left|].
      right. split; [done|]. right.
      destruct (num_initial_buildings env); [|lia].
      simpl in Hcoords. by inversion Hcoords; subst.
    + intros H. apply rbind_Raise in H as [H | ([bs g2] & _ & H)]; [|done].
      apply choice_buildings_empty in H. by left.
Qed.

Lemma place_objects_outcome env fuel g :
  match place_objects env fuel g with
  | Ok _ => 2 <= WORLD_SIZE env
  | Raise e =>
      (e = ValueError
       /\ (WORLD_SIZE env < 2
           \/ (Buildings env = [] /\ 0 < num_initial_buildings env)))
      \/ (e = OutOfFuel /\ 2 <= WORLD_SIZE env
          /\ (fuel = 0 \/ 0 < num_initial_buildings env))
  end.
Proof.
  unfold place_objects. destruct (decide _) as [Hz|Hw].
  { left. split; [done|]. left. lia. }
  pose proof (choice_below_lt (WORLD_SIZE env) g ltac:(lia)) as Hni.
  destruct (choice_below _ g) as [ni g1].
  pose proof (choice_below_lt (WORLD_SIZE env) g1 ltac:(lia)) as Hnj.
  destruct (choice_below _ g1) as [nj g2]. simpl in Hni, Hnj.
  pose proof (resource_locations_count env ni nj Hni Hnj) as Hcount.
  set (resource_locations := List.filter _ _) in *.
  destruct (decide _) as [Hshort|Hlen].
  { left. split; [done|]. left. lia. }
  assert (2 <= WORLD_SIZE env) as Hside by (apply Hcount; lia).
  pose proof (choice_below_lt (length resource_locations) g2 ltac:(lia)) as Hm.
  destruct (choice_below _ g2) as [m g3].
  pose proof (choice_below_lt (length resource_locations - 1) g3 ltac:(lia)) as Hk.
  destruct (choice_below _ g3) as [k g4]. simpl in Hm, Hk.
  destruct (lookup_lt_is_Some_2 resource_locations m Hm) as [minerals ->].
  destruct (lookup_lt_is_Some_2 (delete m resource_locations) k) as [gas ->].
  { rewrite length_delete by (by apply lookup_lt_is_Some_2). lia. }
  simpl. destruct (random g4) as [u g5].
  destruct (initial_buildings env _ gas fuel g5) as [[initial g6]|e] eqn:Hinit;
    simpl; [done|].
  apply initial_buildings_exception in Hinit
    as [(-> & Hb & Hn) | (-> & Hf)].
  - left. split; [done|]. by right.
  - right. done.
Qed.

(** X7.  What [place_objects] can raise.  It returns only on a grid of
    side two or more.  A [ValueError] means that the grid is smaller than
    that (there are no two tiles for the resources), or that initial
    buildings are asked of an empty table; the only other way out is that
    the rejection loop of the initial buildings has not ended within the
    fuel, which needs initial buildings to place or no fuel at all. *)
Theorem place_objects_defined env fuel g :
  match place_objects env fuel g with
  | Ok _ => 2 <= WORLD_SIZE env
  | Raise e =>
      (e = ValueError
       /\ (WORLD_SIZE env < 2
           \/ (Buildings env = [] /\ 0 < num_initial_buildings env)))
      \/ (e = OutOfFuel /\ 2 <= WORLD_SIZE env
          /\ (fuel = 0 \/ 0 < num_initial_buildings env))
  end.
Proof. apply place_objects_outcome. Qed.

Section PlacementWitnesses.
Import SpecModel Scenario.

Lemma place_objects_layout_witness :
  exists placed g',
    place_objects seeded 5 (drop 7 seeded_tape) = Ok (placed, g')
    /\ buildings_of placed = [(nexus_tile, Nexus); ((3, 3)%Z, Other 0)]
    /\ exists nexus minerals gas,
         adjacent nexus minerals /\ adjacent nexus gas /\ minerals ≠ gas
         /\ objects_of placed
            = map (fun w => (OWorker w, nexus)) (Workers seeded)
              ++ [(OResource MINERALS, minerals); (OResource GAS, gas)].
Proof.
  do 2 eexists. split; [vm_compute; reflexivity|]. split; [reflexivity|].
  destruct (place_objects_layout seeded 5 (drop 7 seeded_tape) _ _ eq_refl)
    as (nexus & minerals & gas & rest & _ & _ & _ & Hm & Hg & Hne & Hobj & _).
  exists nexus, minerals, gas. by repeat split.
Defined.

End PlacementWitnesses.

(** ** The turn simulator, continued *)

Lemma keys_set_present {K V : Type} `{EqDecision K} (d : Dict.t K V) k v v0 :
  Dict.get d k = Some v0 -> Dict.keys (Dict.set d k v) = Dict.keys d.
Proof.
  unfold Dict.keys. induction d as [|[k' v'] d IH]; simpl; [done|].
  destruct (decide (k' = k)) as [->|Hne]; simpl; [done|].
  intros Hget. f_equal. by apply IH.
Qed.

Lemma foldl_set_fresh {K V : Type} `{EqDecision K} (l d : list (K * V)) :
  NoDup (d ++ l).*1 ->
  foldl (fun d kv => Dict.set d kv.1 kv.2) d l = d ++ l.
Proof.
  revert d. induction l as [|[k v] l IH]; intros d Hnd; simpl.
  - by rewrite app_nil_r.
  - rewrite set_fresh.
    + rewrite IH; rewrite <- app_assoc; done.
    + rewrite fmap_app in Hnd. apply NoDup_app in Hnd as (_ & Hdisj & _).
      intros Hin. apply (Hdisj k Hin). simpl. left.
Qed.

Lemma of_list_NoDup {K V : Type} `{EqDecision K} (l : list (K * V)) :
  NoDup l.*1 -> Dict.of_list l = l.
Proof. intros Hnd. unfold Dict.of_list. by rewrite foldl_set_fresh. Qed.

Lemma foldl_del_get_Some {K V : Type} `{EqDecision K} (d : Dict.t K V)
    (ks : list K) k v :
  NoDup (Dict.keys d) ->
  Dict.get (foldl Dict.del d ks) k = Some v -> Dict.get d k = Some v.
Proof.
  revert d. induction ks as [|a ks IH]; intros d Hnd; simpl; [done|].
  intros Hget. apply IH in Hget; [|by apply keys_del_NoDup].
  rewrite get_del in Hget by done. by destruct (decide (a = k)).
Qed.

Lemma foldM_invariant_in {A B : Type} (P : B -> Prop) (f : B -> A -> result B)
    (l : list A) (b b' : B) :
  (forall b a b', a ∈ l -> P b -> f b a = Ok b' -> P b') ->
  P b -> foldM f l b = Ok b' -> P b'.
Proof.
  revert b. induction l as [|a l IH]; intros b Hstep Hb H; simpl in H.
  - by inversion H; subst.
  - inv_Ok H. apply (IH x); [|by eapply Hstep; [left|..]|done].
    intros b1 a1 b2 Hin. apply Hstep. by right.
Qed.

Lemma adjacent_distinct (p q : Coord) : adjacent p q -> p ≠ q.
Proof. intros Hadj ->. unfold adjacent in Hadj. lia. Qed.

Lemma initial_positions (ws : list Worker) (nexus minerals gas : Coord) :
  NoDup ws ->
  let ps : Dict.t Obj Coord :=
    Dict.of_list (map (fun w => (OWorker w, nexus)) ws
                  ++ [(OResource MINERALS, minerals); (OResource GAS, gas)]) in
  Dict.keys ps = (OWorker <$> ws) ++ [OResource MINERALS; OResource GAS]
  /\ Dict.get ps (OResource MINERALS) = Some minerals
  /\ Dict.get ps (OResource GAS) = Some gas
  /\ forall w, w ∈ ws -> Dict.get ps (OWorker w) = Some nexus.
Proof.
  intros Hws.
  assert ((map (fun w => (OWorker w, nexus)) ws).*1 = OWorker <$> ws) as Hkeys.
  { clear Hws. induction ws as [|w ws IH]; simpl; [done|]. by f_equal. }
  assert (NoDup (map (fun w => (OWorker w, nexus)) ws
                 ++ [(OResource MINERALS, minerals); (OResource GAS, gas)]).*1)
    as Hnd.
  { rewrite fmap_app, Hkeys. apply NoDup_app. split; [|split].
    - assert (Inj (=) (=) OWorker) as Hinj by (by intros w1 w2 [=]).
      by apply (NoDup_fmap_2 OWorker).
    - intros o (w & -> & _)%list_elem_of_fmap.
      simpl. rewrite !elem_of_cons, elem_of_nil. by intros [|[|]].
    - simpl. apply NoDup_cons. split; [|apply NoDup_singleton].
      by intros ?%list_elem_of_singleton. }
  simpl. rewrite of_list_NoDup by done. split; [|split; [|split]].
  - unfold Dict.keys. by rewrite fmap_app, Hkeys.
  - apply get_NoDup; [done|]. apply elem_of_app. right. left.
  - apply get_NoDup; [done|]. apply elem_of_app. right. right. left.
  - intros w Hw. apply get_NoDup; [done|]. apply elem_of_app. left.
    apply list_elem_of_fmap. by exists w.
Qed.

Section Invariants.
Context {CA Raw : Type} `{decoder : !CompoundActionOps CA Raw}
  `{resolver : !AssignmentOps}.
Context (env : Env).

Lemma ticks_inv (fr : Frame CA) a acts g sts :
  ticks env fr (a :: acts) g = Ok sts ->
  exists fr1 st fr2 g2 rest,
    resume env fr a = Ok fr1
    /\ emit env fr1 g = Ok (st, fr2, g2)
    /\ ticks env fr2 acts g2 = Ok rest
    /\ sts = st :: rest.
Proof.
  simpl. intros H. apply rbind_Ok in H as (fr1 & Hresume & H).
  apply rbind_Ok in H as ([[st fr2] g2] & Hemit & H). simpl in H.
  apply rbind_Ok in H as (rest & Hrest & H). inversion H; subst sts.
  by exists fr1, st, fr2, g2, rest.
Qed.

Lemma state_generator_inv lines deps fuel acts g (sts : list (State CA)) :
  state_generator env lines deps fuel acts g = Ok sts ->
  exists fr0 g0 st fr g1 rest,
    state_generator_init env lines deps fuel g = Ok (fr0, g0)
    /\ emit env fr0 g0 = Ok (st, fr, g1)
    /\ ticks env fr acts g1 = Ok rest
    /\ sts = st :: rest.
Proof.
  unfold state_generator. intros H.
  apply rbind_Ok in H as ([fr0 g0] & Hinit & H).
  apply rbind_Ok in H as ([[st fr] g1] & Hemit & H). simpl in H.
  apply rbind_Ok in H as (rest & Hrest & H). inversion H; subst sts.
  by exists fr0, g0, st, fr, g1, rest.
Qed.

Lemma state_generator_init_inv lines deps fuel g (fr : Frame CA) g' :
  state_generator_init env lines deps fuel g = Ok (fr, g') ->
  exists placed,
    place_objects env fuel g = Ok (placed, g')
    /\ fr = mkFrame deps (Dict.of_list (buildings_of placed))
              (Dict.of_list (objects_of placed))
              (Dict.of_list (map (fun w => (w, initial_assignment)) (Workers env)))
              [] (counter_of (required_buildings lines)) ∅ 0%Z compound_action
              (if evaluating env then (eval_steps env - 1)%Z
               else ((1 + Z.of_nat (length lines)) * time_per_line env)%Z)
              [].
Proof.
  unfold state_generator_init. intros H.
  apply rbind_Ok in H as ([placed g1] & Hplaced & H).
  inversion H; subst. by exists placed.
Qed.

(** Invariants of the loop: [J] holds of the frame when the loop head is
    reached, [I] when the generator is suspended, [P] of the state. *)
Lemma ticks_Forall (I J : Frame CA -> Prop) (P : State CA -> Prop) :
  (forall fr a fr', I fr -> resume env fr a = Ok fr' -> J fr') ->
  (forall fr g st fr' g',
      J fr -> emit env fr g = Ok (st, fr', g') -> P st /\ I fr') ->
  forall acts fr g sts,
    I fr -> ticks env fr acts g = Ok sts -> Forall P sts.
Proof.
  intros Hresume Hemit. induction acts as [|a acts IH]; intros fr g sts Hfr H.
  - inversion H. constructor.
  - apply ticks_inv in H as (fr1 & st & fr2 & g2 & rest & H1 & H2 & H3 & ->).
    destruct (Hemit _ _ _ _ _ (Hresume _ _ _ Hfr H1) H2) as [Hst Hfr2].
    constructor; [done|]. by eapply IH.
Qed.

Lemma state_generator_Forall (I J : Frame CA -> Prop) (P : State CA -> Prop)
    lines deps fuel acts g sts :
  (forall fr g', state_generator_init env lines deps fuel g = Ok (fr, g') -> J fr) ->
  (forall fr a fr', I fr -> resume env fr a = Ok fr' -> J fr') ->
  (forall fr g st fr' g',
      J fr -> emit env fr g = Ok (st, fr', g') -> P st /\ I fr') ->
  state_generator env lines deps fuel acts g = Ok sts -> Forall P sts.
Proof.
  intros Hinit Hresume Hemit H.
  apply state_generator_inv in H
    as (fr0 & g0 & st & fr & g1 & rest & H0 & H1 & H2 & ->).
  destruct (Hemit _ _ _ _ _ (Hinit _ _ H0) H1) as [Hst Hfr].
  constructor; [done|]. by eapply (ticks_Forall I J P).
Qed.

Lemma resume_invariant (P : Frame CA -> Prop) (fr : Frame CA) a fr' :
  (forall fr1 w asg fr2,
      P fr1 -> resolve_worker env fr1 (w, asg) = Ok fr2 -> P fr2) ->
  P (mkFrame (f_dependencies fr) (f_building_positions fr) (f_positions fr)
       (Dict.set (f_assignments fr) (worker a) (assignment a))
       (f_next_actions fr) (f_required fr) (f_resources fr) (ptr a) a
       (f_time_remaining fr - 1)%Z (f_nexus_positions fr)) ->
  resume env fr a = Ok fr' -> P fr'.
Proof.
  intros Hstep Hstart H. unfold resume in H.
  eapply (foldM_invariant P); [|exact Hstart|exact H].
  intros fr1 [w asg] fr2. apply Hstep.
Qed.

Lemma resolve_worker_cases (fr : Frame CA) w asg (fr' : Frame CA) :
  resolve_worker env fr (w, asg) = Ok fr' ->
  exists wp,
    Dict.get (f_positions fr) (OWorker w) = Some wp
    /\ ((exists delta,
           assignment_action asg wp (f_positions fr) (f_nexus_positions fr)
             = Movement delta
           /\ f_positions fr'
              = Dict.set (f_positions fr) (OWorker w) (coord_add wp delta)
           /\ f_building_positions fr' = f_building_positions fr)
        \/ (exists b0 loc b allowed,
              asg = BuildOrder b0 loc
              /\ assignment_action asg wp (f_positions fr) (f_nexus_positions fr)
                 = Build b
              /\ construction_admitted env fr b loc = Ok allowed
              /\ fr' = if allowed then constructed env fr wp b else fr)).
Proof.
  intros H. pose proof H as H0. unfold resolve_worker in H0. simpl in H0.
  apply rbind_Ok in H0 as (wp & Hwp & H0). apply or_raise_Ok in Hwp.
  exists wp. split; [done|].
  destruct (assignment_action asg wp (f_positions fr) (f_nexus_positions fr))
    as [delta|b|] eqn:Hact; [| |done].
  - left. exists delta. split; [done|].
    rewrite (resolve_worker_movement env fr w asg wp delta Hwp Hact) in H.
    simpl in H. destruct (decide _).
    + inv_Ok H. by inversion H.
    + by inversion H.
  - right. destruct asg as [r|b0 loc].
    + apply rbind_Ok in H0 as (dep & _ & H0).
      by apply rbind_Ok in H0 as (location & Hlocation & _).
    + exists b0, loc, b.
      rewrite (resolve_worker_build env fr w b0 loc wp b Hwp Hact) in H.
      apply rbind_Ok in H as (allowed & Hallowed & H). exists allowed.
      do 3 (split; [done|]). destruct allowed; by inversion H.
Qed.

Lemma resolve_worker_places (fr : Frame CA) w asg (fr' : Frame CA) :
  resolve_worker env fr (w, asg) = Ok fr' ->
  places_kept (f_positions fr) (f_positions fr').
Proof.
  intros H. apply resolve_worker_cases in H
    as (wp & Hwp & [(delta & _ & -> & _) | (b0 & loc & b & allowed & _ & _ & _ & ->)]).
  - split; [by eapply keys_set_present|].
    intros r. rewrite get_set. by destruct (decide _).
  - by destruct allowed.
Qed.

Lemma resume_places (fr : Frame CA) a (fr' : Frame CA) :
  resume env fr a = Ok fr' -> places_kept (f_positions fr) (f_positions fr').
Proof.
  apply (resume_invariant (fun fr1 => places_kept (f_positions fr) (f_positions fr1))).
  - intros fr1 w asg fr2 [Hkeys Hres] [Hkeys' Hres']%resolve_worker_places.
    split; [congruence|]. intros r. by rewrite Hres'.
  - done.
Qed.

(** X8.  The countdown of the turn simulator: the state yielded for the
    [i]-th complete action has the time budget of the suspended generator
    less [i + 1] (nothing stops it at zero), and carries that action and its
    pointer; one state is yielded per action. *)
Theorem ticks_countdown (fr : Frame CA) acts g sts :
  ticks env fr acts g = Ok sts ->
  length sts = length acts
  /\ forall i st a, sts !! i = Some st -> acts !! i = Some a ->
       time_remaining st = (f_time_remaining fr - Z.of_nat (S i))%Z
       /\ pointer st = ptr a
       /\ action st = a.
Proof.
  revert fr g sts. induction acts as [|a acts IH]; intros fr g sts H.
  - by inversion H.
  - apply ticks_inv in H as (fr1 & st & fr2 & g2 & rest & H1 & H2 & H3 & ->).
    apply resume_control in H1 as (_ & Htime & Hptr & Haction & _).
    apply emit_Ok in H2
      as (_ & _ & _ & _ & _ & Htime' & Haction' & Hptr' & _ & _ & _ & _ & _ & Htime'').
    destruct (IH _ _ _ H3) as [Hlen Hrest]. split; [simpl; by f_equal|].
    intros [|i] st' a' Hst Ha; simpl in Hst, Ha.
    + inversion Hst; inversion Ha; subst st' a'.
      rewrite Htime', Htime, Hptr', Hptr, Haction', Haction.
      split; [lia|done].
    + destruct (Hrest i st' a' Hst Ha) as (Ht & Hp & Hact).
      rewrite Ht, Htime'', Htime. split; [lia|done].
Qed.

(** X9.  The dictionary of positions keeps its keys, the workers in the
    order of the enumeration and then the two resources, through every state
    of an episode, and the two resources stay where [place_objects] has put
    them, on two different tiles: only workers move. *)
Theorem positions_stable lines deps fuel acts g sts :
  NoDup (Workers env) ->
  state_generator env lines deps fuel acts g = Ok sts ->
  exists minerals gas,
    minerals ≠ gas
    /\ Forall (fun st : State CA =>
                 Dict.keys (positions st)
                 = (OWorker <$> Workers env)
                   ++ [OResource MINERALS; OResource GAS]
                 /\ Dict.get (positions st) (OResource MINERALS) = Some minerals
                 /\ Dict.get (positions st) (OResource GAS) = Some gas) sts.
Proof.
  intros Hworkers H. pose proof H as Hrun.
  apply state_generator_inv in H
    as (fr0 & g0 & st & fr & g1 & rest & H0 & _ & _ & _).
  apply state_generator_init_inv in H0 as (placed & Hplaced & ->).
  destruct (place_objects_shape _ _ _ _ _ Hplaced)
    as (nexus & minerals & gas & others & _ & _ & _ & _ & _ & Hne & Hobj & _).
  destruct (initial_positions (Workers env) nexus minerals gas Hworkers)
    as (Hk0 & Hm0 & Hg0 & _).
  exists minerals, gas. split; [done|].
  set (Q := fun ps : Dict.t Obj Coord =>
              Dict.keys ps
              = (OWorker <$> Workers env) ++ [OResource MINERALS; OResource GAS]
              /\ Dict.get ps (OResource MINERALS) = Some minerals
              /\ Dict.get ps (OResource GAS) = Some gas).
  assert (forall ps ps', Q ps -> places_kept ps ps' -> Q ps') as Hkept.
  { intros ps ps' (Hk & Hm & Hg) [Hk' Hr]. unfold Q.
    by rewrite Hk', !Hr. }
  apply (state_generator_Forall
           (fun fr => Q (f_positions fr)) (fun fr => Q (f_positions fr))
           (fun st => Q (positions st)) _ _ _ _ _ _) in Hrun; [done|..].
  - intros fr1 g' Hinit.
    apply state_generator_init_inv in Hinit as (placed' & Hplaced' & ->).
    simpl.
    assert (placed' = placed) as -> by congruence.
    by rewrite Hobj.
  - intros fr1 a fr2 HQ Hresume. eapply Hkept; [exact HQ|].
    eapply resume_places, Hresume.
  - intros fr1 g' st' fr2 g2 HQ Hemit.
    apply emit_Ok in Hemit
      as (_ & _ & _ & Hpos & _ & _ & _ & _ & _ & Hpos' & _).
    by rewrite Hpos, Hpos'.
Qed.

Lemma construction_admitted_true (fr : Frame CA) b loc :
  construction_admitted env fr b loc = Ok true ->
  cost env b ⊆ f_resources fr
  /\ (loc ∉ Dict.keys (f_building_positions fr))
  /\ Dict.get (f_dependencies fr) b = Some None.
Proof.
  unfold construction_admitted. intros H.
  apply rbind_Ok in H as (dep & Hdep & H). apply or_raise_Ok in Hdep.
  apply building_allowed_true in H as (Hins & Hfree & ->).
  by apply insufficient_resources_spec in Hins.
Qed.

Lemma construction_admitted_tile (fr : Frame CA) b loc minerals gas :
  Dict.get (f_positions fr) (OResource MINERALS) = Some minerals ->
  Dict.get (f_positions fr) (OResource GAS) = Some gas ->
  construction_admitted env fr b loc = Ok true ->
  (b = Assimilator -> loc = gas)
  /\ (b ≠ Assimilator -> loc ≠ gas /\ loc ≠ minerals).
Proof.
  intros Hm Hg H. pose proof H as H0. unfold construction_admitted in H0.
  apply rbind_Ok in H0 as (dep & Hdep & _). apply or_raise_Ok in Hdep.
  destruct (construction_admitted_spec env fr b loc dep gas minerals Hdep Hg Hm)
    as (ok & Hok & Hiff).
  rewrite H in Hok. inversion Hok; subst ok.
  destruct Hiff as [Hiff _]. by destruct (Hiff eq_refl) as (_ & _ & _ & ? & ?).
Qed.

Lemma resolve_worker_tiles (fr : Frame CA) w asg (fr' : Frame CA) :
  builds_in_place ->
  resolve_worker env fr (w, asg) = Ok fr' ->
  NoDup (Dict.keys (f_building_positions fr))
  /\ tiles_respected (f_positions fr) (f_building_positions fr) ->
  NoDup (Dict.keys (f_building_positions fr'))
  /\ tiles_respected (f_positions fr') (f_building_positions fr').
Proof.
  intros Hplace H [Hnd (minerals & gas & Hm & Hg & Hne & Htiles)].
  pose proof (resolve_worker_places _ _ _ _ H) as [_ Hres].
  apply resolve_worker_cases in H
    as (wp & Hwp & [(delta & _ & _ & Hbp)
                   | (b0 & loc & b & allowed & -> & Hact & Hadm & ->)]).
  - rewrite Hbp. split; [done|]. exists minerals, gas. by rewrite !Hres.
  - destruct allowed; [|split; [done|by exists minerals, gas]].
    apply Hplace in Hact as ->.
    destruct (construction_admitted_tile _ _ _ _ _ Hm Hg Hadm)
      as [Hassim Hother].
    unfold constructed. simpl. split; [by apply keys_set_NoDup|].
    exists minerals, gas. do 3 (split; [done|]).
    intros p b'. rewrite get_set.
    destruct (decide (loc = p)) as [<-|_]; [|apply Htiles].
    intros [= <-]. destruct (decide (b = Assimilator)) as [Hb|Hb].
    + rewrite (Hassim Hb). by split.
    + destruct (Hother Hb). by split.
Qed.

(** X10.  When a construction is resolved only for a worker that stands on
    the target, the buildings respect the resource tiles in every state of
    an episode: no building ever stands on the minerals, every Assimilator
    stands on the gas, and nothing but an Assimilator stands there. *)
Theorem resource_tiles_respected lines deps fuel acts g sts :
  builds_in_place ->
  state_generator env lines deps fuel acts g = Ok sts ->
  Forall (fun st : State CA =>
            tiles_respected (positions st) (building_positions st)) sts.
Proof.
  intros Hplace.
  set (J := fun fr : Frame CA =>
              NoDup (Dict.keys (f_building_positions fr))
              /\ tiles_respected (f_positions fr) (f_building_positions fr)).
  apply (state_generator_Forall J J).
  - intros fr g' Hinit.
    apply state_generator_init_inv in Hinit as (placed & Hplaced & ->).
    apply place_objects_shape in Hplaced
      as (nexus & minerals & gas & rest & _ & _ & _ & Hma & Hga & Hne & Hobj
          & Hbuildings & Hrest).
    split; simpl; [apply keys_of_list_NoDup|].
    exists minerals, gas. rewrite Hobj, Hbuildings.
    split; [|split; [|split; [done|]]].
    + rewrite get_of_list, reverse_app, get_app. done.
    + rewrite get_of_list, reverse_app, get_app. done.
    + intros p b [Heq|Hin]%get_of_list_Some_key%elem_of_cons.
      * inversion Heq; subst p b.
        apply adjacent_distinct in Hma, Hga. by split.
      * destruct (Hrest p b Hin) as (_ & Hassim & Hother).
        destruct (decide (b = Assimilator)) as [Hb|Hb].
        -- rewrite (Hassim Hb). by split.
        -- specialize (Hother Hb).
           rewrite !not_elem_of_cons in Hother.
           destruct Hother as (_ & ? & ? & _). by split.
  - intros fr a fr' HJ. apply (resume_invariant J); [|done].
    intros fr1 w asg fr2 HJ1 Hstep. by eapply resolve_worker_tiles.
  - intros fr g' st fr' g2 [Hnd (minerals & gas & Hm & Hg & Hne & Htiles)] Hemit.
    apply emit_Ok in Hemit
      as (Hbp & Hbp' & _ & Hpos & _ & _ & _ & _ & _ & Hpos' & _).
    assert (tiles_respected (f_positions fr) (after_destruction env fr g'))
      as Hafter.
    { exists minerals, gas. do 3 (split; [done|]). intros p b Hget.
      apply Htiles. by eapply foldl_del_get_Some. }
    unfold J. rewrite Hbp, Hbp', Hpos, Hpos'. split; [done|].
    split; [|done]. by apply foldl_del_NoDup.
Qed.

(** X11.  A worker whose resolved action is a building either leaves the
    frame as it is, or the building is entered at the tile of the worker
    and its cost is taken in full, no count being cut at zero; this happens
    only when the target tile is free and the building has no dependency. *)
Theorem construction_pays (fr : Frame CA) w b0 loc wp b (fr' : Frame CA) :
  Dict.get (f_positions fr) (OWorker w) = Some wp ->
  assignment_action (BuildOrder b0 loc) wp (f_positions fr)
    (f_nexus_positions fr) = Build b ->
  resolve_worker env fr (w, BuildOrder b0 loc) = Ok fr' ->
  fr' = fr
  \/ (f_building_positions fr'
      = Dict.set (f_building_positions fr) wp b
      /\ f_resources fr' ⊎ cost env b = f_resources fr
      /\ f_positions fr' = f_positions fr
      /\ (loc ∉ Dict.keys (f_building_positions fr))
      /\ Dict.get (f_dependencies fr) b = Some None).
Proof.
  intros Hwp Hact H.
  rewrite (resolve_worker_build env fr w b0 loc wp b Hwp Hact) in H.
  apply rbind_Ok in H as (allowed & Hadm & H).
  destruct allowed; inversion H; subst fr'; [right|by left].
  apply construction_admitted_true in Hadm as (Hcost & Hfree & Hdep).
  unfold constructed. simpl. do 2 (split; [try done|]).
  - multiset_solver.
  - done.
Qed.

Lemma counter_covered `{Countable A} (c rs : Counter A) :
  negb (counter_bool (c ∖ rs)) = true
  <-> forall x, multiplicity x c <= multiplicity x rs.
Proof.
  rewrite negb_true_iff. unfold counter_bool. rewrite bool_decide_eq_false.
  split.
  - intros Hn x. destruct (decide (c ∖ rs = ∅)) as [He|He]; [|by destruct Hn].
    pose proof (f_equal (multiplicity x) He) as Hx.
    rewrite multiplicity_difference, multiplicity_empty in Hx. lia.
  - intros Hle Hne. apply Hne. apply gmultiset_eq. intros x.
    rewrite multiplicity_difference, multiplicity_empty.
    specialize (Hle x). lia.
Qed.

Lemma multiplicity_counter_of (l : list Building) (b : Building) :
  multiplicity b (counter_of l) = count_occ Building_eq_dec l b.
Proof.
  unfold counter_of. induction l as [|a l IH]; simpl.
  - apply multiplicity_empty.
  - rewrite multiplicity_disj_union, multiplicity_singleton, IH.
    destruct (Building_eq_dec a b) as [Hab|Hab], (decide (b = a)) as [Hba|Hba];
      congruence || lia.
Qed.

(** X12.  In every state of an episode the success flag says that every
    building stands at least as many times as there are required lines
    that name it: a building named by two required lines has to stand
    twice. *)
Theorem success_counts lines deps fuel acts g sts :
  state_generator env lines deps fuel acts g = Ok sts ->
  Forall (fun st : State CA =>
            success st = true
            <-> forall b,
                  count_occ Building_eq_dec (required_buildings lines) b
                  <= count_occ Building_eq_dec
                       (Dict.values (building_positions st)) b) sts.
Proof.
  set (J := fun fr : Frame CA =>
              f_required fr = counter_of (required_buildings lines)).
  apply (state_generator_Forall J J).
  - intros fr g' Hinit.
    by apply state_generator_init_inv in Hinit as (placed & _ & ->).
  - intros fr a fr' HJ. apply (resume_invariant J); [|done].
    intros fr1 w asg fr2 HJ1 Hstep.
    apply resolve_worker_control in Hstep as (_ & _ & _ & Hreq & _).
    unfold J. by rewrite Hreq.
  - intros fr g' st fr' g2 HJ Hemit.
    apply emit_Ok in Hemit
      as (Hbp & _ & Hsuccess & _ & _ & _ & _ & _ & Hreq & _).
    split; [|unfold J; by rewrite Hreq].
    rewrite Hsuccess, Hbp, HJ, counter_covered.
    split; intros Hle b; specialize (Hle b);
      by rewrite !multiplicity_counter_of in *.
Qed.

Lemma Qltb_nonpositive (u p : Q) :
  (p <= 0)%Q -> (0 <= Qnum u)%Z -> Qltb u p = false.
Proof.
  intros Hp Hu. unfold Qltb. apply negb_false_iff, Qle_bool_iff.
  unfold Qle in *. simpl in Hp. nia.
Qed.

Lemma Qltb_certain (u p : Q) : unit_draw u -> (1 <= p)%Q -> Qltb u p = true.
Proof.
  intros [Hden Hnum] Hp. unfold Qltb. apply negb_true_iff.
  destruct (Qle_bool p u) eqn:Hle; [|done].
  apply Qle_bool_iff in Hle. pose proof (Qle_trans _ _ _ Hp Hle) as H1.
  unfold Qle in H1. simpl in H1. rewrite Hden in H1. lia.
Qed.

Lemma destroyed_buildings_nonpositive p items g :
  (p <= 0)%Q -> (destroyed_buildings p items g).1 = [].
Proof.
  intros Hp. revert g. induction items as [|[c b] items IH]; intros g; simpl;
    [done|].
  pose proof (random_unit_draw g) as [_ [Hu _]].
  destruct (random g) as [u g1]. simpl in Hu.
  specialize (IH g1). destruct (destroyed_buildings p items g1) as [ds g2].
  simpl in *. subst ds. by rewrite (Qltb_nonpositive u p Hp Hu).
Qed.

Lemma destroyed_buildings_certain p items g c b :
  (1 <= p)%Q -> (c, b) ∈ items -> b ≠ Nexus ->
  (c, b) ∈ (destroyed_buildings p items g).1.
Proof.
  intros Hp Hin Hb. revert g.
  induction items as [|[c' b'] items IH]; intros g; simpl.
  { by apply elem_of_nil in Hin. }
  pose proof (random_unit_draw g) as Hu.
  destruct (random g) as [u g1]. simpl in Hu.
  rewrite (Qltb_certain u p Hu Hp). simpl.
  apply elem_of_cons in Hin as [Heq|Hin].
  - inversion Heq; subst c' b'.
    destruct (destroyed_buildings p items g1) as [ds g2]. simpl.
    rewrite bool_decide_eq_true_2 by done. left.
  - specialize (IH Hin g1).
    destruct (destroyed_buildings p items g1) as [ds g2]. simpl in *.
    destruct (bool_decide (b' ≠ Nexus)); [by right|done].
Qed.

Lemma foldl_del_get_in {K V : Type} `{EqDecision K} (d : Dict.t K V)
    (ks : list K) k :
  NoDup (Dict.keys d) -> k ∈ ks -> Dict.get (foldl Dict.del d ks) k = None.
Proof.
  revert d. induction ks as [|a ks IH]; intros d Hnd Hin; simpl.
  { by apply elem_of_nil in Hin. }
  destruct (decide (k ∈ ks)) as [Hks|Hks].
  - apply IH; [by apply keys_del_NoDup|done].
  - apply elem_of_cons in Hin as [->|Hin]; [|done].
    rewrite foldl_del_get by (by apply keys_del_NoDup || done).
    rewrite get_del by done. by rewrite decide_True.
Qed.

(** X13.  The destruction at the head of the loop only removes entries, and
    never a Nexus: a building of the state stood before, and every Nexus
    that stood still stands.  With a probability of one or more, nothing
    but Nexuses is left; with a probability of zero or less, nothing is
    destroyed. *)
Theorem destruction_spares_nexus (fr : Frame CA) g st (fr' : Frame CA) g' :
  NoDup (Dict.keys (f_building_positions fr)) ->
  emit env fr g = Ok (st, fr', g') ->
  (forall p b, Dict.get (building_positions st) p = Some b ->
     Dict.get (f_building_positions fr) p = Some b)
  /\ (forall p, Dict.get (f_building_positions fr) p = Some Nexus ->
        Dict.get (building_positions st) p = Some Nexus)
  /\ ((1 <= destroy_building_prob env)%Q ->
      forall p b, Dict.get (building_positions st) p = Some b -> b = Nexus)
  /\ ((destroy_building_prob env <= 0)%Q ->
      building_positions st = f_building_positions fr).
Proof.
  intros Hnd Hemit. apply emit_Ok in Hemit as (-> & _).
  unfold after_destruction.
  split; [|split; [|split]].
  - intros p b. by apply foldl_del_get_Some.
  - intros p Hp. rewrite foldl_del_get; [done|done|].
    intros ([c b] & -> & Hin)%list_elem_of_fmap.
    apply destroyed_buildings_elem in Hin as [Hin Hb]. simpl in Hp.
    apply (get_NoDup _ _ _ Hnd) in Hin. congruence.
  - intros Hprob p b Hget. destruct (decide (b = Nexus)) as [|Hb]; [done|].
    pose proof (foldl_del_get_Some _ _ _ _ Hnd Hget) as Hbefore.
    apply get_Some_elem_of in Hbefore.
    rewrite foldl_del_get_in in Hget; [done|done|].
    apply list_elem_of_fmap. exists (p, b). split; [done|].
    by apply destroyed_buildings_certain.
  - intros Hprob. by rewrite destroyed_buildings_nonpositive.
Qed.

Lemma foldM_total {A B : Type} (P : B -> Prop) (f : B -> A -> result B)
    (l : list A) (b : B) :
  (forall b a, a ∈ l -> P b -> exists b', f b a = Ok b' /\ P b') ->
  P b -> exists b', foldM f l b = Ok b' /\ P b'.
Proof.
  revert b. induction l as [|a l IH]; intros b Hstep Hb; simpl.
  - by exists b.
  - destruct (Hstep b a) as (b1 & -> & Hb1); [left|done|]. simpl.
    apply IH; [|done]. intros b2 a2 Hin. apply Hstep. by right.
Qed.

Lemma is_Some_get {K V : Type} `{EqDecision K} (d : Dict.t K V) k :
  is_Some (Dict.get d k) <-> k ∈ Dict.keys d.
Proof.
  destruct (Dict.get d k) as [v|] eqn:E.
  - split; [|by eauto]. intros _.
    apply get_Some_elem_of in E. apply list_elem_of_fmap. by exists (k, v).
  - split; [by intros [v Hv]|]. intros Hin. by apply get_None in E.
Qed.

Lemma elem_of_set {K V : Type} `{EqDecision K} (d : Dict.t K V) k v kv :
  kv ∈ Dict.set d k v -> kv = (k, v) \/ kv ∈ d.
Proof.
  induction d as [|[k' v'] d IH]; simpl.
  - intros Hin%list_elem_of_singleton. by left.
  - destruct (decide (k' = k)) as [->|Hne].
    + intros [->|Hin]%elem_of_cons; [by left|]. right. by right.
    + intros [->|Hin]%elem_of_cons; [right; left|].
      destruct (IH Hin) as [->|Hd]; [by left|]. right. by right.
Qed.

Lemma elem_of_of_list {K V : Type} `{EqDecision K} (l : list (K * V)) kv :
  kv ∈ Dict.of_list l -> kv ∈ l.
Proof.
  unfold Dict.of_list.
  assert (forall d : Dict.t K V,
            kv ∈ foldl (fun d kv => Dict.set d kv.1 kv.2) d l ->
            kv ∈ d \/ kv ∈ l) as Hgen.
  { induction l as [|[k v] l IH]; intros d Hin; simpl in Hin; [by left|].
    destruct (IH _ Hin) as [Hset|Hl]; [|right; by right].
    apply elem_of_set in Hset as [->|Hd]; [right; left|by left]. }
  intros Hin. destruct (Hgen [] Hin) as [Hnil|Hl]; [|done].
  by apply elem_of_nil in Hnil.
Qed.

Lemma contract_builds_in_place : resolver_contract -> builds_in_place.
Proof.
  intros [_ Hbuild] b loc p ps nexus_positions b' Hact.
  destruct (Hbuild b loc p ps nexus_positions) as [[-> _] | [delta Hd]];
    [done | congruence].
Qed.

Lemma gather_all_total bp (ps : Dict.t Obj Coord) wp rs :
  (forall r, is_Some (Dict.get ps (OResource r))) ->
  exists rs', gather_all bp ps wp rs = Ok rs'.
Proof.
  intros Hres. destruct (Hres MINERALS) as [m Hm], (Hres GAS) as [gs Hg].
  unfold gather_all, gathered_resource. simpl.
  rewrite Hm. simpl. rewrite Hg. simpl. by eexists.
Qed.

Lemma resolve_worker_total deps (fr : Frame CA) w asg :
  resolver_contract ->
  ready env deps fr ->
  w ∈ Workers env ->
  (forall b loc, asg = BuildOrder b loc -> b ∈ Dict.keys deps) ->
  exists fr', resolve_worker env fr (w, asg) = Ok fr'.
Proof.
  intros [Hgather Hbuild] (Hdeps & _ & Hres & Hworkers & _) Hw Hasg.
  destruct (Hworkers w Hw) as [wp Hwp].
  assert (forall delta,
            assignment_action asg wp (f_positions fr) (f_nexus_positions fr)
              = Movement delta ->
            exists fr', resolve_worker env fr (w, asg) = Ok fr') as Hmove.
  { intros delta Hact.
    rewrite (resolve_worker_movement env fr w asg wp delta Hwp Hact). simpl.
    destruct (decide _); [|by eexists].
    destruct (gather_all_total (f_building_positions fr)
                (Dict.set (f_positions fr) (OWorker w) (coord_add wp delta))
                wp (f_resources fr)) as [rs ->]; [|by eexists].
    intros r. rewrite get_set. destruct (decide _); [done|apply Hres]. }
  destruct asg as [r|b loc].
  - destruct (Hgather r wp (f_positions fr) (f_nexus_positions fr) (Hres r))
      as [delta Hact]. by eapply Hmove.
  - destruct (Hbuild b loc wp (f_positions fr) (f_nexus_positions fr))
      as [[-> Hact] | [delta Hact]]; [|by eapply Hmove].
    rewrite (resolve_worker_build env fr w b loc loc b Hwp Hact).
    assert (is_Some (Dict.get (f_dependencies fr) b)) as [dep Hdep].
    { rewrite Hdeps. apply is_Some_get. by eapply Hasg. }
    destruct (Hres GAS) as [gas Hg], (Hres MINERALS) as [minerals Hm].
    destruct (construction_admitted_spec env fr b loc dep gas minerals
                Hdep Hg Hm) as (ok & -> & _).
    simpl. destruct ok; by eexists.
Qed.

Lemma resolve_worker_ready deps (fr : Frame CA) w asg (fr' : Frame CA) :
  builds_in_place ->
  ready env deps fr ->
  resolve_worker env fr (w, asg) = Ok fr' ->
  ready env deps fr' /\ f_assignments fr' = f_assignments fr.
Proof.
  intros Hplace (Hdeps & Hnexus & Hres & Hworkers & Hasg) H.
  pose proof (resolve_worker_control env _ _ _ _ H)
    as (Hd & Ha & _).
  pose proof (resolve_worker_places _ _ _ _ H) as [Hkeys Hres'].
  pose proof (resolve_worker_buildings env _ _ _ _ Hplace H) as [_ Hbp].
  split; [|done]. split; [congruence|]. split; [|split; [|split]].
  - destruct Hbp as [-> | (loc & b & Hloc & ->)]; [done|].
    by apply nexus_standing_append.
  - intros r. by rewrite Hres'.
  - intros w' Hw'. apply is_Some_get. rewrite Hkeys. apply is_Some_get.
    by apply Hworkers.
  - by rewrite Ha.
Qed.

Lemma resume_total deps (fr : Frame CA) a :
  resolver_contract ->
  ready env deps fr ->
  resolvable env deps a ->
  exists fr', resume env fr a = Ok fr' /\ ready env deps fr'.
Proof.
  intros Hcontract Hready [Hworker Hbuilding].
  pose proof (contract_builds_in_place Hcontract) as Hplace.
  unfold resume. set (fr1 := mkFrame _ _ _ _ _ _ _ _ _ _ _).
  assert (ready env deps fr1) as Hready1.
  { destruct Hready as (Hdeps & Hnexus & Hres & Hworkers & Hasg).
    do 4 (split; [done|]). intros w asg Hin. simpl in Hin.
    apply elem_of_set in Hin as [Heq|Hin]; [|by apply Hasg].
    inversion Heq; subst w asg. by split. }
  destruct (foldM_total
              (fun fr2 : Frame CA =>
                 ready env deps fr2 /\ f_assignments fr2 = f_assignments fr1)
              (resolve_worker env)
              (sorted_by_flag (fun wa => is_build_order wa.2) (f_assignments fr1))
              fr1) as (fr' & Hfold & Hready' & _); [|done|by exists fr'].
  intros fr2 [w asg] Hin [Hready2 Hsame].
  apply elem_of_sorted_by_flag in Hin.
  destruct Hready1 as (_ & _ & _ & _ & Hasg1).
  destruct (Hasg1 w asg Hin) as [Hw Hb].
  destruct (resolve_worker_total deps fr2 w asg Hcontract Hready2 Hw Hb)
    as [fr3 Hstep].
  exists fr3. split; [done|].
  destruct (resolve_worker_ready deps fr2 w asg fr3 Hplace Hready2 Hstep)
    as [Hready3 Hsame3].
  split; [done|congruence].
Qed.

Lemma emit_total deps (fr : Frame CA) g :
  ready env deps fr ->
  exists st fr' g', emit env fr g = Ok (st, fr', g') /\ ready env deps fr'.
Proof.
  intros Hready. pose proof Hready as (Hdeps & Hnexus & Hres & Hworkers & Hasg).
  assert (exists out, emit env fr g = Ok out) as [[[st fr'] g'] Hemit].
  { unfold emit.
    pose proof (nexus_standing_destroyed (destroy_building_prob env) _ g Hnexus)
      as Hstanding.
    apply nexus_standing_positions in Hstanding.
    destruct (destroyed_buildings _ _ g) as [destroyed g1]. simpl in Hstanding.
    destruct (decide _); [done|].
    match goal with
    | |- context [foldM ?f ?l ?b] =>
        destruct (foldM_total (fun _ => True) f l b) as (na & -> & _)
    end; [|done|simpl; by eexists].
    intros na [w asg] Hin _. simpl.
    destruct (Hasg w asg Hin) as [Hw _].
    destruct (Hworkers w Hw) as [p ->]. simpl. by eexists. }
  exists st, fr', g'. split; [done|].
  pose proof (emit_nexus env _ _ _ _ _ Hnexus Hemit) as [_ Hnexus'].
  apply emit_Ok in Hemit
    as (_ & _ & _ & _ & _ & _ & _ & _ & _ & Hpos & _ & Hassign & Hdeps' & _).
  split; [congruence|]. split; [done|].
  rewrite Hpos, Hassign. done.
Qed.

Lemma ticks_total deps (fr : Frame CA) acts g :
  resolver_contract ->
  ready env deps fr ->
  Forall (resolvable env deps) acts ->
  exists sts, ticks env fr acts g = Ok sts /\ length sts = length acts.
Proof.
  intros Hcontract. revert fr g.
  induction acts as [|a acts IH]; intros fr g Hready Hacts; simpl.
  - by exists [].
  - apply Forall_cons in Hacts as [Ha Hacts].
    destruct (resume_total deps fr a Hcontract Hready Ha) as (fr1 & -> & Hready1).
    simpl.
    destruct (emit_total deps fr1 g Hready1) as (st & fr2 & g2 & -> & Hready2).
    simpl.
    destruct (IH fr2 g2 Hready2 Hacts) as (rest & -> & Hlen). simpl.
    exists (st :: rest). split; [done|]. simpl. by f_equal.
Qed.

Lemma state_generator_init_ready lines deps fuel g (fr : Frame CA) g' :
  state_generator_init env lines deps fuel g = Ok (fr, g') ->
  ready env deps fr.
Proof.
  intros H. pose proof (state_generator_init_nexus env _ _ _ _ _ _ H) as Hnexus.
  apply state_generator_init_inv in H as (placed & Hplaced & ->).
  apply place_objects_shape in Hplaced
    as (nexus & minerals & gas & rest & _ & _ & _ & _ & _ & _ & Hobj & _).
  split; [done|]. split; [done|]. simpl. rewrite Hobj.
  split; [|split].
  - intros r. apply get_of_list_is_Some. rewrite fmap_app, elem_of_app.
    right. simpl. destruct r; [left|right; left].
  - intros w Hw. apply get_of_list_is_Some. rewrite fmap_app, elem_of_app.
    left. apply list_elem_of_fmap. exists (OWorker w, nexus). split; [done|].
    apply list_elem_of_fmap. by exists w.
  - intros w asg Hin%elem_of_of_list.
    apply list_elem_of_fmap in Hin as (w' & Heq & Hw'). inversion Heq; subst.
    by split.
Qed.

(** X14.  With a resolver that answers a gather assignment by a movement
    and a construct assignment by its building (on the target) or a
    movement, and actions whose worker is of the enumeration and whose
    building the dependency map knows, the turn simulator raises nothing
    once the objects are placed: it yields the first state and one state
    for every action. *)
Theorem state_generator_returns lines deps fuel acts g (fr0 : Frame CA) g0 :
  resolver_contract ->
  Forall (resolvable env deps) acts ->
  state_generator_init env lines deps fuel g = Ok (fr0, g0) ->
  exists sts,
    state_generator env lines deps fuel acts g = Ok sts
    /\ length sts = S (length acts).
Proof.
  intros Hcontract Hacts Hinit.
  pose proof (state_generator_init_ready _ _ _ _ _ _ Hinit) as Hready.
  unfold state_generator. rewrite Hinit. simpl.
  destruct (emit_total deps fr0 g0 Hready) as (st & fr & g1 & -> & Hready1).
  simpl.
  destruct (ticks_total deps fr acts g1 Hcontract Hready1 Hacts)
    as (rest & -> & Hlen).
  simpl. exists (st :: rest). split; [done|]. simpl. by f_equal.
Qed.

Lemma next_actions_fold (ps : Dict.t Obj Coord) (nps : list Coord)
    (l : list (Worker * Assignment)) (na na' : Dict.t Worker WorkerAction) :
  foldM (fun (na : Dict.t Worker WorkerAction) (wa : Worker * Assignment) =>
           let* p := or_raise KeyError (Dict.get ps (OWorker wa.1)) in
           Ok (Dict.set na wa.1 (assignment_action wa.2 p ps nps)))
        l na = Ok na' ->
  (forall w, w ∉ l.*1 -> Dict.get na' w = Dict.get na w)
  /\ (NoDup l.*1 ->
      forall w asg, (w, asg) ∈ l ->
        exists p, Dict.get ps (OWorker w) = Some p
          /\ Dict.get na' w = Some (assignment_action asg p ps nps)).
Proof.
  revert na. induction l as [|[w1 a1] l IH]; intros na H; simpl in H.
  - inversion H; subst na'. split; [done|]. intros _ w asg Hin.
    by apply elem_of_nil in Hin.
  - apply rbind_Ok in H as (na1 & Hstep & H).
    apply rbind_Ok in Hstep as (p1 & Hp1 & Hstep). apply or_raise_Ok in Hp1.
    inversion Hstep; subst na1. clear Hstep. simpl in *.
    destruct (IH _ H) as [Hout Hin]. split.
    + intros w Hw. apply not_elem_of_cons in Hw as [Hne Hw].
      rewrite (Hout w Hw), get_set. by rewrite decide_False.
    + intros Hnd w asg Hmem. apply NoDup_cons in Hnd as [Hfresh Hnd].
      apply elem_of_cons in Hmem as [Heq|Hmem]; [|by apply Hin].
      inversion Heq; subst w asg. exists p1. split; [done|].
      rewrite (Hout w1 Hfresh), get_set. by rewrite decide_True.
Qed.

(** X15.  The state handed out announces the next action of every worker:
    for a worker with an assignment, [next_action] holds what the
    assignment resolves to from the position of the worker in that state,
    given the positions of that state and the tiles of the Nexuses that
    stand in it. *)
Theorem emit_next_action (fr : Frame CA) g st (fr' : Frame CA) g' w asg :
  NoDup (Dict.keys (f_assignments fr)) ->
  emit env fr g = Ok (st, fr', g') ->
  Dict.get (f_assignments fr) w = Some asg ->
  exists p,
    Dict.get (positions st) (OWorker w) = Some p
    /\ Dict.get (next_action st) w
       = Some (assignment_action asg p (positions st)
                 (nexus_tiles (building_positions st))).
Proof.
  intros Hnd Hemit Hasg. unfold emit in Hemit.
  destruct (destroyed_buildings _ _ g) as [destroyed g1].
  destruct (decide _); [done|].
  apply rbind_Ok in Hemit as (na & Hfold & Hemit).
  inversion Hemit; subst st fr' g'. clear Hemit. simpl.
  apply next_actions_fold in Hfold as [_ Hin].
  apply (Hin Hnd). by apply get_Some_elem_of.
Qed.

End Invariants.

(** ** The episode, continued *)

Section EpisodeInvariants.
Context {CA Raw : Type} `{decoder : !CompoundActionOps CA Raw}
  `{resolver : !AssignmentOps}.
Context (env : Env).

Lemma info_generator_inv lines (st : State CA) d i :
  info_generator env lines st d = Ok i ->
  (evaluating env = true -> d = false /\ i = None)
  /\ (evaluating env = false ->
      i = if d
          then Some (mkInfo (success st) (length lines)
                       (level (curriculum_setting env)
                        + (if success st then 1 else 0))%Z)
          else None).
Proof.
  unfold info_generator. destruct d.
  - destruct (evaluating env).
    + by destruct (success st && _).
    + intros [= <-]. by split.
  - intros [= <-]. by split.
Qed.

Lemma srti_outputs_inv (sr : Srti CA) out :
  srti_outputs env sr = Ok out ->
  observation out = r_state sr
  /\ reward out = (-1 # 10)%Q
  /\ done out = done_generator (r_state sr)
  /\ info_generator env (r_lines sr) (r_state sr) (done out) = Ok (info out).
Proof.
  unfold srti_outputs. intros H. apply rbind_Ok in H as (i & Hi & H).
  by inversion H; subst.
Qed.

Lemma reset_inv fuel n_lines g (sr : Srti CA) out g' :
  reset env fuel n_lines g = Ok (sr, out, g') ->
  exists pairs g1 lines g2 fr0 g3 st fr,
    build_dependencies env (max_build_tree_depth (curriculum_setting env)) g
      = Ok (pairs, g1)
    /\ build_lines env (Dict.of_list pairs) fuel n_lines g1 = Ok (lines, g2)
    /\ state_generator_init env lines (Dict.of_list pairs) fuel g2
       = Ok (fr0, g3)
    /\ emit env fr0 g3 = Ok (st, fr, g')
    /\ sr = mkSrti lines fr st compound_action
    /\ srti_outputs env sr = Ok out.
Proof.
  unfold reset. intros H.
  apply rbind_Ok in H as ([pairs g1] & Hdeps & H).
  apply rbind_Ok in H as ([lines g2] & Hlines & H).
  apply rbind_Ok in H as ([fr0 g3] & Hinit & H).
  apply rbind_Ok in H as ([[st fr] g4] & Hemit & H). simpl in H.
  apply rbind_Ok in H as (out' & Hout & H). inversion H; subst.
  by exists pairs, g1, lines, g2, fr0, g3, st, fr.
Qed.

Lemma step_inv (sr : Srti CA) a g (sr' : Srti CA) out g' :
  step env sr a g = Ok (sr', out, g') ->
  srti_outputs env sr' = Ok out
  /\ r_lines sr' = r_lines sr
  /\ r_action sr' = update (r_action sr) a
  /\ ((is_op (update (r_action sr) a) = true
       /\ exists fr,
            resume env (r_frame sr) (update (r_action sr) a) = Ok fr
            /\ emit env fr g = Ok (r_state sr', r_frame sr', g'))
      \/ (is_op (update (r_action sr) a) = false
          /\ g' = g
          /\ r_frame sr' = r_frame sr
          /\ r_state sr'
             = if evaluating env
               then replace_time_remaining
                      (replace_action (r_state sr) (update (r_action sr) a))
                      (time_remaining (r_state sr) - 1)%Z
               else replace_action (r_state sr) (update (r_action sr) a))).
Proof.
  unfold step. intros H. apply rbind_Ok in H as ([sr1 g1] & Hsr & H).
  apply rbind_Ok in H as (out' & Hout & H). inversion H; subst sr1 out' g1.
  clear H. split; [done|].
  destruct (is_op (update (r_action sr) a)) eqn:Hop.
  - apply rbind_Ok in Hsr as (fr & Hresume & Hsr).
    apply rbind_Ok in Hsr as ([[st fr2] g2] & Hemit & Hsr).
    inversion Hsr; subst sr' g'. simpl. do 2 (split; [done|]).
    left. split; [done|]. by exists fr.
  - destruct (evaluating env); inversion Hsr; subst sr' g'; simpl;
      do 2 (split; [done|]); right; done.
Qed.

Lemma after_destruction_nexus (fr : Frame CA) g p :
  NoDup (Dict.keys (f_building_positions fr)) ->
  Dict.get (f_building_positions fr) p = Some Nexus ->
  Dict.get (after_destruction env fr g) p = Some Nexus.
Proof.
  intros Hnd Hp. unfold after_destruction.
  rewrite foldl_del_get; [done|done|].
  intros ([c b] & -> & Hin)%list_elem_of_fmap.
  apply destroyed_buildings_elem in Hin as [Hin Hb]. simpl in Hp.
  apply (get_NoDup _ _ _ Hnd) in Hin. congruence.
Qed.

(** X16.  What [reset] hands out.  The first state has the full time
    budget, [(1 + n_lines) * time_per_line] for the [n_lines] lines drawn
    in training mode and [eval_steps - 1] in evaluation mode, no resources,
    the pointer [0] and the empty action; a Nexus stands on some tile and
    every worker stands on that tile; the reward is [-0.1]. *)
Theorem reset_first_state fuel n_lines g (sr : Srti CA) out g' :
  reset env fuel n_lines g = Ok (sr, out, g') ->
  observation out = r_state sr
  /\ reward out = (-1 # 10)%Q
  /\ Z.of_nat (length (r_lines sr)) = n_lines
  /\ time_remaining (r_state sr)
     = (if evaluating env then eval_steps env - 1
        else (1 + n_lines) * time_per_line env)%Z
  /\ f_time_remaining (r_frame sr) = time_remaining (r_state sr)
  /\ resources (r_state sr) = ∅
  /\ pointer (r_state sr) = 0%Z
  /\ action (r_state sr) = compound_action
  /\ r_action sr = compound_action
  /\ exists nexus,
       Dict.get (building_positions (r_state sr)) nexus = Some Nexus
       /\ forall w, w ∈ Workers env ->
            Dict.get (positions (r_state sr)) (OWorker w) = Some nexus.
Proof.
  intros H. apply reset_inv in H
    as (pairs & g1 & lines & g2 & fr0 & g3 & st & fr & _ & Hlines & Hinit
        & Hemit & -> & Hout).
  apply srti_outputs_inv in Hout as (Hobs & Hreward & _). simpl in *.
  apply build_lines_inv, random_instructions_under_spec in Hlines as [Hlen _].
  pose proof (state_generator_init_nexus env _ _ _ _ _ _ Hinit) as [Hnd _].
  apply state_generator_init_inv in Hinit as (placed & Hplaced & ->).
  apply place_objects_shape in Hplaced
    as (nexus & minerals & gas & rest & _ & _ & _ & Hma & Hga & _ & Hobj
        & Hbuildings & Hrest).
  pose proof (after_destruction_nexus _ g3 nexus Hnd) as Hnexus.
  apply emit_Ok in Hemit
    as (Hbp & _ & _ & Hpos & Hres & Htime & Haction & Hptr & _ & _ & _ & _
        & _ & Htime').
  simpl in *. rewrite Htime', Htime, Hres, Hptr, Haction, Hlen.
  do 9 (split; [done|]). exists nexus. split.
  - rewrite Hbp. apply Hnexus. rewrite Hbuildings.
    apply of_list_head_get. intros p b Hin.
    destruct (Hrest p b Hin) as (_ & Hassim & Hother).
    destruct (decide (b = Assimilator)) as [Hb|Hb].
    + rewrite (Hassim Hb). intros ->. by apply adjacent_distinct in Hga.
    + specialize (Hother Hb). rewrite not_elem_of_cons in Hother.
      by destruct Hother as [? _].
  - intros w Hw. rewrite Hpos, Hobj.
    destruct (get_of_list_is_Some
                (map (fun w => (OWorker w, nexus)) (Workers env)
                 ++ [(OResource MINERALS, minerals); (OResource GAS, gas)])
                (OWorker w)) as [p Hp].
    { rewrite fmap_app, elem_of_app. left.
      apply list_elem_of_fmap. exists (OWorker w, nexus). split; [done|].
      apply list_elem_of_fmap. by exists w. }
    rewrite Hp. f_equal.
    apply get_of_list_Some_key, elem_of_app in Hp as [Hp|Hp].
    + apply list_elem_of_fmap in Hp as (w' & Heq & _). by inversion Heq.
    + rewrite !elem_of_cons, elem_of_nil in Hp. by destruct Hp as [|[|]].
Qed.

Lemma steps_outputs (sr : Srti CA) raws g outs :
  steps env sr raws g = Ok outs ->
  length outs = length raws
  /\ Forall (fun out =>
               exists sr' : Srti CA,
                 r_lines sr' = r_lines sr /\ srti_outputs env sr' = Ok out)
            outs.
Proof.
  revert sr g outs. induction raws as [|a raws IH]; intros sr g outs H;
    simpl in H.
  - inversion H. by split.
  - apply rbind_Ok in H as ([[sr1 out1] g1] & Hstep & H). simpl in H.
    apply rbind_Ok in H as (rest & Hrest & H). inversion H; subst outs.
    apply step_inv in Hstep as (Hout & Hlines & _).
    destruct (IH _ _ _ Hrest) as [Hlen Hall]. split; [simpl; by f_equal|].
    constructor; [by exists sr1|].
    eapply Forall_impl; [exact Hall|]. simpl.
    intros out (sr' & Hl & Ho). exists sr'. split; [congruence|done].
Qed.

(** X17.  Every tuple that an episode returns, from [reset] on, has the
    reward [-0.1] and the done flag [success or time_remaining == 0] of its
    state.  In evaluation mode no tuple that is returned has the done flag
    set, and the dictionary of [info_generator] is empty; in training mode
    that dictionary is filled exactly when the done flag is set, with the
    success flag of the state, the number of lines, and the curriculum
    level plus the success flag. *)
Theorem episode_outputs fuel n_lines raws g outs :
  episode env fuel n_lines raws g = Ok outs ->
  length outs = S (length raws)
  /\ Forall (fun out : Step CA =>
               reward out = (-1 # 10)%Q
               /\ done out
                  = success (observation out)
                    || bool_decide (time_remaining (observation out) = 0%Z)
               /\ (evaluating env = true -> done out = false /\ info out = None)
               /\ (evaluating env = false ->
                   info out
                   = if done out
                     then Some (mkInfo (success (observation out))
                                  (Z.to_nat n_lines)
                                  (level (curriculum_setting env)
                                   + (if success (observation out)
                                      then 1 else 0))%Z)
                     else None)) outs.
Proof.
  unfold episode. intros H.
  apply rbind_Ok in H as ([[sr0 out0] g0] & Hreset & H). simpl in H.
  apply rbind_Ok in H as (rest & Hsteps & H). inversion H; subst outs.
  apply steps_outputs in Hsteps as [Hlen Hall].
  apply reset_inv in Hreset
    as (pairs & g1 & lines & g2 & fr0 & g3 & st & fr & _ & Hlines & _ & _
        & -> & Hout0).
  apply build_lines_inv, random_instructions_under_spec in Hlines as [Hn _].
  split; [simpl; by f_equal|].
  assert (forall (sr' : Srti CA) out,
            r_lines sr' = lines -> srti_outputs env sr' = Ok out ->
            reward out = (-1 # 10)%Q
            /\ done out
               = success (observation out)
                 || bool_decide (time_remaining (observation out) = 0%Z)
            /\ (evaluating env = true -> done out = false /\ info out = None)
            /\ (evaluating env = false ->
                info out
                = if done out
                  then Some (mkInfo (success (observation out))
                               (Z.to_nat n_lines)
                               (level (curriculum_setting env)
                                + (if success (observation out)
                                   then 1 else 0))%Z)
                  else None)) as Hone.
  { intros sr' out Hl Ho.
    apply srti_outputs_inv in Ho as (Hobs & Hreward & Hdone & Hinfo).
    rewrite Hl in Hinfo. apply info_generator_inv in Hinfo as [Heval Htrain].
    rewrite Hobs. do 2 (split; [done|]). split; [done|].
    intros Hmode. rewrite (Htrain Hmode).
    replace (Z.to_nat n_lines) with (length lines) by lia. done. }
  constructor; [by eapply Hone; [|exact Hout0]|].
  eapply Forall_impl; [exact Hall|]. simpl.
  intros out (sr' & Hl & Ho). by apply (Hone sr').
Qed.

(** X18.  A step folds the raw action into the compound action, which is
    never reset, and the state it returns carries that compound action.  A
    step whose compound action is complete returns the countdown of the
    simulator less one, whatever the countdown of the previous state was:
    the units taken off in evaluation mode for incomplete actions are
    given back. *)
Theorem step_tracks_action (sr : Srti CA) a g (sr' : Srti CA) out g' :
  step env sr a g = Ok (sr', out, g') ->
  r_action sr' = update (r_action sr) a
  /\ action (r_state sr') = r_action sr'
  /\ observation out = r_state sr'
  /\ r_lines sr' = r_lines sr
  /\ (is_op (update (r_action sr) a) = true ->
      pointer (r_state sr') = ptr (r_action sr')
      /\ time_remaining (r_state sr') = (f_time_remaining (r_frame sr) - 1)%Z
      /\ f_time_remaining (r_frame sr')
         = (f_time_remaining (r_frame sr) - 1)%Z).
Proof.
  intros H. apply step_inv in H as (Hout & Hlines & Haction & Hcases).
  apply srti_outputs_inv in Hout as (Hobs & _).
  split; [done|].
  destruct Hcases as [(Hop & fr & Hresume & Hemit) | (Hop & _ & _ & Hstate)].
  - apply resume_control in Hresume as (_ & Ht & Hp & Ha & _).
    apply emit_Ok in Hemit
      as (_ & _ & _ & _ & _ & Ht1 & Ha1 & Hp1 & _ & _ & _ & _ & _ & Ht2).
    rewrite Ha1, Hp1, Ht1, Ht2, Ha, Hp, Ht, Haction. done.
  - split; [rewrite Hstate, Haction; by destruct (evaluating env)|].
    do 2 (split; [done|]). intros Hyes. congruence.
Qed.

End EpisodeInvariants.

(** ** The instruction in the observation *)

Lemma index_of_Ok (bs : list Building) (b : Building) (k : nat) :
  index_of bs b = Ok k ->
  bs !! k = Some b /\ forall j, j < k -> bs !! j ≠ Some b.
Proof.
  revert k. induction bs as [|b' bs IH]; intros k; simpl; [done|].
  destruct (decide (b' = b)) as [->|Hne].
  - intros [= <-]. split; [done|]. intros j Hj. lia.
  - intros H. apply rbind_Ok in H as (i & Hi & H). inversion H; subst k.
    destruct (IH i Hi) as [Hlookup Hfirst]. split; [done|].
    intros [|j] Hj; simpl; [congruence|]. apply Hfirst. lia.
Qed.

Lemma index_of_Raise (bs : list Building) (b : Building) (e : exn) :
  index_of bs b = Raise e -> e = ValueError /\ b ∉ bs.
Proof.
  induction bs as [|b' bs IH]; simpl.
  - intros [= <-]. split; [done|]. apply not_elem_of_nil.
  - destruct (decide (b' = b)) as [->|Hne]; [done|].
    intros H. apply rbind_Raise in H as [H | (i & _ & H)]; [|done].
    destruct (IH H) as [-> Hnot]. split; [done|].
    apply not_elem_of_cons. by split.
Qed.

Lemma mapM_Raise {A B : Type} (f : A -> result B) (l : list A) (e : exn) :
  mapM f l = Raise e -> exists x, x ∈ l /\ f x = Raise e.
Proof.
  induction l as [|a l IH]; simpl; [done|]. intros H.
  apply rbind_Raise in H as [H | (b & _ & H)].
  - exists a. split; [left|done].
  - apply rbind_Raise in H as [H | (bs & _ & H)]; [|done].
    destruct (IH H) as (x & Hin & Hx). exists x. split; [by right|done].
Qed.

Lemma padded_lookup env lines i :
  padded env lines !! i =
    match lines !! i with
    | Some l => Some (Some l)
    | None =>
        if decide (i < length (padded env lines)) then Some None else None
    end.
Proof.
  unfold padded.
  destruct (lines !! i) as [l|] eqn:Hl.
  - rewrite lookup_app_l by (rewrite length_fmap; by eapply lookup_lt_Some).
    by rewrite list_lookup_fmap, Hl.
  - apply lookup_ge_None in Hl.
    rewrite lookup_app_r by (by rewrite length_fmap).
    rewrite length_app, !length_fmap, length_replicate.
    destruct (decide _) as [Hlt|Hge].
    + apply lookup_replicate_2. lia.
    + apply lookup_ge_None. rewrite length_replicate. lia.
Qed.

(** X19.  The lines of the observation.  [preprocessed] raises, a
    [ValueError], exactly when some line names a building that the table
    does not hold.  Otherwise it has one row per entry of [line_mask],
    [max_lines] of them unless there are more lines; the row of a line is
    its required flag and the first index of its building in the table,
    with the mask off, and a row of padding is [\[0, 0\]] with the mask
    on. *)
Theorem observation_lines env lines :
  match preprocessed env lines with
  | Ok rows =>
      Forall (fun l => building l ∈ Buildings env) lines
      /\ length rows = length (line_mask env lines)
      /\ length rows
         = Nat.max (length lines)
             (Z.to_nat (max_lines (curriculum_setting env)))
      /\ forall i row, rows !! i = Some row ->
           match lines !! i with
           | Some l =>
               line_mask env lines !! i = Some false
               /\ exists k,
                    row = [Nat.b2n (required l); k]
                    /\ Buildings env !! k = Some (building l)
                    /\ forall j, j < k -> Buildings env !! j ≠ Some (building l)
           | None => line_mask env lines !! i = Some true /\ row = [0; 0]
           end
  | Raise e =>
      e = ValueError /\ exists l, l ∈ lines /\ building l ∉ Buildings env
  end.
Proof.
  destruct (preprocessed env lines) as [rows|e] eqn:H; unfold preprocessed in H.
  - pose proof (mapM_length _ _ _ H) as Hlen.
    assert (length (padded env lines)
            = Nat.max (length lines)
                (Z.to_nat (max_lines (curriculum_setting env)))) as Hpad.
    { unfold padded. rewrite length_app, length_fmap, length_replicate. lia. }
    split; [|split; [|split]].
    + apply Forall_forall. intros l Hl.
      apply list_elem_of_lookup in Hl as [i Hi].
      destruct (lookup_lt_is_Some_2 rows i) as [row Hrow].
      { rewrite Hlen, Hpad. apply lookup_lt_Some in Hi. lia. }
      destruct (mapM_lookup _ _ _ _ _ H Hrow) as (x & Hx & Hfx).
      rewrite padded_lookup, Hi in Hx. inversion Hx; subst x.
      simpl in Hfx. apply rbind_Ok in Hfx as (k & Hk & _).
      apply index_of_Ok in Hk as [Hk _]. by eapply list_elem_of_lookup_2.
    + unfold line_mask. by rewrite length_map.
    + by rewrite Hlen.
    + intros i row Hrow.
      destruct (mapM_lookup _ _ _ _ _ H Hrow) as (x & Hx & Hfx).
      unfold line_mask.
      change (map ?f ?l !! i) with ((f <$> l) !! i).
      rewrite list_lookup_fmap, Hx. rewrite padded_lookup in Hx.
      destruct (lines !! i) as [l|].
      * inversion Hx; subst x. simpl. split; [done|].
        simpl in Hfx. apply rbind_Ok in Hfx as (k & Hk & Hfx).
        inversion Hfx; subst row. exists k. split; [done|].
        by apply index_of_Ok.
      * destruct (decide _); [|done]. inversion Hx; subst x.
        simpl in *. by inversion Hfx.
  - apply mapM_Raise in H as (x & Hin & Hx).
    destruct x as [l|]; [|done]. simpl in Hx.
    apply rbind_Raise in Hx as [Hx | (k & _ & Hx)]; [|done].
    apply index_of_Raise in Hx as [-> Hnot]. split; [done|].
    exists l. split; [|done].
    unfold padded in Hin. apply elem_of_app in Hin as [Hin|Hin].
    + apply list_elem_of_fmap in Hin as (l' & Heq & Hl'). by inversion Heq.
    + by apply elem_of_replicate in Hin as [? _].
Qed.

Lemma counter_of_remove_first (b : Building) (l : list Building) :
  b ∈ l -> counter_of (remove_first b l) ⊎ {[+ b +]} = counter_of l.
Proof.
  unfold counter_of. induction l as [|a l IH]; simpl.
  - by intros Hin%elem_of_nil.
  - destruct (decide (a = b)) as [->|Hne].
    + intros _. multiset_solver.
    + intros [Heq|Hin]%elem_of_cons; [congruence|].
      simpl. rewrite <- (IH Hin). multiset_solver.
Qed.

Lemma lines_iterator_count (buildings : list Building) (lines : list Line) :
  length (filter (fun l => required l = true) (lines_iterator buildings lines))
  = size (counter_of (required_buildings lines) ∖ counter_of buildings).
Proof.
  revert buildings. induction lines as [|l lines IH]; intros buildings.
  - simpl. unfold required_buildings, counter_of. simpl.
    replace (∅ ∖ list_to_set_disj buildings) with (∅ : Counter Building)
      by multiset_solver.
    apply (gmultiset_size_empty (A := Building)).
  - simpl. rewrite required_buildings_cons, filter_cons. simpl.
    destruct (required l) eqn:Hreq; simpl.
    + destruct (bool_decide (building l ∈ buildings)) eqn:Hbuilt; simpl.
      * apply bool_decide_eq_true in Hbuilt.
        rewrite IH.
        rewrite <- (counter_of_remove_first (building l) buildings Hbuilt).
        unfold counter_of. simpl. f_equal. multiset_solver.
      * apply bool_decide_eq_false in Hbuilt.
        simpl. rewrite IH.
        assert (building l ∉ counter_of buildings) as Hnot.
        { unfold counter_of. by rewrite elem_of_list_to_set_disj. }
        unfold counter_of in *. simpl.
        replace (({[+ building l +]} ⊎ list_to_set_disj (required_buildings lines))
                 ∖ list_to_set_disj buildings)
          with ({[+ building l +]}
                ⊎ (list_to_set_disj (required_buildings lines)
                   ∖ list_to_set_disj buildings) : Counter Building)
          by multiset_solver.
        by rewrite gmultiset_size_disj_union, gmultiset_size_singleton.
    + rewrite andb_false_r. apply IH.
Qed.

(** X20.  The lines that [render] prints are the lines of the instruction
    with some stars taken off.  The number of stars left is the number of
    required buildings that are missing, counted with multiplicity; so no
    star is left exactly when the success flag computed from the same
    buildings is set. *)
Theorem lines_iterator_stars (buildings : list Building) (lines : list Line) :
  building <$> lines_iterator buildings lines = building <$> lines
  /\ length (filter (fun l => required l = true)
               (lines_iterator buildings lines))
     = size (counter_of (required_buildings lines) ∖ counter_of buildings)
  /\ (Forall (fun l => required l = false) (lines_iterator buildings lines)
      <-> negb (counter_bool (counter_of (required_buildings lines)
                              ∖ counter_of buildings)) = true).
Proof.
  split; [|split].
  - revert buildings. induction lines as [|l lines IH]; intros buildings;
      simpl; [done|]. by rewrite IH.
  - apply lines_iterator_count.
  - rewrite negb_true_iff. unfold counter_bool. rewrite bool_decide_eq_false.
    pose proof (lines_iterator_count buildings lines) as Hsize.
    split.
    + intros Hall Hne. apply Hne. apply gmultiset_size_empty_iff.
      rewrite <- Hsize. clear -Hall.
      induction Hall as [|l ls Hl Hls IHls]; [done|].
      by rewrite filter_cons, decide_False by congruence.
    + intros Hnot.
      destruct (decide (counter_of (required_buildings lines)
                        ∖ counter_of buildings = ∅)) as [Hempty|Hne];
        [|by destruct Hnot].
      apply gmultiset_size_empty_iff in Hempty. rewrite <- Hsize in Hempty.
      apply length_zero_iff_nil in Hempty.
      apply Forall_forall. intros l Hl.
      destruct (required l) eqn:Hreq; [|done].
      assert (l ∈ filter (fun l => required l = true)
                    (lines_iterator buildings lines)) as Hin
        by (by apply list_elem_of_filter).
      rewrite Hempty in Hin. by apply elem_of_nil in Hin.
Qed.

(** ** What [reset] can raise *)



(** With no frame left, a line cannot be drawn: the recursion of
    [instructions_for] is refused. *)
Lemma random_instructions_under_exhausted env deps fuel n incl g b :
  (0 < n)%Z -> b ∈ Buildings env -> b ≠ Assimilator ->
  random_instructions_under env deps (S fuel) 0 n incl g
  = Raise RecursionError.
Proof.
  intros Hn Hb Hne. simpl.
  destruct (Z.ltb_spec n 0) as [Hlt|Hge]; [lia|].
  destruct (Z.eqb_spec n 0) as [Hz|Hnz]; [lia|].
  set (candidates := filter _ (Buildings env)).
  assert (b ∈ candidates) as Hcand.
  { apply list_elem_of_filter. split; [by right|done]. }
  destruct (decide (candidates = [])) as [Hnil|Hcons].
  { rewrite Hnil in Hcand. by apply elem_of_nil in Hcand. }
  assert (0 < length candidates) as Hlen.
  { destruct candidates; [done|simpl; lia]. }
  pose proof (choice_below_lt (length candidates) g Hlen) as Hk.
  destruct (choice_below _ g) as [k g1]. simpl in Hk.
  by destruct (lookup_lt_is_Some_2 candidates k Hk) as [b' ->].
Qed.


Section ResetRaises.
Context {CA Raw : Type} `{decoder : !CompoundActionOps CA Raw}
  `{resolver : !AssignmentOps}.
Context (env : Env).


End ResetRaises.

(** ** The further properties on the worlds of [Scenario] *)

Lemma spec_resolver_contract : @resolver_contract SpecModel.assignment_ops.
Proof.
  split.
  - intros rsc p ps nexus_positions [target Htarget]. simpl.
    unfold SpecModel.action. rewrite Htarget.
    destruct (decide _); [|by eexists].
    destruct (SpecModel.nearest _ _); by eexists.
  - intros b location p ps nexus_positions. simpl. unfold SpecModel.action.
    destruct (decide (p = location)); [by left|right; by eexists].
Qed.

Section FurtherWitnesses.
Import SpecModel Scenario.

Lemma ticks_countdown_witness :
  exists sts,
    ticks training nexus_required [send_minerals; send_gas] [] = Ok sts
    /\ length sts = 2.
Proof.
  eexists. split; [vm_compute; reflexivity|].
  eapply proj1,
    (ticks_countdown training nexus_required [send_minerals; send_gas] []).
  vm_compute; reflexivity.
Defined.

Lemma positions_stable_witness :
  exists sts minerals gas,
    state_generator training [mkLine true (Other 0)] dependencies 5
      [send_minerals; send_gas] (drop 7 episode_tape) = Ok sts
    /\ Forall (fun st : State CompoundAction =>
                 Dict.keys (positions st)
                 = (OWorker <$> Workers training)
                   ++ [OResource MINERALS; OResource GAS]
                 /\ Dict.get (positions st) (OResource MINERALS) = Some minerals
                 /\ Dict.get (positions st) (OResource GAS) = Some gas) sts.
Proof.
  eexists.
  destruct (positions_stable training [mkLine true (Other 0)] dependencies 5
              [send_minerals; send_gas] (drop 7 episode_tape) _
              ltac:(by_computation) ltac:(vm_compute; reflexivity))
    as (minerals & gas & _ & Hall).
  exists minerals, gas. split; [vm_compute; reflexivity | exact Hall].
Defined.

Lemma resource_tiles_respected_witness :
  exists sts,
    state_generator training [mkLine true (Other 0)] dependencies 5
      [send_minerals; send_gas] (drop 7 episode_tape) = Ok sts
    /\ Forall (fun st : State CompoundAction =>
                 tiles_respected (positions st) (building_positions st)) sts.
Proof.
  eexists. split; [vm_compute; reflexivity|].
  apply (resource_tiles_respected training [mkLine true (Other 0)]
           dependencies 5 [send_minerals; send_gas] (drop 7 episode_tape));
    [exact spec_builds_in_place | vm_compute; reflexivity].
Defined.

Lemma construction_pays_witness :
  exists fr',
    resolve_worker training first_assimilator
      (W 1, BuildOrder Assimilator gas_tile) = Ok fr'
    /\ (fr' = first_assimilator
        \/ (f_building_positions fr'
            = Dict.set (f_building_positions first_assimilator) gas_tile
                Assimilator
            /\ f_resources fr' ⊎ cost training Assimilator
               = f_resources first_assimilator
            /\ f_positions fr' = f_positions first_assimilator
            /\ (gas_tile ∉ Dict.keys (f_building_positions first_assimilator))
            /\ Dict.get (f_dependencies first_assimilator) Assimilator
               = Some None)).
Proof.
  eexists. split; [vm_compute; reflexivity|].
  apply (construction_pays training first_assimilator (W 1) Assimilator
           gas_tile gas_tile Assimilator);
    [reflexivity | reflexivity | vm_compute; reflexivity].
Defined.

Lemma success_counts_witness :
  exists sts,
    state_generator training [mkLine true (Other 0)] dependencies 5
      [send_minerals; send_gas] (drop 7 episode_tape) = Ok sts
    /\ Forall (fun st : State CompoundAction =>
                 success st = true
                 <-> forall b,
                       count_occ Building_eq_dec
                         (required_buildings [mkLine true (Other 0)]) b
                       <= count_occ Building_eq_dec
                            (Dict.values (building_positions st)) b) sts.
Proof.
  eexists. split; [vm_compute; reflexivity|].
  apply (success_counts training [mkLine true (Other 0)] dependencies 5
           [send_minerals; send_gas] (drop 7 episode_tape)).
  vm_compute; reflexivity.
Defined.

Lemma destruction_spares_nexus_witness :
  exists st fr' g',
    emit training nexus_required [] = Ok (st, fr', g')
    /\ Dict.get (building_positions st) nexus_tile = Some Nexus.
Proof.
  do 3 eexists. split; [vm_compute; reflexivity|].
  eapply (proj1 (proj2 (destruction_spares_nexus training nexus_required []
                          _ _ _ ltac:(by_computation)
                          ltac:(vm_compute; reflexivity)))).
  reflexivity.
Defined.

Lemma state_generator_returns_witness :
  exists sts,
    state_generator training [mkLine true (Other 0)] dependencies 5
      [send_minerals; send_gas] (drop 7 episode_tape) = Ok sts
    /\ length sts = 3.
Proof.
  eapply (state_generator_returns training [mkLine true (Other 0)]
            dependencies 5 [send_minerals; send_gas] (drop 7 episode_tape)).
  - exact spec_resolver_contract.
  - apply Forall_cons_2; [|apply Forall_cons_2; [|apply Forall_nil_2]];
      (split; [by_computation | intros b loc; discriminate]).
  - vm_compute; reflexivity.
Defined.

Lemma emit_next_action_witness :
  exists st fr' g' p,
    emit training nexus_required [] = Ok (st, fr', g')
    /\ Dict.get (positions st) (OWorker (W 1)) = Some p
    /\ Dict.get (next_action st) (W 1)
       = Some (assignment_action (Gather MINERALS) p (positions st)
                 (nexus_tiles (building_positions st))).
Proof.
  do 3 eexists.
  destruct (emit_next_action training nexus_required [] _ _ _ (W 1)
              (Gather MINERALS) ltac:(by_computation)
              ltac:(vm_compute; reflexivity) eq_refl) as (p & Hp & Hnext).
  exists p. split; [vm_compute; reflexivity|]. split; [exact Hp | exact Hnext].
Defined.

Lemma reset_first_state_witness :
  exists sr out g',
    reset training 5 1 episode_tape = Ok (sr, out, g')
    /\ time_remaining (r_state sr) = 4%Z
    /\ resources (r_state sr) = ∅.
Proof.
  do 3 eexists. split; [vm_compute; reflexivity|].
  destruct (reset_first_state training 5 1 episode_tape _ _ _
              ltac:(vm_compute; reflexivity))
    as (_ & _ & _ & Htime & _ & Hres & _).
  split; [exact Htime | exact Hres].
Defined.

Lemma episode_outputs_witness :
  exists outs,
    episode training 5 1
      [gather_minerals; gather_minerals; gather_minerals; gather_minerals]
      episode_tape = Ok outs
    /\ length outs = 5.
Proof.
  eexists. split; [vm_compute; reflexivity|].
  eapply proj1,
    (episode_outputs training 5 1
       [gather_minerals; gather_minerals; gather_minerals; gather_minerals]
       episode_tape).
  vm_compute; reflexivity.
Defined.

Lemma step_tracks_action_witness :
  exists sr0 out0 g0 sr' out g',
    reset (evaluation_for 7) 5 1 episode_tape = Ok (sr0, out0, g0)
    /\ step (evaluation_for 7) sr0 pick_building g0 = Ok (sr', out, g')
    /\ r_action sr' = update (r_action sr0) pick_building
    /\ observation out = r_state sr'.
Proof.
  do 6 eexists. split; [vm_compute; reflexivity|].
  match goal with
  | |- step ?env ?sr ?a ?g = _ /\ _ =>
      assert (step env sr a g = Ok (?[sr'], ?[out], ?[g'])) as Hstep
        by (vm_compute; reflexivity)
  end.
  split; [exact Hstep|].
  destruct (step_tracks_action _ _ _ _ _ _ _ Hstep) as (Ha & _ & Hs & _).
  split; [exact Ha | exact Hs].
Defined.


End FurtherWitnesses.

(** ** The instruction of an episode can be encoded *)

Lemma random_instructions_under_members env deps fuel depth n incl g lines g' :
  random_instructions_under env deps fuel depth n incl g = Ok (lines, g') ->
  forall l, l ∈ lines ->
    (required l = true /\ building l ∈ Buildings env)
    \/ (required l = false
        /\ exists y, Dict.get deps y = Some (Some (building l))).
Proof.
  revert depth n incl g lines g'.
  induction fuel as [|fuel IH]; intros depth n incl g lines g' H; simpl in H.
  - destruct (n <? 0)%Z; [done|]. destruct (n =? 0)%Z; [|done].
    inversion H; subst. by intros l Hl%elem_of_nil.
  - destruct (n <? 0)%Z; [done|].
    destruct (n =? 0)%Z.
    { inversion H; subst. by intros l Hl%elem_of_nil. }
    destruct (decide (_ = [])); [done|].
    destruct (choice_below _ g) as [k g1].
    apply rbind_Ok in H as (b & Hb & H). apply or_raise_Ok in Hb.
    apply rbind_Ok in H as (inst & Hinst & H).
    apply rbind_Ok in H as ([first last] & Hunpack & H).
    apply unpack_last_Ok in Hunpack.
    destruct (instructions_for_last _ _ _ _ Hinst) as [pre Hpre].
    rewrite Hunpack in Hpre. apply app_inj_tail in Hpre as [-> ->].
    destruct (Z.gtb_spec (Z.of_nat (length inst)) n) as [Hgt|Hle];
      [by eapply IH|].
    apply rbind_Ok in H as ([rest g2] & Hrest & H).
    inversion H; subst lines g'. clear H. subst inst.
    pose proof (instructions_for_follows _ _ _ _ Hinst) as Hfollow.
    intros l [Hl|Hl]%elem_of_app.
    + right. apply list_elem_of_fmap in Hl as (x & -> & Hx). simpl.
      split; [done|].
      apply list_elem_of_lookup in Hx as [i Hi].
      assert (is_Some ((pre ++ [b]) !! S i)) as [y Hy].
      { apply lookup_lt_is_Some_2. apply lookup_lt_Some in Hi.
        rewrite length_app. simpl. lia. }
      exists y. specialize (Hfollow (S i) y Hy).
      destruct (Dict.get deps y) as [[d|]|]; [|done|done].
      destruct Hfollow as (j & [= <-] & Hd).
      rewrite lookup_app_l in Hd by (by eapply lookup_lt_Some).
      congruence.
    + apply elem_of_cons in Hl as [->|Hl]; [|by eapply IH].
      left. simpl. split; [done|].
      apply list_elem_of_lookup_2 in Hb.
      by apply list_elem_of_filter in Hb as [_ ?].
Qed.

Lemma assimilator_lines_required (lines : list Line) :
  (forall l, l ∈ lines -> building l = Assimilator -> required l = true) ->
  count_occ Building_eq_dec (building <$> lines) Assimilator
  = count_occ Building_eq_dec (required_buildings lines) Assimilator.
Proof.
  induction lines as [|l lines IH]; intros Hall; [done|].
  rewrite required_buildings_cons, fmap_cons.
  assert (count_occ Building_eq_dec (building <$> lines) Assimilator
          = count_occ Building_eq_dec (required_buildings lines) Assimilator)
    as Hrest.
  { apply IH. intros l' Hl'. apply Hall. by right. }
  destruct (required l) eqn:Hreq; simpl; rewrite Hrest.
  - done.
  - destruct (Building_eq_dec (building l) Assimilator) as [Hb|Hb]; [|done].
    rewrite (Hall l) in Hreq; [done|left|done].
Qed.

(** X22.  The instruction that [build_lines] draws over the map of
    [build_dependencies] can always be put into the observation: every line
    names a building of the table, so [preprocessed] raises nothing.  An
    Assimilator is never a prerequisite: it is named by a required line
    only, and by at most one line of the instruction. *)
Theorem instruction_encodable env max_depth fuel n_lines g pairs g1 lines g2 :
  build_dependencies env max_depth g = Ok (pairs, g1) ->
  build_lines env (Dict.of_list pairs) fuel n_lines g1 = Ok (lines, g2) ->
  Forall (fun l => building l ∈ Buildings env
                   /\ (building l = Assimilator -> required l = true)) lines
  /\ count_occ Building_eq_dec (building <$> lines) Assimilator <= 1
  /\ exists rows, preprocessed env lines = Ok rows.
Proof.
  intros Hdeps Hlines. apply build_lines_inv in Hlines.
  destruct (build_dependencies_table _ _ _ _ _ Hdeps) as (_ & _ & _ & Hdep).
  pose proof (random_instructions_under_members _ _ _ _ _ _ _ _ _ Hlines)
    as Hmembers.
  assert (forall l, l ∈ lines ->
            building l ∈ Buildings env
            /\ (building l = Assimilator -> required l = true)) as Hall.
  { intros l Hl.
    destruct (Hmembers l Hl) as [[Hreq Hin] | (Hreq & y & Hy)]; [done|].
    destruct (Hdep _ _ Hy) as (_ & Hne & Hin). done. }
  split; [by apply Forall_forall|]. split.
  - rewrite assimilator_lines_required by (intros l Hl; by apply Hall).
    by apply random_instructions_under_spec in Hlines as [_ ?].
  - destruct (preprocessed env lines) as [rows|e] eqn:H; [by exists rows|].
    unfold preprocessed in H. apply mapM_Raise in H as (x & Hin & Hx).
    destruct x as [l|]; [|done]. simpl in Hx.
    apply rbind_Raise in Hx as [Hx | (k & _ & Hx)]; [|done].
    apply index_of_Raise in Hx as [_ Hnot]. exfalso. apply Hnot.
    apply Hall. unfold padded in Hin. apply elem_of_app in Hin as [Hin|Hin].
    + apply list_elem_of_fmap in Hin as (l' & Heq & Hl'). by inversion Heq.
    + by apply elem_of_replicate in Hin as [? _].
Qed.

Section EvaluationRaises.
Context {CA Raw : Type} `{decoder : !CompoundActionOps CA Raw}
  `{resolver : !AssignmentOps}.
Context (env : Env).

(** X23.  In evaluation mode a step that completes an action and brings
    the simulator to a state that is done does not return: it raises the
    [AssertionError] of [info_generator] when the state is a success with a
    countdown below one, and the [KeyError] of the missing key otherwise. *)
Theorem evaluation_done_raises (sr : Srti CA) a g (fr : Frame CA) st
    (fr' : Frame CA) g' :
  evaluating env = true ->
  is_op (update (r_action sr) a) = true ->
  resume env (r_frame sr) (update (r_action sr) a) = Ok fr ->
  emit env fr g = Ok (st, fr', g') ->
  done_generator st = true ->
  step env sr a g
  = Raise (if success st && negb (bool_decide (1 <= time_remaining st)%Z)
           then AssertionError else KeyError).
Proof.
  intros Hmode Hop Hresume Hemit Hdone. unfold step.
  rewrite Hop, Hresume. simpl. rewrite Hemit. simpl.
  unfold srti_outputs, info_generator. simpl. rewrite Hdone, Hmode.
  by destruct (success st && _).
Qed.

End EvaluationRaises.

Section CompositionWitnesses.
Import SpecModel Scenario.

Lemma instruction_encodable_witness :
  exists rows,
    preprocessed training
      [mkLine false (Other 0); mkLine true (Other 1); mkLine true Assimilator]
    = Ok rows.
Proof.
  eapply proj2, proj2,
    (instruction_encodable training 3 20 3 (forest_tape ++ [3; 0; 2]%N)
       [(Assimilator, None); (Nexus, None); (Other 0, None);
        (Other 1, Some (Other 0))] [3; 0; 2]%N _ [2%N]);
    vm_compute; reflexivity.
Defined.

Lemma evaluation_done_raises_witness :
  exists sr0 out0 g0,
    reset evaluation 5 1 episode_tape = Ok (sr0, out0, g0)
    /\ step evaluation sr0 gather_minerals g0 = Raise KeyError.
Proof.
  do 3 eexists. split; [vm_compute; reflexivity|].
  match goal with
  | |- step ?env ?sr ?a ?g = _ =>
      assert (resume env (r_frame sr) (update (r_action sr) a) = Ok ?[fr])
        as Hresume by (vm_compute; reflexivity);
      match type of Hresume with
      | _ = Ok ?fr1 =>
          assert (emit env fr1 g = Ok (?[st], ?[fr'], ?[g'])) as Hemit
            by (vm_compute; reflexivity)
      end;
      exact (evaluation_done_raises env sr a g _ _ _ _ eq_refl eq_refl
               Hresume Hemit eq_refl)
  end.
Defined.

End CompositionWitnesses.

(** ** A refused construction, reached from [reset] *)

Section ReachedFacts.
Import SpecModel Scenario Reached.

(** The defect reached in an episode.  From [reset], the workers fetch
    minerals, worker 1 builds an Assimilator and brings gas, and it is sent
    to the free tile [(1, 2)] with the order to build the second numbered
    building.  From then on the resources cover the cost, the tile is free
    and no resource tile, the dependency stands, and the action announced
    for worker 1 is the building; yet two ticks go by and the building is
    not built. *)
Lemma dependent_building_refused_in_episode :
  exists outs,
    episode patient 5 2 orders seeded_tape = Ok outs
    /\ map (fun o => (Dict.values (building_positions (observation o)),
                      multiplicity MINERALS (resources (observation o)),
                      multiplicity GAS (resources (observation o)),
                      Dict.get (positions (observation o)) (OWorker (W 1))))
         outs
       = [([Nexus; Other 0], 0, 0, Some (1, 1)%Z);
          ([Nexus; Other 0], 0, 0, Some (0, 1)%Z);
          ([Nexus; Other 0], 2, 0, Some (1, 1)%Z);
          ([Nexus; Other 0], 2, 0, Some (1, 1)%Z);
          ([Nexus; Other 0], 2, 0, Some (2, 1)%Z);
          ([Nexus; Other 0; Assimilator], 2, 0, Some (2, 1)%Z);
          ([Nexus; Other 0; Assimilator], 2, 1, Some (1, 1)%Z);
          ([Nexus; Other 0; Assimilator], 2, 1, Some (1, 1)%Z);
          ([Nexus; Other 0; Assimilator], 3, 1, Some (1, 2)%Z);
          ([Nexus; Other 0; Assimilator], 3, 1, Some (1, 2)%Z);
          ([Nexus; Other 0; Assimilator], 4, 1, Some (1, 2)%Z)]
    /\ Forall (fun o =>
                 cost patient (Other 1) ⊆ resources (observation o)
                 /\ ((1, 2)%Z ∉ Dict.keys (building_positions (observation o)))
                 /\ Dict.get (positions (observation o)) (OResource GAS)
                    ≠ Some (1, 2)%Z
                 /\ Dict.get (positions (observation o)) (OResource MINERALS)
                    ≠ Some (1, 2)%Z
                 /\ Dict.get dependencies (Other 1) = Some (Some (Other 0))
                 /\ Other 0 ∈ Dict.values (building_positions (observation o))
                 /\ Dict.get (next_action (observation o)) (W 1)
                    = Some (Build (Other 1))
                 /\ Other 1 ∉ Dict.values (building_positions (observation o)))
         (drop 8 outs).
Proof.
  eexists. split; [vm_compute; reflexivity|]. split; [reflexivity|].
  simpl. repeat (apply Forall_cons_2; [by_computation|]). apply Forall_nil_2.
Qed.

End ReachedFacts.
